(** * autofill-codes: the heuristic candidate-extraction engine

    A shallow embedding of the two heuristics of the extension:
    - [extractVerificationCode] / [isLikelyCode] (src/utils, the code
      extractor), which mine a verification code from e-mail text, and
    - [findCodeField] / [findSplitCodeInputs] / [isVisibleInput] /
      [hasSmallWidth] (src/content/index.js), which pick the page
      element asking for a code.

    JavaScript strings are sequences of UTF-16 code units; regular
    expression literals are kept as syntax trees and run by a
    backtracking matcher that lists the possible matches in the order
    in which the ECMAScript matcher tries them. *)

From Stdlib Require Import List NArith ZArith String Ascii Bool Lia Arith.
From Stdlib Require QArith.
Import ListNotations.

Set Implicit Arguments.

(* ================================================================== *)
(** * JavaScript strings                                                *)
(* ================================================================== *)

Module JSStr.

(** A string is its list of UTF-16 code units. *)
Definition jschar := N.
Definition jsstring := list jschar.

(** ASCII literals. *)
Definition js (s : string) : jsstring :=
  List.map N_of_ascii (list_ascii_of_string s).

Definition ch (s : string) : jschar :=
  match s with
  | String a _ => N_of_ascii a
  | EmptyString => 0%N
  end.

Definition eqb_str (a b : jsstring) : bool :=
  if list_eq_dec N.eq_dec a b then true else false.

Definition isDigit (c : jschar) : bool := ((48 <=? c) && (c <=? 57))%N.
Definition isUpper (c : jschar) : bool := ((65 <=? c) && (c <=? 90))%N.
Definition isLower (c : jschar) : bool := ((97 <=? c) && (c <=? 122))%N.

Definition toUpper (c : jschar) : jschar := if isLower c then (c - 32)%N else c.
Definition toLower (c : jschar) : jschar := if isUpper c then (c + 32)%N else c.

(** [s.substring(a, b)]: both ends are clamped to [0, length] and
    swapped when out of order. *)
Definition clamp (len : nat) (z : Z) : nat :=
  if (z <? 0)%Z then 0 else Nat.min (Z.to_nat z) len.

Definition substring (s : jsstring) (a b : Z) : jsstring :=
  let a' := clamp (List.length s) a in
  let b' := clamp (List.length s) b in
  let lo := Nat.min a' b' in
  let hi := Nat.max a' b' in
  firstn (hi - lo) (skipn lo s).

(** The slice of [s] between two offsets of a matcher state. *)
Definition slice (s : jsstring) (i j : nat) : jsstring :=
  firstn (j - i) (skipn i s).

(** [hay] starts with [needle], characters compared by [eqc]. *)
Fixpoint startsWithBy (eqc : jschar -> jschar -> bool) (needle hay : jsstring) : bool :=
  match needle, hay with
  | [], _ => true
  | _ :: _, [] => false
  | a :: n', b :: h' => eqc a b && startsWithBy eqc n' h'
  end.

(** [needle] occurs somewhere in [hay]. *)
Fixpoint containsBy (eqc : jschar -> jschar -> bool) (needle hay : jsstring) : bool :=
  startsWithBy eqc needle hay
  || match hay with
     | [] => false
     | _ :: h' => containsBy eqc needle h'
     end.

Definition startsWith : jsstring -> jsstring -> bool := startsWithBy N.eqb.

(** Equal up to the case of ASCII letters. *)
Definition eqI (a b : jschar) : bool := (toLower a =? toLower b)%N.

(** [hay.indexOf(needle)]: offset of the first occurrence, or -1. *)
Fixpoint indexOf_from (needle hay : jsstring) (i : Z) : Z :=
  if startsWith needle hay then i
  else match hay with
       | [] => (-1)%Z
       | _ :: h' => indexOf_from needle h' (i + 1)%Z
       end.

Definition indexOf (hay needle : jsstring) : Z := indexOf_from needle hay 0%Z.

(** [parseInt(s, 10)] on a string that starts with its digits: the
    value of the leading run of decimal digits, [None] (NaN) when the
    run is empty. *)
Fixpoint digitsValue (acc : Z) (s : jsstring) : Z :=
  match s with
  | c :: s' => if isDigit c then digitsValue (acc * 10 + (Z.of_N c - 48))%Z s' else acc
  | [] => acc
  end.

Definition parseInt (s : jsstring) : option Z :=
  match s with
  | c :: _ => if isDigit c then Some (digitsValue 0%Z s) else None
  | [] => None
  end.

End JSStr.

Import JSStr.

(* ================================================================== *)
(** * Regular expressions                                               *)
(* ================================================================== *)

Module Regex.

(** Members of a character class: a character, a range, [\s], [\d]. *)
Inductive citem : Type :=
| CChar (c : jschar)
| CRange (lo hi : jschar)
| CSpace
| CDigit.

Definition cset := list citem.

(** The syntax the patterns of the program use.  Every [*], [+] and
    [{m,n}] of the sources is applied to a character class, so [Rep]
    carries a class; [?] is applied to groups as well, so [Opt] takes a
    pattern.  No pattern has more than one capture group, and none has
    a capture group under a quantifier: [Grp] is group 1. *)
Inductive regex : Type :=
| Eps
| Chr (c : jschar)
| Cls (cs : cset)
| Cat (r1 r2 : regex)
| Alt (r1 r2 : regex)
| Opt (r : regex)
| Rep (cs : cset) (lo : nat) (hi : option nat)
| Grp (r : regex)
| Bol
| Eol
| Wordb.

(** Flags [i] and [m]; the flag [g] only changes how the caller moves
    [lastIndex]. *)
Record flags : Type := { ignoreCase : bool; multiline : bool }.

Definition isWordChar (c : jschar) : bool :=
  isDigit c || isUpper c || isLower c || (c =? 95)%N.

Definition isLineTerminator (c : jschar) : bool :=
  ((c =? 10) || (c =? 13) || (c =? 8232) || (c =? 8233))%N.

Definition isWhiteSpace (c : jschar) : bool :=
  ((c =? 9) || (c =? 10) || (c =? 11) || (c =? 12) || (c =? 13) || (c =? 32)
   || (c =? 160) || (c =? 5760) || ((8192 <=? c) && (c <=? 8202))
   || (c =? 8232) || (c =? 8233) || (c =? 8239) || (c =? 8287)
   || (c =? 12288) || (c =? 65279))%N.

Definition item_has (it : citem) (c : jschar) : bool :=
  match it with
  | CChar a => (c =? a)%N
  | CRange lo hi => ((lo <=? c) && (c <=? hi))%N
  | CSpace => isWhiteSpace c
  | CDigit => isDigit c
  end.

(** A match state: the end offset reached and the extent of group 1. *)
Record mstate : Type := { pos : nat; cap : option (nat * nat) }.

Definition start_at (i : nat) : mstate := {| pos := i; cap := None |}.

Section Matcher.

Variable fl : flags.
Variable inp : jsstring.

(** Canonicalize of the specification, on the characters the patterns
    mention: without the [u] flag a character outside ASCII never
    folds to an ASCII one, and the non-ASCII characters of the
    patterns (dashes, currency signs) have no case. *)
Definition canon (c : jschar) : jschar :=
  if ignoreCase fl then toUpper c else c.

Definition chr_ok (a c : jschar) : bool := (canon a =? canon c)%N.

Definition cset_has (cs : cset) (c : jschar) : bool :=
  existsb (fun it =>
             item_has it c
             || (ignoreCase fl && (item_has it (toUpper c) || item_has it (toLower c))))
          cs.

Definition charAt (i : nat) : option jschar := nth_error inp i.

Definition wordAt (i : nat) : bool :=
  match charAt i with Some c => isWordChar c | None => false end.

Definition wordBefore (i : nat) : bool :=
  match i with 0 => false | S j => wordAt j end.

Definition at_bol (i : nat) : bool :=
  match i with
  | 0 => true
  | S j => multiline fl
           && match charAt j with Some c => isLineTerminator c | None => false end
  end.

Definition at_eol (i : nat) : bool :=
  match charAt i with
  | None => Nat.eqb i (List.length inp)
  | Some c => multiline fl && isLineTerminator c
  end.

Definition adv (st : mstate) (n : nat) : mstate :=
  {| pos := pos st + n; cap := cap st |}.

(** Length of the longest run of class members at the head of [s],
    cut at the upper bound of the quantifier. *)
Fixpoint run (cs : cset) (hi : option nat) (s : jsstring) : nat :=
  match s with
  | [] => 0
  | c :: s' =>
      match hi with
      | Some 0 => 0
      | Some (S h) => if cset_has cs c then S (run cs (Some h) s') else 0
      | None => if cset_has cs c then S (run cs None s') else 0
      end
  end.

(** All the ways [r] matches from [st], first choice first: greedy
    quantifiers list the longest repetition first, an alternation its
    left branch first.  The backtracking matcher returns the first
    state of this list that its continuation accepts. *)
Fixpoint rmatch (r : regex) (st : mstate) : list mstate :=
  match r with
  | Eps => [st]
  | Chr a =>
      match charAt (pos st) with
      | Some c => if chr_ok a c then [adv st 1] else []
      | None => []
      end
  | Cls cs =>
      match charAt (pos st) with
      | Some c => if cset_has cs c then [adv st 1] else []
      | None => []
      end
  | Cat r1 r2 => flat_map (rmatch r2) (rmatch r1 st)
  | Alt r1 r2 => rmatch r1 st ++ rmatch r2 st
  | Opt r1 =>
      filter (fun st' => negb (Nat.eqb (pos st') (pos st))) (rmatch r1 st) ++ [st]
  | Rep cs lo hi =>
      let n := run cs hi (skipn (pos st) inp) in
      List.map (adv st) (rev (seq lo (S n - lo)))
  | Grp r1 =>
      List.map (fun st' => {| pos := pos st'; cap := Some (pos st, pos st') |})
               (rmatch r1 st)
  | Bol => if at_bol (pos st) then [st] else []
  | Eol => if at_eol (pos st) then [st] else []
  | Wordb => if xorb (wordBefore (pos st)) (wordAt (pos st)) then [st] else []
  end.

Variable r : regex.

(** RegExpBuiltinExec: try the start offsets [i], [i+1], ... up to the
    length of the input; [k] counts the offsets left. *)
Fixpoint exec_from (k i : nat) : option (nat * mstate) :=
  match k with
  | 0 => None
  | S k' =>
      match rmatch r (start_at i) with
      | st :: _ => Some (i, st)
      | [] => exec_from k' (S i)
      end
  end.

(** [r.exec(inp)] with [r.lastIndex = lastIndex]: the offset where the
    match starts and its final state ([pos] is the new [lastIndex] of a
    global pattern). *)
Definition exec (lastIndex : nat) : option (nat * mstate) :=
  exec_from (S (List.length inp) - lastIndex) lastIndex.

Definition test : bool :=
  match exec 0 with Some _ => true | None => false end.

(** [match[1]]: undefined when group 1 took no part in the match. *)
Definition group1 (st : mstate) : option jsstring :=
  match cap st with
  | Some (i, j) => Some (slice inp i j)
  | None => None
  end.

End Matcher.

Definition nonempty {A : Type} (l : list A) : bool :=
  match l with [] => false | _ :: _ => true end.

(** Pattern-building shorthands. *)
Fixpoint str_chars (s : jsstring) : regex :=
  match s with
  | [] => Eps
  | [c] => Chr c
  | c :: s' => Cat (Chr c) (str_chars s')
  end.

Definition str (s : string) : regex := str_chars (js s).

Fixpoint seqs (rs : list regex) : regex :=
  match rs with
  | [] => Eps
  | [r] => r
  | r :: rs' => Cat r (seqs rs')
  end.

Fixpoint alts (rs : list regex) : regex :=
  match rs with
  | [] => Eps
  | [r] => r
  | r :: rs' => Alt r (alts rs')
  end.

Definition star (cs : cset) : regex := Rep cs 0 None.
Definition plus (cs : cset) : regex := Rep cs 1 None.

(** The flag sets of the program: [i], [m], none. *)
Definition fl_i : flags := {| ignoreCase := true; multiline := false |}.
Definition fl_m : flags := {| ignoreCase := false; multiline := true |}.
Definition fl_none : flags := {| ignoreCase := false; multiline := false |}.

(** [\s] as a class, and [[- ]?]. *)
Definition ws : cset := [CSpace].
Definition dashSpace : regex := Opt (Cls [CChar (ch "-"); CChar (ch " ")]).

(** Static facts about a pattern: the least number of characters a
    match consumes, whether it mentions group 1, and whether every
    match leaves group 1 set to a non-empty extent. *)
Fixpoint minLen (r : regex) : nat :=
  match r with
  | Eps | Bol | Eol | Wordb | Opt _ => 0
  | Chr _ | Cls _ => 1
  | Cat r1 r2 => minLen r1 + minLen r2
  | Alt r1 r2 => Nat.min (minLen r1) (minLen r2)
  | Rep _ lo _ => lo
  | Grp r1 => minLen r1
  end.

Fixpoint hasGrp (r : regex) : bool :=
  match r with
  | Grp _ => true
  | Cat r1 r2 | Alt r1 r2 => hasGrp r1 || hasGrp r2
  | Opt r1 => hasGrp r1
  | _ => false
  end.

Fixpoint setsCap (r : regex) : bool :=
  match r with
  | Grp r1 => Nat.ltb 0 (minLen r1)
  | Cat r1 r2 => setsCap r2 || (setsCap r1 && negb (hasGrp r2))
  | Alt r1 r2 => setsCap r1 && setsCap r2
  | _ => false
  end.

End Regex.

Import Regex.

(* ================================================================== *)
(** * The code extractor                                                *)
(* ================================================================== *)

Module Extractor.

(** What a call can do: return, throw (a property read on
    [undefined]), or exhaust the fuel that bounds its [while] loops. *)
Inductive outcome (A : Type) : Type :=
| Returns (a : A)
| Throws
| OutOfFuel.

Arguments Throws {A}.
Arguments OutOfFuel {A}.

Definition upperAlnum : cset := [CRange (ch "A") (ch "Z"); CRange (ch "0") (ch "9")].
Definition digit09 : cset := [CRange (ch "0") (ch "9")].

(** [/(?:verification|security|confirm(?:ation)?|login|sign[- ]?in|one[- ]?time|auth(?:entication)?|2fa|two[- ]?factor)?\s*(?:code|pin|otp)\s*(?:is|:|\u2014|\u2013|-|=)\s*[:\s]*([A-Z0-9]{4,8})/gi] *)
Definition explicitPattern1 : regex :=
  seqs [ Opt (alts [ str "verification"; str "security";
                     Cat (str "confirm") (Opt (str "ation"));
                     str "login";
                     seqs [str "sign"; dashSpace; str "in"];
                     seqs [str "one"; dashSpace; str "time"];
                     Cat (str "auth") (Opt (str "entication"));
                     str "2fa";
                     seqs [str "two"; dashSpace; str "factor"] ]);
         star ws;
         alts [str "code"; str "pin"; str "otp"];
         star ws;
         alts [str "is"; str ":"; Chr 8212%N; Chr 8211%N; str "-"; str "="];
         star ws;
         star [CChar (ch ":"); CSpace];
         Grp (Rep upperAlnum 4 (Some 8)) ].

(** [/(?:enter|use|input|type|submit)\s+(?:the\s+)?(?:code\s+)?([A-Z0-9]{4,8})/gi] *)
Definition explicitPattern2 : regex :=
  seqs [ alts [str "enter"; str "use"; str "input"; str "type"; str "submit"];
         plus ws;
         Opt (Cat (str "the") (plus ws));
         Opt (Cat (str "code") (plus ws));
         Grp (Rep upperAlnum 4 (Some 8)) ].

(** [/\b([0-9]{4,8})\b\s*(?:is your|is the)/gi] *)
Definition explicitPattern3 : regex :=
  seqs [ Wordb; Grp (Rep digit09 4 (Some 8)); Wordb; star ws;
         alts [str "is your"; str "is the"] ].

Definition explicitPatterns : list regex :=
  [explicitPattern1; explicitPattern2; explicitPattern3].

(** [/(?:^|\s|>|\n)(\d{4,8})(?:\s|$|<|\n|\.)/gm] *)
Definition standalonePattern : regex :=
  seqs [ alts [Bol; Cls ws; str ">"; Chr 10%N];
         Grp (Rep [CDigit] 4 (Some 8));
         alts [Cls ws; Eol; str "<"; Chr 10%N; str "."] ].

(** [/\b([A-Z0-9]{6,8})\b/g] *)
Definition alphanumPattern : regex :=
  seqs [ Wordb; Grp (Rep upperAlnum 6 (Some 8)); Wordb ].

(** [/code|verify|confirm|otp|pin/i] *)
Definition codeContextPattern : regex :=
  alts [str "code"; str "verify"; str "confirm"; str "otp"; str "pin"].

(** [/\$|\u20AC|\u00A3|\u00A5|USD|EUR/]: dollar, euro, pound, yen signs *)
Definition currencyPattern : regex :=
  alts [str "$"; Chr 8364%N; Chr 163%N; Chr 165%N; str "USD"; str "EUR"].

(** [/\.\d{2}/] *)
Definition decimalPattern : regex :=
  Cat (str ".") (Rep [CDigit] 2 (Some 2)).

(** [/[A-Z]/i] and [/\d/] *)
Definition letterPattern : regex := Cls [CRange (ch "A") (ch "Z")].
Definition digitPattern : regex := Cls [CDigit].

Definition geNum (n : option Z) (k : Z) : bool :=
  match n with Some v => (k <=? v)%Z | None => false end.

Definition leNum (n : option Z) (k : Z) : bool :=
  match n with Some v => (v <=? k)%Z | None => false end.

(** [isLikelyCode(numStr, context)] *)
Definition isLikelyCode (numStr context : jsstring) : bool :=
  let num := parseInt numStr in
  if Nat.eqb (List.length numStr) 4 && geNum num 1900 && leNum num 2099 then
    test fl_i context codeContextPattern
  else
    let idx := indexOf context numStr in
    let len := Z.of_nat (List.length numStr) in
    if (0 <? idx)%Z then
      let before := substring context (Z.max 0 (idx - 5)) idx in
      let after := substring context (idx + len) (idx + len + 5) in
      if test fl_none before currencyPattern || test fl_none after decimalPattern
      then false
      else true
    else true.

(** The loop over [explicitPatterns]: [match?.[1]] is taken when the
    pattern matched and group 1 is a non-empty string. *)
Fixpoint explicitLoop (combined : jsstring) (patterns : list regex) : option jsstring :=
  match patterns with
  | [] => None
  | pattern :: rest =>
      match exec fl_i combined pattern 0 with
      | Some (_, m) =>
          match group1 combined m with
          | Some (c :: s) => Some (c :: s)
          | _ => explicitLoop combined rest
          end
      | None => explicitLoop combined rest
      end
  end.

(** [while ((m = standalonePattern.exec(combined)) !== null)]: one
    unit of fuel per call of [exec]; [isLikelyCode] reads
    [numStr.length], which throws on an undefined group. *)
Fixpoint standaloneLoop (fuel : nat) (combined : jsstring) (lastIndex : nat)
         (candidates : list jsstring) : outcome (list jsstring) :=
  match fuel with
  | 0 => OutOfFuel
  | S fuel' =>
      match exec fl_m combined standalonePattern lastIndex with
      | None => Returns candidates
      | Some (_, m) =>
          match group1 combined m with
          | None => Throws
          | Some num =>
              standaloneLoop fuel' combined (pos m)
                (if isLikelyCode num combined then candidates ++ [num] else candidates)
          end
      end
  end.

(** [candidates.find(c => c.length === n)] *)
Definition findLength (n : nat) (candidates : list jsstring) : option jsstring :=
  find (fun c => Nat.eqb (List.length c) n) candidates.

(** [find(6) || find(4) || candidates[0]]: a string found by length
    6 or 4 is non-empty, hence truthy. *)
Definition preferred (candidates : list jsstring) : option jsstring :=
  match findLength 6 candidates with
  | Some c => Some c
  | None =>
      match findLength 4 candidates with
      | Some c => Some c
      | None => hd_error candidates
      end
  end.

Definition undefinedStr : jsstring := js "undefined".

(** [while ((m = alphanumPattern.exec(combined)) !== null)] *)
Fixpoint alphanumLoop (fuel : nat) (combined : jsstring) (lastIndex : nat)
  : outcome (option jsstring) :=
  match fuel with
  | 0 => OutOfFuel
  | S fuel' =>
      match exec fl_none combined alphanumPattern lastIndex with
      | None => Returns None
      | Some (_, m) =>
          let candidate := group1 combined m in
          let shown := match candidate with Some s => s | None => undefinedStr end in
          if test fl_i shown letterPattern && test fl_none shown digitPattern
          then Returns candidate
          else alphanumLoop fuel' combined (pos m)
      end
  end.

(** [`${subject} ${text}`] *)
Definition combine (text subject : jsstring) : jsstring :=
  subject ++ [32%N] ++ text.

Definition extractWith (fuel : nat) (text subject : jsstring) : outcome (option jsstring) :=
  let combined := combine text subject in
  match explicitLoop combined explicitPatterns with
  | Some code => Returns (Some code)
  | None =>
      match standaloneLoop fuel combined 0 [] with
      | Returns [] =>
          if test fl_i combined codeContextPattern
          then alphanumLoop fuel combined 0
          else Returns None
      | Returns candidates => Returns (preferred candidates)
      | Throws => Throws
      | OutOfFuel => OutOfFuel
      end
  end.

(** [extractVerificationCode(text, subject)].  Each loop calls [exec]
    at most once per offset of the combined text and once more to see
    the end. *)
Definition extractVerificationCode (text subject : jsstring) : outcome (option jsstring) :=
  extractWith (S (List.length (combine text subject))) text subject.

End Extractor.

Import Extractor.

(* ================================================================== *)
(** * The page snapshot                                                 *)
(* ================================================================== *)

Module Dom.

Definition Q := QArith_base.Q.
Definition Qint (z : Z) : Q := QArith_base.Qmake z 1.

(** An element as the content script reads it: its attributes (for the
    selectors; the names in lower case, as the HTML parser stores
    them) and the properties [type], [disabled], [readOnly],
    [maxLength], [size], [value], [parentElement], the rectangle of
    [getBoundingClientRect()] and the three properties of
    [getComputedStyle()] the script looks at.  [node] identifies the
    element; [parentElement] is the [node] of its parent. *)
Record element : Type := {
  node : nat;
  localName : string;
  attributes : list (string * jsstring);
  type : jsstring;
  disabled : bool;
  readOnly : bool;
  maxLength : Z;
  size : Z;
  value : jsstring;
  parentElement : option nat;
  rectWidth : Q;
  rectHeight : Q;
  display : jsstring;
  visibility : jsstring;
  opacity : jsstring
}.

(** The snapshot: the elements in document order and
    [document.body?.innerText]. *)
Record document : Type := {
  elements : list element;
  bodyInnerText : option jsstring
}.

Definition getAttribute (el : element) (name : string) : option jsstring :=
  match find (fun kv => String.eqb (fst kv) name) (attributes el) with
  | Some kv => Some (snd kv)
  | None => None
  end.

(** The compound selectors of the script, all on [input] elements:
    [input[a="v"]], [input[a*="v" i]] and [input:not([a])]. *)
Inductive selector : Type :=
| AttrIs (a : string) (v : string)
| AttrContainsI (a : string) (v : string)
| AttrAbsent (a : string).

(** The value [hay] contains [needle], ASCII case-insensitively. *)
Definition containsI (needle hay : jsstring) : bool := containsBy eqI needle hay.

(** Two values are equal up to the case of ASCII letters. *)
Fixpoint eqStrI (a b : jsstring) : bool :=
  match a, b with
  | [], [] => true
  | x :: a', y :: b' => eqI x y && eqStrI a' b'
  | _, _ => false
  end.

(** The attributes whose values a selector compares ASCII
    case-insensitively on an HTML element of an HTML document, even
    without the [i] flag (HTML Standard, case-sensitivity of
    selectors).  Of these the script's selectors use [type]; the value
    of [autocomplete] is compared exactly. *)
Definition insensitiveValues : list string :=
  [ "accept"; "accept-charset"; "align"; "alink"; "axis"; "bgcolor"; "charset";
    "checked"; "clear"; "codetype"; "color"; "compact"; "declare"; "defer"; "dir";
    "direction"; "disabled"; "enctype"; "face"; "frame"; "hreflang"; "http-equiv";
    "lang"; "language"; "link"; "media"; "method"; "multiple"; "nohref"; "noresize";
    "noshade"; "nowrap"; "readonly"; "rel"; "rev"; "rules"; "scope"; "scrolling";
    "selected"; "shape"; "target"; "text"; "type"; "valign"; "valuetype"; "vlink" ]%string.

Definition insensitiveValue (a : string) : bool :=
  existsb (String.eqb a) insensitiveValues.

Definition matches (sel : selector) (el : element) : bool :=
  String.eqb (localName el) "input"
  && match sel with
     | AttrIs a v =>
         match getAttribute el a with
         | Some w => if insensitiveValue a then eqStrI w (js v) else eqb_str w (js v)
         | None => false
         end
     | AttrContainsI a v =>
         match getAttribute el a with
         | Some w => containsI (js v) w
         | None => false
         end
     | AttrAbsent a =>
         match getAttribute el a with
         | Some _ => false
         | None => true
         end
     end.

(** [document.querySelector(sel)]: the first match in document order. *)
Definition querySelector (doc : document) (sel : selector) : option element :=
  find (matches sel) (elements doc).

(** [document.querySelectorAll("s1, s2, ...")] *)
Definition querySelectorAll (doc : document) (sels : list selector) : list element :=
  filter (fun el => existsb (fun sel => matches sel el) sels) (elements doc).

End Dom.

Import Dom.

(* ================================================================== *)
(** * The field classifier                                              *)
(* ================================================================== *)

Module Classifier.

Definition CODE_FIELD_SELECTORS : list selector :=
  [ AttrIs "autocomplete" "one-time-code";
    AttrContainsI "name" "otp";
    AttrContainsI "name" "code";
    AttrContainsI "name" "verify";
    AttrContainsI "name" "token";
    AttrContainsI "name" "2fa";
    AttrContainsI "name" "mfa";
    AttrContainsI "name" "pin";
    AttrContainsI "id" "otp";
    AttrContainsI "id" "code";
    AttrContainsI "id" "verify";
    AttrContainsI "id" "2fa";
    AttrContainsI "id" "mfa";
    AttrContainsI "class" "otp";
    AttrContainsI "class" "code";
    AttrContainsI "class" "verify";
    AttrContainsI "data-testid" "code";
    AttrContainsI "data-testid" "otp";
    AttrContainsI "aria-label" "code";
    AttrContainsI "aria-label" "otp";
    AttrContainsI "aria-label" "verification";
    AttrContainsI "placeholder" "code";
    AttrContainsI "placeholder" "otp";
    AttrContainsI "placeholder" "verification" ].

Definition CONTEXT_PATTERNS : list regex :=
  [ (* /enter\s+(?:the\s+)?(?:verification|security|confirmation|login|sign[- ]?in)\s*code/i *)
    seqs [ str "enter"; plus ws; Opt (Cat (str "the") (plus ws));
           alts [ str "verification"; str "security"; str "confirmation"; str "login";
                  seqs [str "sign"; dashSpace; str "in"] ];
           star ws; str "code" ];
    (* /we\s+(?:sent|emailed)\s+(?:a\s+|you\s+a\s+)?code/i *)
    seqs [ str "we"; plus ws; alts [str "sent"; str "emailed"]; plus ws;
           Opt (alts [ Cat (str "a") (plus ws);
                       seqs [str "you"; plus ws; str "a"; plus ws] ]);
           str "code" ];
    (* /check\s+your\s+(?:email|inbox)/i *)
    seqs [ str "check"; plus ws; str "your"; plus ws; alts [str "email"; str "inbox"] ];
    (* /one[- ]?time\s+(?:password|code|pin)/i *)
    seqs [ str "one"; dashSpace; str "time"; plus ws;
           alts [str "password"; str "code"; str "pin"] ];
    (* /enter\s+(?:the\s+)?(?:\d[- ]?digit\s+)?code/i *)
    seqs [ str "enter"; plus ws; Opt (Cat (str "the") (plus ws));
           Opt (seqs [Cls [CDigit]; dashSpace; str "digit"; plus ws]);
           str "code" ];
    (* /verification\s+code/i *)
    seqs [ str "verification"; plus ws; str "code" ];
    (* /confirm(?:ation)?\s+code/i *)
    seqs [ str "confirm"; Opt (str "ation"); plus ws; str "code" ];
    (* /two[- ]?factor/i *)
    seqs [ str "two"; dashSpace; str "factor" ];
    (* /2fa\s+code/i *)
    seqs [ str "2fa"; plus ws; str "code" ];
    (* /authentication\s+code/i *)
    seqs [ str "authentication"; plus ws; str "code" ] ].

(** The module-level variables of the content script. *)
Record state : Type := {
  detectedField : option element;
  hasNotifiedBackground : bool;
  splitInputs : option (list element)
}.

Definition set_splitInputs (st : state) (splits : list element) : state :=
  {| detectedField := detectedField st;
     hasNotifiedBackground := hasNotifiedBackground st;
     splitInputs := Some splits |}.

(** [isVisibleInput(el)] *)
Definition isVisibleInput (el : element) : bool :=
  if eqb_str (type el) (js "hidden") || disabled el || readOnly el then false
  else if QArith_base.Qeq_bool (rectWidth el) (Qint 0)
          || QArith_base.Qeq_bool (rectHeight el) (Qint 0) then false
  else negb (eqb_str (display el) (js "none"))
       && negb (eqb_str (visibility el) (js "hidden"))
       && negb (eqb_str (opacity el) (js "0")).

(** [hasSmallWidth(el)]: [rect.width < 300] *)
Definition hasSmallWidth (el : element) : bool :=
  negb (QArith_base.Qle_bool (Qint 300) (rectWidth el)).

(** [pageHasCodeContext()] *)
Definition pageHasCodeContext (doc : document) : bool :=
  let text := match bodyInnerText doc with Some t => t | None => [] end in
  existsb (fun pattern => test fl_i text pattern) CONTEXT_PATTERNS.

(** ['input[type="text"], input[type="number"], input[type="tel"], input:not([type])'] *)
Definition shortFormInputs : list selector :=
  [AttrIs "type" "text"; AttrIs "type" "number"; AttrIs "type" "tel"; AttrAbsent "type"].

(** Identity of parents: [===] on element references and [null]. *)
Definition keyEq (k parent : option nat) : bool :=
  match k, parent with
  | Some a, Some b => Nat.eqb a b
  | None, None => true
  | _, _ => false
  end.

Definition sameParent (p : option nat) (el : element) : bool :=
  keyEq p (parentElement el).

(** The [Map] from parent to the inputs collected under it, in
    insertion order of the keys. *)
Definition groupMap := list (option nat * list element).

(** [groups.has(parent)] *)
Definition mapHas (groups : groupMap) (parent : option nat) : bool :=
  existsb (fun g => keyEq (fst g) parent) groups.

(** [groups.get(parent).push(input)] *)
Fixpoint mapPush (groups : groupMap) (parent : option nat) (input : element) : groupMap :=
  match groups with
  | [] => []
  | (k, inputs) :: rest =>
      if keyEq k parent then (k, inputs ++ [input]) :: rest
      else (k, inputs) :: mapPush rest parent input
  end.

Definition isSingleChar (input : element) : bool :=
  (maxLength input =? 1)%Z || (size input =? 1)%Z.

(** One turn of [for (const input of visible)]. *)
Definition groupStep (groups : groupMap) (input : element) : groupMap :=
  if isSingleChar input then
    let parent := parentElement input in
    let groups' := if mapHas groups parent then groups else groups ++ [(parent, [])] in
    mapPush groups' parent input
  else groups.

Definition inRange (inputs : list element) : bool :=
  Nat.leb 4 (List.length inputs) && Nat.leb (List.length inputs) 8.

(** [findSplitCodeInputs()] *)
Definition findSplitCodeInputs (doc : document) : option (list element) :=
  let allInputs := querySelectorAll doc shortFormInputs in
  let visible := filter isVisibleInput allInputs in
  let groups := fold_left groupStep visible [] in
  match find (fun g => inRange (snd g)) groups with
  | Some g => Some (snd g)
  | None => None
  end.

(** Strategy 1: one [querySelector] per selector. *)
Fixpoint directMatch (doc : document) (selectors : list selector) : option element :=
  match selectors with
  | [] => None
  | sel :: rest =>
      match querySelector doc sel with
      | Some el => if isVisibleInput el then Some el else directMatch doc rest
      | None => directMatch doc rest
      end
  end.

(** The test of Strategy 3 on one input. *)
Definition contextCandidate (input : element) : bool :=
  isVisibleInput input
  && match value input with [] => true | _ :: _ => false end
  && ((maxLength input <=? 8)%Z || (size input <=? 8)%Z || hasSmallWidth input).

(** [findCodeField()], threading the module state. *)
Definition findCodeField (doc : document) (st : state) : option element * state :=
  match directMatch doc CODE_FIELD_SELECTORS with
  | Some el => (Some el, st)
  | None =>
      match findSplitCodeInputs doc with
      | Some splits => (hd_error splits, set_splitInputs st splits)
      | None =>
          if pageHasCodeContext doc
          then (find contextCandidate (querySelectorAll doc shortFormInputs), st)
          else (None, st)
      end
  end.

End Classifier.

Import Classifier.

(* ================================================================== *)
(** * Facts about the matcher                                           *)
(* ================================================================== *)

(* ================================================================== *)
(** * The vocabulary of the specification                               *)
(* ================================================================== *)

Module Words.

(** The code-related keywords. *)
Definition keywords : list jsstring :=
  [js "code"; js "verify"; js "confirm"; js "otp"; js "pin"].

(** The text contains a keyword somewhere, in any letter case. *)
Definition hasKeyword (context : jsstring) : bool :=
  existsb (fun w => containsBy eqI w context) keywords.

(** Currency symbols and codes: dollar, euro, pound, yen, USD, EUR. *)
Definition currencyMarks : list jsstring :=
  [js "$"; [8364%N]; [163%N]; [165%N]; js "USD"; js "EUR"].

Definition hasCurrency (s : jsstring) : bool :=
  existsb (fun w => containsBy N.eqb w s) currencyMarks.

(** A dot followed by two digits, at the head of [s] and anywhere in
    it. *)
Definition dotTwoDigits (s : jsstring) : bool :=
  match s with
  | a :: b :: c :: _ => (a =? 46)%N && isDigit b && isDigit c
  | _ => false
  end.

Fixpoint hasTwoDecimals (s : jsstring) : bool :=
  dotTwoDigits s
  || match s with
     | [] => false
     | _ :: s' => hasTwoDecimals s'
     end.

(** A four-digit value from 1900 to 2099. *)
Definition yearLike (numStr : jsstring) : bool :=
  Nat.eqb (List.length numStr) 4
  && match parseInt numStr with
     | Some v => (1900 <=? v)%Z && (v <=? 2099)%Z
     | None => false
     end.

(** The five characters before offset [o], and the five from offset
    [e] on. *)
Definition fiveBefore (context : jsstring) (o : nat) : jsstring :=
  slice context (o - 5) o.

Definition fiveAfter (context : jsstring) (e : nat) : jsstring :=
  slice context e (e + 5).

(** [numStr] occurs in [context] at offset [i], and [i] is the offset
    of its first occurrence. *)
Definition occursAt (numStr context : jsstring) (i : nat) : Prop :=
  i <= List.length context /\ startsWith numStr (skipn i context) = true.

Definition firstOccurrence (numStr context : jsstring) (i : nat) : Prop :=
  occursAt numStr context i /\ forall j, j < i -> ~ occursAt numStr context j.

(** Letters, and the two readings of "alphanumeric": capitals and
    digits (the class of the scanning pattern), letters of either case
    and digits. *)
Definition isLetter (c : jschar) : bool := isUpper c || isLower c.
Definition upperOrDigit (c : jschar) : bool := isUpper c || isDigit c.
Definition letterOrDigit (c : jschar) : bool := isLetter c || isDigit c.

(** At least one letter and at least one digit. *)
Definition mixed (s : jsstring) : bool := existsb isLetter s && existsb isDigit s.

(** A token: [n] characters from offset [i], 6 to 8 of them, all
    [alnum], with a word boundary on each side. *)
Definition tokenAt (alnum : jschar -> bool) (combined : jsstring) (i n : nat) : bool :=
  Nat.leb 6 n && Nat.leb n 8 && Nat.leb (i + n) (List.length combined)
  && forallb alnum (slice combined i (i + n))
  && negb (wordBefore combined i) && negb (wordAt combined (i + n)).

(** The first token, in scan order, with a letter and a digit. *)
Definition firstMixedToken (alnum : jschar -> bool) (combined : jsstring) (i n : nat) : Prop :=
  tokenAt alnum combined i n = true
  /\ mixed (slice combined i (i + n)) = true
  /\ forall i' n', i' < i -> tokenAt alnum combined i' n' = true ->
                  mixed (slice combined i' (i' + n')) = false.

(** The state in which the scanning pattern leaves a match of the
    token at [i] of length [n]. *)
Definition tokenState (i n : nat) : mstate :=
  {| pos := i + n; cap := Some (i, i + n) |}.

(** The values [lastIndex] takes in the scan for standalone numbers:
    0, then the end of each match. *)
Inductive scanIndex (combined : jsstring) : nat -> Prop :=
| scan_start : scanIndex combined 0
| scan_next lastIndex i m :
    scanIndex combined lastIndex ->
    exec fl_m combined standalonePattern lastIndex = Some (i, m) ->
    scanIndex combined (pos m).

(** The digit run between offsets [o] and [e] of [combined] is one
    that the scan for standalone numbers reports. *)
Definition candidateAt (combined : jsstring) (o e : nat) : Prop :=
  exists lastIndex i m,
    scanIndex combined lastIndex
    /\ exec fl_m combined standalonePattern lastIndex = Some (i, m)
    /\ cap m = Some (o, e).

(** A currency mark in the five characters before [o], or a dot and
    two digits in the five characters from [e] on. *)
Definition looksLikeAmountAt (context : jsstring) (o e : nat) : bool :=
  hasCurrency (fiveBefore context o) || hasTwoDecimals (fiveAfter context e).

(** The inputs that count for a segmented field: short-form, visible,
    of single-character capacity, in document order. *)
Definition singleCharInputs (doc : document) : list element :=
  filter isSingleChar (filter isVisibleInput (querySelectorAll doc shortFormInputs)).

(** The inputs of [doc] that count and sit under parent [p]. *)
Definition groupOf (doc : document) (p : option nat) : list element :=
  filter (sameParent p) (singleCharInputs doc).

(** The parents of a list of inputs, each once, in the order in which
    they are first met. *)
Definition parentsOf (l : list element) : list (option nat) :=
  fold_left (fun ks x => if existsb (fun k => keyEq k (parentElement x)) ks
                         then ks else ks ++ [parentElement x])
            l [].

(** The map that holds, for each key of [ks], the inputs of [l] under
    that parent. *)
Definition groupsFor (l : list element) (ks : list (option nat)) : groupMap :=
  List.map (fun k => (k, filter (sameParent k) l)) ks.

(** A short-form input: an [input] element with no [type] attribute,
    or one whose value is text, number or tel in any letter case. *)
Definition shortForm (el : element) : bool :=
  String.eqb (localName el) "input"
  && match getAttribute el "type" with
     | None => true
     | Some t => eqStrI t (js "text") || eqStrI t (js "number") || eqStrI t (js "tel")
     end.

(** [rect.width < 300] as a proposition. *)
Definition narrow (el : element) : Prop :=
  QArith_base.Qlt (rectWidth el) (Qint 300).

(** A visible text input of the usual size, with no code marker, and
    ways to vary it. *)
Definition plainInput (n : nat) (parent : option nat) : element :=
  {| node := n; localName := "input"; attributes := [];
     type := js "text"; disabled := false; readOnly := false;
     maxLength := (-1)%Z; size := 20%Z; value := [];
     parentElement := parent;
     rectWidth := Qint 400; rectHeight := Qint 30;
     display := js "inline-block"; visibility := js "visible"; opacity := js "1" |}.

Definition withAttributes (el : element) (attrs : list (string * jsstring)) : element :=
  {| node := node el; localName := localName el; attributes := attrs;
     type := type el; disabled := disabled el; readOnly := readOnly el;
     maxLength := maxLength el; size := size el; value := value el;
     parentElement := parentElement el;
     rectWidth := rectWidth el; rectHeight := rectHeight el;
     display := display el; visibility := visibility el; opacity := opacity el |}.

Definition withDisplay (el : element) (d : jsstring) : element :=
  {| node := node el; localName := localName el; attributes := attributes el;
     type := type el; disabled := disabled el; readOnly := readOnly el;
     maxLength := maxLength el; size := size el; value := value el;
     parentElement := parentElement el;
     rectWidth := rectWidth el; rectHeight := rectHeight el;
     display := d; visibility := visibility el; opacity := opacity el |}.

Definition withMaxLength (el : element) (m : Z) : element :=
  {| node := node el; localName := localName el; attributes := attributes el;
     type := type el; disabled := disabled el; readOnly := readOnly el;
     maxLength := m; size := size el; value := value el;
     parentElement := parentElement el;
     rectWidth := rectWidth el; rectHeight := rectHeight el;
     display := display el; visibility := visibility el; opacity := opacity el |}.

(** A page with two containers: three single-character inputs under
    parent 50, then six under parent 100; no marker, no code phrase. *)
Definition digitBox (n : nat) (parent : nat) : element :=
  withMaxLength (plainInput n (Some parent)) 1%Z.

Definition sixBoxes : list element :=
  [digitBox 4 100; digitBox 5 100; digitBox 6 100;
   digitBox 7 100; digitBox 8 100; digitBox 9 100].

Definition segmentedPage : document :=
  {| elements := [digitBox 1 50; digitBox 2 50; digitBox 3 50] ++ sixBoxes;
     bodyInnerText := Some (js "Welcome back") |}.

(** A page whose first container holds four boxes written
    [type="TEXT"] and whose second holds four boxes with no [type]
    attribute. *)
Definition capitalBox (n : nat) (parent : nat) : element :=
  withAttributes (digitBox n parent) [("type"%string, js "TEXT")].

Definition capitalBoxes : list element :=
  [capitalBox 1 50; capitalBox 2 50; capitalBox 3 50; capitalBox 4 50].

Definition capitalsPage : document :=
  {| elements := capitalBoxes
                 ++ [digitBox 5 100; digitBox 6 100; digitBox 7 100; digitBox 8 100];
     bodyInnerText := Some (js "Welcome back") |}.

(** A page whose first input named "otp" is not displayed and whose
    second one is. *)
Definition hiddenOtp : element :=
  withDisplay (withAttributes (plainInput 1 (Some 0)) [("name"%string, js "otp")]) (js "none").

Definition shownOtp : element :=
  withAttributes (plainInput 2 (Some 0)) [("name"%string, js "otp")].

Definition shadowedPage : document :=
  {| elements := [hiddenOtp; shownOtp]; bodyInnerText := Some (js "Sign in") |}.

(** A page that asks for a code in words, with one unmarked input. *)
Definition unmarked : element := plainInput 1 (Some 0).

Definition phrasePage : document :=
  {| elements := [unmarked];
     bodyInnerText := Some (js "Please enter the verification code we sent") |}.

(** The module state before any detection. *)
Definition initialState : state :=
  {| detectedField := None; hasNotifiedBackground := false; splitInputs := None |}.

End Words.

Import Words.

(* ================================================================== *)
(** * The rest of the content script: filling and the detection loop    *)
(* ================================================================== *)

Module Autofill.

(** What the script asks of the page and of the extension runtime, in
    the order in which it asks.  An element is named by its [node]. *)
Inductive action : Type :=
| Focus (n : nat)
| SetValue (n : nat) (v : jsstring)
| DispatchEvent (n : nat) (name : string)
| ShowToast (message : jsstring) (kind : string)
| SendMessage (type : string)
| ConsoleError (message : jsstring).

(** [fillSingleInput(input, value)]: focus, the value setter (the
    native one when the prototype has it, plain assignment otherwise:
    either way the value of [input] is set to [value]), then the
    events input, change, keyup. *)
Definition fillSingleInput (input : element) (value : jsstring) : list action :=
  [ Focus (node input);
    SetValue (node input) value;
    DispatchEvent (node input) "input";
    DispatchEvent (node input) "change";
    DispatchEvent (node input) "keyup" ].

(** [code.split('')]: one string per code unit. *)
Definition splitChars (code : jsstring) : list jsstring :=
  List.map (fun c => [c]) code.

(** [splitInputs.forEach((input, i) => { if (i < chars.length)
    fillSingleInput(input, chars[i]); })], from index [i] on. *)
Fixpoint forEachFill (i : nat) (inputs : list element) (chars : list jsstring)
  : list action :=
  match inputs with
  | [] => []
  | input :: rest =>
      (if Nat.ltb i (List.length chars)
       then fillSingleInput input (nth i chars [])
       else [])
      ++ forEachFill (S i) rest chars
  end.

(** [fillSplitInputs(code)]: reading [forEach] off a null
    [splitInputs] throws. *)
Definition fillSplitInputs (code : jsstring) (st : state) : outcome (list action) :=
  match splitInputs st with
  | Some inputs => Returns (forEachFill 0 inputs (splitChars code))
  | None => Throws
  end.

(** [fillCode(code)] *)
Definition fillCode (code : jsstring) (st : state) : outcome (list action) :=
  match splitInputs st with
  | Some (input :: rest) => fillSplitInputs code st
  | _ =>
      match detectedField st with
      | Some field => Returns (fillSingleInput field code)
      | None => Returns []
      end
  end.

(** A message or response from the background worker, with the
    fields the script reads; a field holds [None] when it is absent or
    null, and [rpolling] is the truth value of [polling]. *)
Record reply : Type := {
  rtype : option string;
  rcode : option jsstring;
  rsource : option jsstring;
  rpolling : bool
}.

(** [message.type === t] *)
Definition typeIs (message : reply) (t : string) : bool :=
  match rtype message with
  | Some u => String.eqb u t
  | None => false
  end.

(** [`Code ${code} filled${source}`] with
    [source = message.source ? ` from "${message.source}"` : ''] *)
Definition filledText (code : jsstring) (source : option jsstring) : jsstring :=
  js "Code " ++ code ++ js " filled"
  ++ match source with
     | Some (c :: s) => js " from " ++ [34%N] ++ (c :: s) ++ [34%N]
     | _ => []
     end.

Definition andThen (first : outcome (list action)) (rest : list action)
  : outcome (list action) :=
  match first with
  | Returns acts => Returns (acts ++ rest)
  | Throws => Throws
  | OutOfFuel => OutOfFuel
  end.

(** The [chrome.runtime.onMessage] listener. *)
Definition onMessage (message : reply) (st : state) : outcome (list action) :=
  let filled :=
    match rcode message with
    | Some (c :: s) =>
        if typeIs message "AUTOFILL_CODE"
        then andThen (fillCode (c :: s) st)
                     [ShowToast (filledText (c :: s) (rsource message)) "success"]
        else Returns []
    | _ => Returns []
    end in
  andThen filled
          (if typeIs message "POLL_TIMEOUT"
           then [ShowToast (js "No verification code found in recent emails") "error"]
           else []).

(** The callback of [sendMessage({ type: 'CODE_FIELD_DETECTED' })];
    [lastError] is [chrome.runtime.lastError?.message]. *)
Definition onResponse (lastError : option jsstring) (response : option reply)
           (st : state) : outcome (list action) :=
  match lastError with
  | Some e => Returns [ConsoleError e]
  | None =>
      match response with
      | Some r =>
          match rcode r with
          | Some (c :: s) =>
              andThen (fillCode (c :: s) st)
                      [ShowToast (filledText (c :: s) (rsource r)) "success"]
          | _ =>
              if rpolling r
              then Returns [ShowToast (js "Waiting for verification email...") "info"]
              else Returns []
          end
      | None => Returns []
      end
  end.

(** [runDetection()] *)
Definition runDetection (doc : document) (st : state) : state * list action :=
  let (field, st1) := findCodeField doc st in
  match field with
  | Some el =>
      if hasNotifiedBackground st1 then (st1, [])
      else ({| detectedField := Some el;
               hasNotifiedBackground := true;
               splitInputs := splitInputs st1 |},
            [ ShowToast (js "Checking email for verification code...") "info";
              SendMessage "CODE_FIELD_DETECTED" ])
  | None => (st1, [])
  end.

(** The script's variables together with [lastUrl]. *)
Record script : Type := { vars : state; lastUrl : jsstring }.

(** The first [MutationObserver]: detect again unless notified. *)
Definition onBodyMutation (doc : document) (sc : script) : script * list action :=
  if hasNotifiedBackground (vars sc) then (sc, [])
  else let (st, acts) := runDetection doc (vars sc) in
       ({| vars := st; lastUrl := lastUrl sc |}, acts).

(** The second [MutationObserver]: reset when [location.href] moved. *)
Definition onDocumentMutation (href : jsstring) (sc : script) : script :=
  if eqb_str href (lastUrl sc) then sc
  else {| vars := {| detectedField := None;
                     hasNotifiedBackground := false;
                     splitInputs := None |};
          lastUrl := href |}.

(** Loading the script: [runDetection()] once, then [lastUrl] is set
    to the address of the page. *)
Definition load (doc : document) (href : jsstring) : script * list action :=
  let (st, acts) := runDetection doc initialState in
  ({| vars := st; lastUrl := href |}, acts).

(** The callbacks the page can trigger afterwards, one at a time. *)
Inductive event : Type :=
| BodyMutated (doc : document)
| DocumentMutated (href : jsstring).

Definition step (ev : event) (sc : script) : script * list action :=
  match ev with
  | BodyMutated doc => onBodyMutation doc sc
  | DocumentMutated href => (onDocumentMutation href sc, [])
  end.

Fixpoint runEvents (evs : list event) (sc : script) : script * list action :=
  match evs with
  | [] => (sc, [])
  | ev :: rest =>
      let (sc1, a1) := step ev sc in
      let (sc2, a2) := runEvents rest sc1 in
      (sc2, a1 ++ a2)
  end.

(** The value assignments among some actions, in order. *)
Fixpoint assignments (acts : list action) : list (nat * jsstring) :=
  match acts with
  | [] => []
  | SetValue n v :: rest => (n, v) :: assignments rest
  | _ :: rest => assignments rest
  end.

(** How many toasts some actions show. *)
Fixpoint toasts (acts : list action) : nat :=
  match acts with
  | [] => 0
  | ShowToast _ _ :: rest => S (toasts rest)
  | _ :: rest => toasts rest
  end.

(** How many detection messages some actions send. *)
Fixpoint detections (acts : list action) : nat :=
  match acts with
  | [] => 0
  | SendMessage t :: rest =>
      (if String.eqb t "CODE_FIELD_DETECTED" then 1 else 0) + detections rest
  | _ :: rest => detections rest
  end.

(** What the variables of the script satisfy in every state it
    reaches. *)
Definition consistent (st : state) : Prop :=
  (hasNotifiedBackground st = false ->
   detectedField st = None /\ splitInputs st = None)
  /\ (hasNotifiedBackground st = true ->
      exists el, detectedField st = Some el
                 /\ forall g, splitInputs st = Some g ->
                              hd_error g = Some el /\ 4 <= List.length g <= 8).

End Autofill.

Import Autofill.

(* ================================================================== *)
(** * The polling loop of the background worker                         *)
(* ================================================================== *)

Module Polling.

(** An interval the runtime holds for the worker: the handle
    [setInterval] returned for it (a positive integer), and the closure
    of its callback, the tab it answers to and the counter
    [elapsed]. *)
Record timer : Type := { handle : positive; tabId : nat; elapsed : Z }.

(** The two module variables, and the intervals registered with the
    runtime. *)
Record worker : Type := {
  isPolling : bool;
  pollIntervalId : option positive;
  registered : list timer
}.

Definition idle : worker :=
  {| isPolling := false; pollIntervalId := None; registered := [] |}.

(** What [fetchLatestCode()] resolves to, with the fields its callers
    read. *)
Record result : Type := {
  success : bool;
  code : option jsstring;
  source : option jsstring
}.

(** [result.success && result.code] *)
Definition hasCode (r : result) : bool :=
  success r && match code r with Some (_ :: _) => true | _ => false end.

(** [{ type: 'AUTOFILL_CODE', code: result.code, source: result.source }] *)
Definition autofillMessage (r : result) : reply :=
  {| rtype := Some "AUTOFILL_CODE"%string; rcode := code r; rsource := source r;
     rpolling := false |}.

(** [{ type: 'POLL_TIMEOUT' }] *)
Definition timeoutMessage : reply :=
  {| rtype := Some "POLL_TIMEOUT"%string; rcode := None; rsource := None;
     rpolling := false |}.

(** What the worker does that can be seen from outside: start a fetch
    of the latest code for the callback of a tab, send a message to a
    tab. *)
Inductive output : Type :=
| FetchLatestCode (tab : nat)
| SendToTab (tab : nat) (message : reply).

Definition interval : Z := 3000.
Definition maxDuration : Z := 60000.

Definition clearInterval (id : positive) (ts : list timer) : list timer :=
  filter (fun t => negb (Pos.eqb (handle t) id)) ts.

(** [stopPolling()]; a handle is positive, hence truthy. *)
Definition stopPolling (w : worker) : worker :=
  {| isPolling := false;
     pollIntervalId := None;
     registered := match pollIntervalId w with
                   | Some id => clearInterval id (registered w)
                   | None => registered w
                   end |}.

(** [startPolling(tabId)]; [id] is what [setInterval] returns. *)
Definition startPolling (tab : nat) (id : positive) (w : worker) : worker :=
  if isPolling w then w
  else {| isPolling := true;
          pollIntervalId := Some id;
          registered := registered w
                        ++ [{| handle := id; tabId := tab; elapsed := 0 |}] |}.

(** [elapsed += interval] in the closure of the interval [id]. *)
Definition bump (id : positive) (t : timer) : timer :=
  if Pos.eqb (handle t) id
  then {| handle := handle t; tabId := tabId t;
          elapsed := (elapsed t + interval)%Z |}
  else t.

(** The interval [id] fires: its callback up to the [await].  An
    interval that is not registered does not fire. *)
Definition onTick (id : positive) (w : worker) : worker * list output :=
  match find (fun t => Pos.eqb (handle t) id) (registered w) with
  | None => (w, [])
  | Some t =>
      let e := (elapsed t + interval)%Z in
      let w1 := {| isPolling := isPolling w;
                   pollIntervalId := pollIntervalId w;
                   registered := map (bump id) (registered w) |} in
      if (maxDuration <? e)%Z
      then (stopPolling w1, [SendToTab (tabId t) timeoutMessage])
      else (w1, [FetchLatestCode (tabId t)])
  end.

(** A fetch started by a callback for [tab] resolves with [r]: the
    callback after its [await]. *)
Definition onFetched (tab : nat) (r : result) (w : worker) : worker * list output :=
  if hasCode r then (stopPolling w, [SendToTab tab (autofillMessage r)]) else (w, []).

(** [handleCodeFieldDetected(_message, sender)]: [authenticated] and
    [enabled] are what the storage holds ([enabled] is [None] when it
    holds no boolean), [r] what the immediate fetch resolves to, [tab]
    is [sender.tab.id] and [id] what [setInterval] would return.  The
    value returned is the response, with the fields the content script
    reads. *)
Definition handleCodeFieldDetected (authenticated : bool) (enabled : option bool)
           (r : result) (tab : nat) (id : positive) (w : worker)
  : reply * (worker * list output) :=
  if negb authenticated || match enabled with Some false => true | _ => false end
  then ({| rtype := None; rcode := None; rsource := None; rpolling := false |},
        (w, []))
  else if hasCode r
  then ({| rtype := None; rcode := code r; rsource := source r; rpolling := false |},
        (w, [SendToTab tab (autofillMessage r)]))
  else ({| rtype := None; rcode := None; rsource := None; rpolling := true |},
        (startPolling tab id w, [])).

Inductive event : Type :=
| Start (tab : nat) (id : positive)
| Tick (id : positive)
| Fetched (tab : nat) (r : result).

Definition step (ev : event) (w : worker) : worker * list output :=
  match ev with
  | Start tab id => (startPolling tab id w, [])
  | Tick id => onTick id w
  | Fetched tab r => onFetched tab r w
  end.

Fixpoint runWorker (evs : list event) (w : worker) : worker * list output :=
  match evs with
  | [] => (w, [])
  | ev :: rest =>
      let (w1, o1) := step ev w in
      let (w2, o2) := runWorker rest w1 in
      (w2, o1 ++ o2)
  end.

Definition isFetch (o : output) : bool :=
  match o with FetchLatestCode _ => true | _ => false end.

Definition isTimeout (o : output) : bool :=
  match o with SendToTab _ m => typeIs m "POLL_TIMEOUT" | _ => false end.

Definition isStart (ev : event) : bool :=
  match ev with Start _ _ => true | _ => false end.

(** The variables and the registered intervals agree: while polling,
    exactly one interval is registered, the one [pollIntervalId]
    names; otherwise none. *)
Definition coherent (w : worker) : Prop :=
  match pollIntervalId w with
  | Some id => isPolling w = true
               /\ exists t, registered w = [t] /\ handle t = id
                            /\ (0 <= elapsed t <= maxDuration)%Z
                            /\ exists k, elapsed t = (interval * k)%Z
  | None => isPolling w = false /\ registered w = []
  end.

(** A session of [tab] under the handle [id] whose counter is [e]. *)
Definition running (tab : nat) (id : positive) (e : Z) : worker :=
  {| isPolling := true; pollIntervalId := Some id;
     registered := [{| handle := id; tabId := tab; elapsed := e |}] |}.

End Polling.

(** Two results of a fetch: no code yet, and a code. *)
Definition noCodeYet : Polling.result :=
  {| Polling.success := true; Polling.code := None; Polling.source := None |}.

Definition codeArrived : Polling.result :=
  {| Polling.success := true; Polling.code := Some (js "204913");
     Polling.source := Some (js "Your code") |}.

(* ================================================================== *)
(** * The body text of a message                                        *)
(* ================================================================== *)

Module Body.

(** A payload of the Gmail API, with the fields [extractBodyText]
    reads: [mimeType], [body.data] and [parts], each [None] when it is
    absent. *)
#[warnings="-register-all"]
Inductive payload : Type :=
| Payload (mimeType : option jsstring) (data : option jsstring)
          (parts : option (list payload)).

Definition mimeType (p : payload) : option jsstring :=
  match p with Payload m _ _ => m end.

Definition data (p : payload) : option jsstring :=
  match p with Payload _ d _ => d end.

Definition parts (p : payload) : option (list payload) :=
  match p with Payload _ _ ps => ps end.

(** [p.mimeType === t] *)
Definition hasType (t : jsstring) (p : payload) : bool :=
  match mimeType p with
  | Some m => eqb_str m t
  | None => false
  end.

(** [const part = ps.find(f); if (part) return call(part);]: [None]
    when [find] finds nothing. *)
Definition findThen (A : Type) (f : payload -> bool) (call : payload -> A)
  : list payload -> option A :=
  fix go (ps : list payload) : option A :=
    match ps with
    | [] => None
    | q :: rest => if f q then Some (call q) else go rest
    end.

(** [for (const part of ps) { const text = call(part); if (text)
    return text; }]: [Returns None] when the loop runs to its end. *)
Definition firstText (call : payload -> outcome jsstring)
  : list payload -> outcome (option jsstring) :=
  fix go (ps : list payload) : outcome (option jsstring) :=
    match ps with
    | [] => Returns None
    | q :: rest =>
        match call q with
        | Returns [] => go rest
        | Returns (c :: t) => Returns (Some (c :: t))
        | Throws => Throws
        | OutOfFuel => OutOfFuel
        end
    end.

(** [.replace(/-/g, '+').replace(/_/g, '/')], one code unit. *)
Definition urlSafe (c : jschar) : jschar :=
  if N.eqb c 45 then 43%N else if N.eqb c 95 then 47%N else c.

Section Decoders.

(** The platform's [atob], [None] where it throws, and [stripHtml]. *)
Variable atob : jsstring -> option jsstring.
Variable stripHtml : jsstring -> jsstring.

(** [decodeBase64Url(data)] *)
Definition decodeBase64Url (d : jsstring) : outcome jsstring :=
  match atob (List.map urlSafe d) with
  | Some s => Returns s
  | None => Throws
  end.

(** [extractBodyText(payload)] *)
Fixpoint extractBodyText (p : payload) : outcome jsstring :=
  match p with
  | Payload _ d ps =>
      match d with
      | Some (c :: s) =>
          match decodeBase64Url (c :: s) with
          | Returns decoded =>
              if hasType (js "text/html") p
              then Returns (stripHtml decoded)
              else Returns decoded
          | Throws => Throws
          | OutOfFuel => OutOfFuel
          end
      | _ =>
          match ps with
          | Some l =>
              match findThen (hasType (js "text/plain")) extractBodyText l with
              | Some r => r
              | None =>
                  match findThen (hasType (js "text/html")) extractBodyText l with
                  | Some r => r
                  | None =>
                      match firstText extractBodyText l with
                      | Returns (Some t) => Returns t
                      | Returns None => Returns []
                      | Throws => Throws
                      | OutOfFuel => OutOfFuel
                      end
                  end
              end
          | None => Returns []
          end
      end
  end.

End Decoders.

(** A payload and all the parts below it. *)
Fixpoint nodes (p : payload) : list payload :=
  match p with
  | Payload _ _ ps =>
      p :: match ps with
           | Some l => flat_map nodes l
           | None => []
           end
  end.

(** A multipart message whose plain part is empty and whose HTML part
    is not. *)
Definition emptyPlain : payload :=
  Payload (Some (js "text/plain")) None None.

Definition htmlPart : payload :=
  Payload (Some (js "text/html")) (Some (js "Y29kZQ")) None.

Definition alternative : payload :=
  Payload (Some (js "multipart/alternative")) None (Some [htmlPart; emptyPlain]).

End Body.

(** Every capture group of [r] is [(cs{lo,hi})]. *)
Fixpoint grpIs (cs : cset) (lo hi : nat) (r : regex) : Prop :=
  match r with
  | Grp r1 => r1 = Rep cs lo (Some hi)
  | Cat r1 r2 | Alt r1 r2 => grpIs cs lo hi r1 /\ grpIs cs lo hi r2
  | Opt r1 => grpIs cs lo hi r1
  | _ => True
  end.

Unset Implicit Arguments.

(** Case analysis on a membership in the list of a leaf pattern. *)
Ltac leaf H :=
  repeat match type of H with
         | In _ (match ?x with Some _ => _ | None => _ end) => destruct x eqn:?
         | In _ (if ?b then _ else _) => destruct b eqn:?
         | In _ [] => contradiction
         | In _ [_] => destruct H as [<-|[]]
         | _ = _ \/ False => destruct H as [<-|[]]
         | False => contradiction
         end.

Section MatcherFacts.

Variable fl : flags.
Variable inp : jsstring.

Lemma run_le cs hi s : run fl cs hi s <= List.length s.
Proof.
  revert hi; induction s as [|c s IH]; intros hi; simpl; [lia|].
  destruct hi as [[|h]|]; try lia.
  - destruct (cset_has fl cs c); [specialize (IH (Some h))|]; lia.
  - destruct (cset_has fl cs c); [specialize (IH None)|]; lia.
Qed.

Lemma charAt_lt i c : charAt inp i = Some c -> i < List.length inp.
Proof.
  unfold charAt; intros H. apply nth_error_Some. congruence.
Qed.

(** A match ends at least [minLen r] characters after its start. *)
Lemma rmatch_advance r : forall st st',
  In st' (rmatch fl inp r st) -> pos st + minLen r <= pos st'.
Proof.
  induction r; intros st st' H; simpl in *.
  - leaf H; lia.
  - leaf H; simpl; lia.
  - leaf H; simpl; lia.
  - apply in_flat_map in H. destruct H as (mid & H1 & H2).
    apply IHr1 in H1. apply IHr2 in H2. lia.
  - apply in_app_or in H. destruct H as [H|H]; [apply IHr1 in H | apply IHr2 in H]; lia.
  - apply in_app_or in H. destruct H as [H|[<-|[]]]; [|lia].
    apply filter_In in H. destruct H as [H _]. apply IHr in H. lia.
  - apply in_map_iff in H. destruct H as (j & <- & Hj).
    apply in_rev, in_seq in Hj. simpl; lia.
  - apply in_map_iff in H. destruct H as (m & <- & Hm).
    apply IHr in Hm. simpl; lia.
  - leaf H; lia.
  - leaf H; lia.
  - leaf H; lia.
Qed.

(** A match that starts inside the input ends inside it. *)
Lemma rmatch_bound r : forall st st',
  pos st <= List.length inp ->
  In st' (rmatch fl inp r st) -> pos st' <= List.length inp.
Proof.
  induction r; intros st st' Hle H; simpl in *.
  - leaf H; lia.
  - leaf H. simpl. match goal with E : charAt _ _ = Some _ |- _ => apply charAt_lt in E end. lia.
  - leaf H. simpl. match goal with E : charAt _ _ = Some _ |- _ => apply charAt_lt in E end. lia.
  - apply in_flat_map in H. destruct H as (mid & H1 & H2).
    eapply IHr2; [|exact H2]. eapply IHr1; eauto.
  - apply in_app_or in H. destruct H as [H|H]; eauto.
  - apply in_app_or in H. destruct H as [H|[<-|[]]]; [|lia].
    apply filter_In in H. destruct H as [H _]. eauto.
  - apply in_map_iff in H. destruct H as (j & <- & Hj).
    apply in_rev, in_seq in Hj. simpl.
    pose proof (run_le cs hi (skipn (pos st) inp)) as Hr.
    rewrite length_skipn in Hr. destruct lo; lia.
  - apply in_map_iff in H. destruct H as (m & <- & Hm). simpl. eauto.
  - leaf H; lia.
  - leaf H; lia.
  - leaf H; lia.
Qed.

(** A pattern without the group leaves the capture as it was. *)
Lemma rmatch_cap_keep r : forall st st',
  hasGrp r = false -> In st' (rmatch fl inp r st) -> cap st' = cap st.
Proof.
  induction r; intros st st' Hg H; simpl in *; try discriminate.
  - leaf H; reflexivity.
  - leaf H; reflexivity.
  - leaf H; reflexivity.
  - apply orb_false_iff in Hg. destruct Hg as [G1 G2].
    apply in_flat_map in H. destruct H as (mid & H1 & H2).
    rewrite (IHr2 _ _ G2 H2). eauto.
  - apply orb_false_iff in Hg. destruct Hg as [G1 G2].
    apply in_app_or in H. destruct H as [H|H]; eauto.
  - apply in_app_or in H. destruct H as [H|[<-|[]]]; [|reflexivity].
    apply filter_In in H. destruct H as [H _]. eauto.
  - apply in_map_iff in H. destruct H as (j & <- & Hj). reflexivity.
  - leaf H; reflexivity.
  - leaf H; reflexivity.
  - leaf H; reflexivity.
Qed.

(** Where [setsCap] holds, every match has a non-empty group 1 lying
    between the start and the end of the match. *)
Lemma rmatch_cap_set r : forall st st',
  setsCap r = true -> In st' (rmatch fl inp r st) ->
  exists i j, cap st' = Some (i, j) /\ pos st <= i /\ i < j /\ j <= pos st'.
Proof.
  induction r; intros st st' Hs H; simpl in *; try discriminate.
  - apply in_flat_map in H. destruct H as (mid & H1 & H2).
    pose proof (rmatch_advance _ _ _ H1) as A1.
    pose proof (rmatch_advance _ _ _ H2) as A2.
    apply orb_true_iff in Hs. destruct Hs as [Hs|Hs].
    + destruct (IHr2 _ _ Hs H2) as (i & j & E & B1 & B2 & B3).
      exists i, j. repeat split; auto; lia.
    + apply andb_true_iff in Hs. destruct Hs as [Hs Hn].
      apply negb_true_iff in Hn.
      destruct (IHr1 _ _ Hs H1) as (i & j & E & B1 & B2 & B3).
      exists i, j. rewrite (rmatch_cap_keep _ _ _ Hn H2).
      repeat split; auto; lia.
  - apply andb_true_iff in Hs. destruct Hs as [S1 S2].
    apply in_app_or in H. destruct H as [H|H]; eauto.
  - apply in_map_iff in H. destruct H as (m & <- & Hm).
    apply rmatch_advance in Hm. apply Nat.ltb_lt in Hs.
    exists (pos st), (pos m). simpl. repeat split; auto; lia.
Qed.

Variable r : regex.

(** [exec_from] reports the first offset at which the pattern matches,
    with the first match there. *)
Lemma exec_from_Some : forall k i i0 m,
  exec_from fl inp r k i = Some (i0, m) ->
  i <= i0 /\ i0 < i + k /\
  hd_error (rmatch fl inp r (start_at i0)) = Some m /\
  forall j, i <= j -> j < i0 -> rmatch fl inp r (start_at j) = [].
Proof.
  induction k; intros i i0 m H; simpl in H; [discriminate|].
  destruct (rmatch fl inp r (start_at i)) eqn:E.
  - apply IHk in H. destruct H as (A & B & C & D).
    repeat split; auto; try lia.
    intros j J1 J2. destruct (Nat.eq_dec j i) as [->|]; [exact E|].
    apply D; lia.
  - inversion H; subst. repeat split; try lia.
    rewrite E. reflexivity.
Qed.

Lemma exec_from_None : forall k i,
  exec_from fl inp r k i = None ->
  forall j, i <= j -> j < i + k -> rmatch fl inp r (start_at j) = [].
Proof.
  induction k; intros i H j J1 J2; simpl in H; [lia|].
  destruct (rmatch fl inp r (start_at i)) eqn:E; [|discriminate].
  destruct (Nat.eq_dec j i) as [->|]; [exact E|].
  eapply IHk; eauto; lia.
Qed.

Lemma exec_from_found : forall k i i0 m l,
  i <= i0 -> i0 < i + k ->
  rmatch fl inp r (start_at i0) = m :: l ->
  (forall j, i <= j -> j < i0 -> rmatch fl inp r (start_at j) = []) ->
  exec_from fl inp r k i = Some (i0, m).
Proof.
  induction k; intros i i0 m l A B C D; [lia|]. simpl.
  destruct (Nat.eq_dec i i0) as [->|Hne].
  - rewrite C. reflexivity.
  - rewrite (D i) by lia. apply IHk with (l := l); auto; try lia.
    intros; apply D; lia.
Qed.

Lemma exec_from_none : forall k i,
  (forall j, i <= j -> j < i + k -> rmatch fl inp r (start_at j) = []) ->
  exec_from fl inp r k i = None.
Proof.
  induction k; intros i D; [reflexivity|]. simpl.
  rewrite (D i) by lia. apply IHk. intros; apply D; lia.
Qed.

(** What a successful [exec] gives: a match starting at or after
    [lastIndex], ending inside the input, [minLen r] or more later. *)
Lemma exec_Some lastIndex i m :
  exec fl inp r lastIndex = Some (i, m) ->
  lastIndex <= i /\ In m (rmatch fl inp r (start_at i)) /\
  i + minLen r <= pos m /\ pos m <= List.length inp.
Proof.
  unfold exec; intros H. apply exec_from_Some in H.
  destruct H as (A & B & C & _).
  assert (Hin : In m (rmatch fl inp r (start_at i))).
  { destruct (rmatch fl inp r (start_at i)); simpl in C; [discriminate|].
    inversion C; subst; left; reflexivity. }
  repeat split; auto.
  - apply rmatch_advance in Hin. exact Hin.
  - eapply rmatch_bound; [|exact Hin]. simpl. lia.
Qed.

Lemma exec_group1 lastIndex i m :
  setsCap r = true ->
  exec fl inp r lastIndex = Some (i, m) ->
  exists a b, cap m = Some (a, b) /\ a < b /\ b <= List.length inp /\
              group1 inp m = Some (slice inp a b) /\ slice inp a b <> [].
Proof.
  intros Hs H. apply exec_Some in H. destruct H as (A & Hin & B & C).
  destruct (rmatch_cap_set _ _ _ Hs Hin) as (a & b & E & B1 & B2 & B3).
  exists a, b. unfold group1. rewrite E. repeat split; auto; try lia.
  intros Hnil. apply (f_equal (@List.length _)) in Hnil.
  unfold slice in Hnil. rewrite length_firstn, length_skipn in Hnil.
  simpl in Hnil. lia.
Qed.

End MatcherFacts.

(* ================================================================== *)
(** * The extractor: termination and the explicit callouts              *)
(* ================================================================== *)

Lemma explicitPatterns_setsCap :
  forall p, In p explicitPatterns -> setsCap p = true.
Proof.
  intros p [<-|[<-|[<-|[]]]]; reflexivity.
Qed.

(** The loop over the digit runs returns when its fuel exceeds the
    distance to the end of the text: every match has a group and ends
    four or more characters after [lastIndex]. *)
Lemma standaloneLoop_returns : forall fuel combined lastIndex candidates,
  List.length combined - lastIndex < fuel ->
  exists l, standaloneLoop fuel combined lastIndex candidates = Returns l.
Proof.
  induction fuel; intros combined lastIndex candidates Hf; [lia|].
  simpl. destruct (exec fl_m combined standalonePattern lastIndex) as [[i m]|] eqn:E.
  - destruct (exec_group1 fl_m combined standalonePattern lastIndex i m eq_refl E)
      as (a & b & _ & _ & _ & G & _).
    rewrite G. apply IHfuel.
    apply exec_Some in E. destruct E as (A & _ & B & C).
    change (minLen standalonePattern) with 4 in B. lia.
  - eexists; reflexivity.
Qed.

Lemma alphanumLoop_returns : forall fuel combined lastIndex,
  List.length combined - lastIndex < fuel ->
  exists r, alphanumLoop fuel combined lastIndex = Returns r.
Proof.
  induction fuel; intros combined lastIndex Hf; [lia|].
  simpl. destruct (exec fl_none combined alphanumPattern lastIndex) as [[i m]|] eqn:E.
  - destruct (_ && _); [eexists; reflexivity|].
    apply IHfuel. apply exec_Some in E. destruct E as (A & _ & B & C).
    change (minLen alphanumPattern) with 6 in B. lia.
  - eexists; reflexivity.
Qed.

(** More fuel does not change a result. *)
Lemma standaloneLoop_more : forall fuel k combined lastIndex candidates l,
  standaloneLoop fuel combined lastIndex candidates = Returns l ->
  standaloneLoop (fuel + k) combined lastIndex candidates = Returns l.
Proof.
  induction fuel; intros k combined lastIndex candidates l H; simpl in *; [discriminate|].
  destruct (exec fl_m combined standalonePattern lastIndex) as [[i m]|]; [|exact H].
  destruct (group1 combined m); [|discriminate]. apply IHfuel. exact H.
Qed.

Lemma alphanumLoop_more : forall fuel k combined lastIndex r,
  alphanumLoop fuel combined lastIndex = Returns r ->
  alphanumLoop (fuel + k) combined lastIndex = Returns r.
Proof.
  induction fuel; intros k combined lastIndex r H; simpl in *; [discriminate|].
  destruct (exec fl_none combined alphanumPattern lastIndex) as [[i m]|]; [|exact H].
  destruct (_ && _); [exact H|]. apply IHfuel. exact H.
Qed.

Lemma extractWith_more fuel k text subject r :
  extractWith fuel text subject = Returns r ->
  extractWith (fuel + k) text subject = Returns r.
Proof.
  unfold extractWith. destruct (explicitLoop _ _); [auto|].
  destruct (standaloneLoop fuel _ 0 []) as [l| |] eqn:E; try discriminate.
  rewrite (standaloneLoop_more _ k _ _ _ _ E).
  destruct l; [|auto]. destruct (test _ _ _); [|auto].
  apply alphanumLoop_more.
Qed.

(** C10.  For every body text and subject, empty ones included,
    [extractVerificationCode] returns: it yields a code or none, never
    the thrown fault of a property read on an absent group and never
    an exhausted loop, and any larger loop budget gives the same
    result. *)
Theorem C10_extract_total : forall text subject,
  exists r, extractVerificationCode text subject = Returns r
            /\ forall k, extractWith (S (List.length (combine text subject)) + k)
                                     text subject = Returns r.
Proof.
  intros text subject.
  assert (H : exists r, extractVerificationCode text subject = Returns r).
  { unfold extractVerificationCode, extractWith.
    destruct (explicitLoop _ _); [eexists; reflexivity|].
    destruct (standaloneLoop_returns (S (List.length (combine text subject)))
                (combine text subject) 0 []) as [l E]; [lia|].
    rewrite E. destruct l; [|eexists; reflexivity].
    destruct (test _ _ _); [|eexists; reflexivity].
    apply alphanumLoop_returns. lia. }
  destruct H as [r H]. exists r. split; [exact H|].
  intros k. apply extractWith_more. exact H.
Qed.

(** The loop over the explicit patterns stops at the first pattern
    that matches. *)
Lemma explicitLoop_first : forall combined patterns k pattern i m,
  (forall p, In p patterns -> setsCap p = true) ->
  nth_error patterns k = Some pattern ->
  (forall k' p', k' < k -> nth_error patterns k' = Some p' ->
                 exec fl_i combined p' 0 = None) ->
  exec fl_i combined pattern 0 = Some (i, m) ->
  exists v, group1 combined m = Some v /\ v <> [] /\
            explicitLoop combined patterns = Some v.
Proof.
  intros combined patterns. induction patterns as [|p rest IH];
    intros k pattern i m Hall Hk Hbefore Hm.
  - destruct k; discriminate.
  - destruct k as [|k]; simpl in Hk.
    + inversion Hk; subst p. simpl. rewrite Hm.
      destruct (exec_group1 fl_i combined pattern 0 i m (Hall _ (or_introl eq_refl)) Hm)
        as (a & b & _ & _ & _ & G & Hne).
      rewrite G. exists (slice combined a b). repeat split; auto.
      destruct (slice combined a b); [congruence | reflexivity].
    + simpl. rewrite (Hbefore 0 p) by (simpl; auto; lia).
      apply (IH k pattern i m); auto.
      * intros q Hq. apply Hall. right; exact Hq.
      * intros k' p' Hlt Hn. apply (Hbefore (S k') p'); [lia | exact Hn].
Qed.

(** C2.  When one of the three explicit-callout templates matches the
    combined text, [extractVerificationCode] returns group 1 of the
    first template that matches, a non-empty string, and the loops of
    the later tiers are not run: the result is the same with no loop
    budget at all.  On the text of the specification it returns
    482913. *)
Theorem C2_explicit_callout_first :
  (forall text subject k pattern i m,
     nth_error explicitPatterns k = Some pattern ->
     (forall k' p', k' < k -> nth_error explicitPatterns k' = Some p' ->
                    exec fl_i (combine text subject) p' 0 = None) ->
     exec fl_i (combine text subject) pattern 0 = Some (i, m) ->
     exists v, group1 (combine text subject) m = Some v /\ v <> [] /\
               extractVerificationCode text subject = Returns (Some v) /\
               extractWith 0 text subject = Returns (Some v))
  /\ extractVerificationCode
       (js "Your verification code is: 482913. Meeting scheduled for 2024.") []
     = Returns (Some (js "482913")).
Proof.
  split; [|vm_compute; reflexivity].
  intros text subject k pattern i m Hk Hbefore Hm.
  destruct (explicitLoop_first (combine text subject) explicitPatterns k pattern i m
              explicitPatterns_setsCap Hk Hbefore Hm) as (v & G & Hne & E).
  exists v. unfold extractVerificationCode, extractWith. rewrite E. auto.
Qed.

Lemma C2_explicit_callout_first_witness :
  exists v,
    group1 (combine (js "Your verification code is: 482913. Meeting scheduled for 2024.") [])
           {| pos := 34; cap := Some (28, 34) |} = Some v /\ v <> [] /\
    extractVerificationCode
      (js "Your verification code is: 482913. Meeting scheduled for 2024.") []
    = Returns (Some v) /\
    extractWith 0 (js "Your verification code is: 482913. Meeting scheduled for 2024.") []
    = Returns (Some v).
Proof.
  apply (proj1 C2_explicit_callout_first
               (js "Your verification code is: 482913. Meeting scheduled for 2024.") []
               0 explicitPattern1 6 {| pos := 34; cap := Some (28, 34) |}).
  - reflexivity.
  - intros k' p' Hlt. lia.
  - vm_compute. reflexivity.
Defined.

(* ================================================================== *)
(** * What the small patterns test                                      *)
(* ================================================================== *)

Lemma nonempty_app {A : Type} (a b : list A) :
  nonempty (a ++ b) = nonempty a || nonempty b.
Proof. destruct a; reflexivity. Qed.

Lemma existsb_seq_shift (f : nat -> bool) : forall n a,
  existsb f (seq (S a) n) = existsb (fun i => f (S i)) (seq a n).
Proof.
  induction n; intros a; simpl; [reflexivity|]. rewrite IHn. reflexivity.
Qed.

Lemma existsb_swap {A B : Type} (f : A -> B -> bool) (la : list A) (lb : list B) :
  existsb (fun a => existsb (f a) lb) la = existsb (fun b => existsb (fun a => f a b) la) lb.
Proof.
  apply eq_true_iff_eq. rewrite !existsb_exists. split.
  - intros (a & Ha & H). apply existsb_exists in H. destruct H as (b & Hb & H).
    exists b. split; [exact Hb|]. apply existsb_exists. eauto.
  - intros (b & Hb & H). apply existsb_exists in H. destruct H as (a & Ha & H).
    exists a. split; [exact Ha|]. apply existsb_exists. eauto.
Qed.

Lemma existsb_map_comp {A B : Type} (f : B -> bool) (g : A -> B) (l : list A) :
  existsb f (List.map g l) = existsb (fun a => f (g a)) l.
Proof.
  induction l; simpl; [reflexivity|]. rewrite IHl. reflexivity.
Qed.

Lemma existsb_ext_in {A : Type} (f g : A -> bool) (l : list A) :
  (forall a, In a l -> f a = g a) -> existsb f l = existsb g l.
Proof.
  induction l; simpl; intros H; [reflexivity|].
  rewrite H by (left; reflexivity). rewrite IHl; [reflexivity|].
  intros; apply H; right; assumption.
Qed.

Lemma startsWithBy_ext (f g : jschar -> jschar -> bool) :
  (forall a c, f a c = g a c) ->
  forall w s, startsWithBy f w s = startsWithBy g w s.
Proof.
  intros E. induction w as [|a w IH]; intros [|c s]; simpl; try reflexivity.
  rewrite E, IH. reflexivity.
Qed.

Lemma containsBy_ext (f g : jschar -> jschar -> bool) :
  (forall a c, f a c = g a c) ->
  forall w s, containsBy f w s = containsBy g w s.
Proof.
  intros E w. induction s as [|c s IH]; simpl.
  - rewrite (startsWithBy_ext f g E). reflexivity.
  - rewrite (startsWithBy_ext f g E), IH. reflexivity.
Qed.

(** An occurrence somewhere is an occurrence at some offset. *)
Lemma containsBy_offsets eqc w : forall s,
  containsBy eqc w s
  = existsb (fun i => startsWithBy eqc w (skipn i s)) (seq 0 (S (List.length s))).
Proof.
  induction s as [|c s IH].
  - simpl. rewrite !orb_false_r. reflexivity.
  - cbn [containsBy List.length]. rewrite IH.
    change (seq 0 (S (S (List.length s)))) with (0 :: seq 1 (S (List.length s))).
    cbn [existsb]. rewrite existsb_seq_shift. reflexivity.
Qed.

Lemma hasTwoDecimals_offsets : forall s,
  hasTwoDecimals s
  = existsb (fun i => dotTwoDigits (skipn i s)) (seq 0 (S (List.length s))).
Proof.
  induction s as [|c s IH].
  - reflexivity.
  - cbn [hasTwoDecimals List.length]. rewrite IH.
    change (seq 0 (S (S (List.length s)))) with (0 :: seq 1 (S (List.length s))).
    cbn [existsb]. rewrite existsb_seq_shift. reflexivity.
Qed.

(** Upper-casing and lower-casing identify the same characters. *)
Lemma upper_eqI a c : (toUpper a =? toUpper c)%N = eqI a c.
Proof.
  unfold eqI, toUpper, toLower, isLower, isUpper.
  apply eq_true_iff_eq. rewrite !N.eqb_eq.
  destruct (N.leb_spec 97 a), (N.leb_spec a 122), (N.leb_spec 97 c), (N.leb_spec c 122),
           (N.leb_spec 65 a), (N.leb_spec a 90), (N.leb_spec 65 c), (N.leb_spec c 90);
    simpl; lia.
Qed.

Section SmallPatterns.

Variable fl : flags.
Variable inp : jsstring.

Lemma skipn_charAt : forall p,
  skipn p inp = match charAt inp p with
                | Some c => c :: skipn (S p) inp
                | None => []
                end.
Proof.
  unfold charAt. induction inp as [|c s IH]; intros [|p]; simpl; try reflexivity.
  apply IH.
Qed.

(** [test] asks for a match at some offset. *)
Lemma exec_from_existsb r : forall k i,
  match exec_from fl inp r k i with Some _ => true | None => false end
  = existsb (fun j => nonempty (rmatch fl inp r (start_at j))) (seq i k).
Proof.
  induction k; intros i; simpl; [reflexivity|].
  destruct (rmatch fl inp r (start_at i)); simpl; [apply IHk | reflexivity].
Qed.

Lemma test_offsets r :
  test fl inp r
  = existsb (fun j => nonempty (rmatch fl inp r (start_at j))) (seq 0 (S (List.length inp))).
Proof.
  unfold test, exec. rewrite Nat.sub_0_r. apply exec_from_existsb.
Qed.

Lemma rmatch_Chr_nonempty a st :
  nonempty (rmatch fl inp (Chr a) st)
  = startsWithBy (chr_ok fl) [a] (skipn (pos st) inp).
Proof.
  simpl rmatch. rewrite (skipn_charAt (pos st)).
  destruct (charAt inp (pos st)); simpl; [|reflexivity].
  rewrite andb_true_r. destruct (chr_ok fl a j); reflexivity.
Qed.

(** A literal matches where the input continues with it. *)
Lemma rmatch_str_nonempty : forall w st,
  w <> [] ->
  nonempty (rmatch fl inp (str_chars w) st)
  = startsWithBy (chr_ok fl) w (skipn (pos st) inp).
Proof.
  induction w as [|a w IH]; intros st Hne; [congruence|].
  destruct w as [|b w].
  - apply rmatch_Chr_nonempty.
  - change (str_chars (a :: b :: w)) with (Cat (Chr a) (str_chars (b :: w))).
    cbn [rmatch]. rewrite (skipn_charAt (pos st)).
    destruct (charAt inp (pos st)) as [c|]; [|reflexivity].
    cbn [startsWithBy]. destruct (chr_ok fl a c); [|reflexivity].
    cbn [flat_map]. rewrite app_nil_r, IH by discriminate.
    cbn [adv pos andb]. rewrite Nat.add_1_r. reflexivity.
Qed.

Lemma rmatch_alts_nonempty : forall rs st,
  rs <> [] ->
  nonempty (rmatch fl inp (alts rs) st)
  = existsb (fun r => nonempty (rmatch fl inp r st)) rs.
Proof.
  induction rs as [|r rs IH]; intros st Hne; [congruence|].
  destruct rs as [|r' rs].
  - simpl. rewrite orb_false_r. reflexivity.
  - change (alts (r :: r' :: rs)) with (Alt r (alts (r' :: rs))).
    cbn [rmatch]. rewrite nonempty_app, IH by discriminate. reflexivity.
Qed.

(** An alternation of literals tests whether one of them occurs. *)
Lemma test_alts_strs (ws : list jsstring) :
  ws <> [] -> (forall w, In w ws -> w <> []) ->
  test fl inp (alts (List.map str_chars ws))
  = existsb (fun w => containsBy (chr_ok fl) w inp) ws.
Proof.
  intros Hne Hall. rewrite test_offsets.
  erewrite existsb_ext_in.
  2:{ intros i _. rewrite rmatch_alts_nonempty by (destruct ws; [congruence|discriminate]).
      rewrite existsb_map_comp. reflexivity. }
  rewrite existsb_swap. apply existsb_ext_in. intros w Hw.
  rewrite containsBy_offsets. apply existsb_ext_in. intros i _.
  apply rmatch_str_nonempty. auto.
Qed.

End SmallPatterns.

Lemma test_codeContext context :
  test fl_i context codeContextPattern = hasKeyword context.
Proof.
  change codeContextPattern with (alts (List.map str_chars keywords)).
  rewrite test_alts_strs.
  - unfold hasKeyword. apply existsb_ext_in. intros w _.
    apply containsBy_ext. intros a c. apply upper_eqI.
  - discriminate.
  - intros w Hw. repeat (destruct Hw as [<-|Hw]; [discriminate|]). contradiction.
Qed.

Lemma test_currency s :
  test fl_none s currencyPattern = hasCurrency s.
Proof.
  change currencyPattern with (alts (List.map str_chars currencyMarks)).
  rewrite test_alts_strs.
  - reflexivity.
  - discriminate.
  - intros w Hw. repeat (destruct Hw as [<-|Hw]; [discriminate|]). contradiction.
Qed.

Lemma rmatch_decimal_nonempty s i :
  nonempty (rmatch fl_none s decimalPattern (start_at i)) = dotTwoDigits (skipn i s).
Proof.
  change decimalPattern with (Cat (Chr 46%N) (Rep [CDigit] 2 (Some 2))).
  cbn [rmatch start_at pos]. rewrite (skipn_charAt s i).
  destruct (charAt s i) as [a|]; [|reflexivity].
  change (chr_ok fl_none 46%N a) with (46 =? a)%N.
  unfold dotTwoDigits. rewrite (N.eqb_sym a 46).
  destruct (46 =? a)%N.
  - cbn [flat_map rmatch adv pos]. rewrite app_nil_r, Nat.add_1_r.
    change (pos (start_at i)) with i.
    destruct (skipn (S i) s) as [|b [|c rest]]; [reflexivity| |].
    + simpl. unfold cset_has. simpl. rewrite !orb_false_r.
      destruct (isDigit b); reflexivity.
    + simpl. unfold cset_has. simpl. rewrite !orb_false_r.
      destruct (isDigit b); [|reflexivity]. destruct (isDigit c); [|reflexivity].
      destruct rest; reflexivity.
  - cbn [flat_map nonempty andb].
    destruct (skipn (S i) s) as [|b [|c rest]]; reflexivity.
Qed.

Lemma test_decimal s :
  test fl_none s decimalPattern = hasTwoDecimals s.
Proof.
  rewrite test_offsets, hasTwoDecimals_offsets.
  apply existsb_ext_in. intros i _. apply rmatch_decimal_nonempty.
Qed.

(** [indexOf] finds the first occurrence. *)
Lemma indexOf_from_first needle : forall hay i z,
  i <= List.length hay ->
  startsWith needle (skipn i hay) = true ->
  (forall j, j < i -> startsWith needle (skipn j hay) = false) ->
  indexOf_from needle hay z = (z + Z.of_nat i)%Z.
Proof.
  induction hay as [|c hay IH]; intros i z Hle Hs Hfirst.
  - assert (i = 0) by (simpl in Hle; lia). subst.
    cbn [skipn] in Hs. cbn [indexOf_from]. rewrite Hs. lia.
  - destruct i as [|i].
    + cbn [skipn] in Hs. cbn [indexOf_from]. rewrite Hs. lia.
    + pose proof (Hfirst 0 ltac:(lia)) as H0. cbn [skipn] in H0.
      cbn [indexOf_from]. rewrite H0.
      rewrite (IH i (z + 1)%Z).
      * lia.
      * simpl in Hle. lia.
      * exact Hs.
      * intros j Hj. apply (Hfirst (S j)). lia.
Qed.

Lemma indexOf_first numStr context i :
  firstOccurrence numStr context i -> indexOf context numStr = Z.of_nat i.
Proof.
  intros [[Hle Hs] Hfirst]. unfold indexOf.
  rewrite (indexOf_from_first numStr context i 0); auto.
  intros j Hj. destruct (startsWith numStr (skipn j context)) eqn:E; [|reflexivity].
  exfalso. apply (Hfirst j Hj). split; [lia | exact E].
Qed.

Lemma startsWith_length needle : forall hay,
  startsWith needle hay = true -> List.length needle <= List.length hay.
Proof.
  unfold startsWith. induction needle as [|a n IH]; intros [|b h] H; simpl in *;
    try lia; try discriminate.
  apply andb_true_iff in H. destruct H as [_ H]. apply IH in H. lia.
Qed.

Lemma isLikelyCode_year numStr context :
  yearLike numStr = true -> isLikelyCode numStr context = hasKeyword context.
Proof.
  unfold yearLike, isLikelyCode, geNum, leNum. intros H.
  apply andb_true_iff in H. destruct H as [H4 Hv]. rewrite H4.
  destruct (parseInt numStr) as [v|]; [|discriminate].
  apply andb_true_iff in Hv. destruct Hv as [-> ->]. simpl.
  apply test_codeContext.
Qed.

Lemma isLikelyCode_amount numStr context i :
  yearLike numStr = false ->
  firstOccurrence numStr context i ->
  0 < i ->
  isLikelyCode numStr context
  = negb (hasCurrency (fiveBefore context i)
          || hasTwoDecimals (fiveAfter context (i + List.length numStr))).
Proof.
  intros Hy Hfirst Hpos. pose proof Hfirst as [[Hle Hs] _].
  apply startsWith_length in Hs. rewrite length_skipn in Hs.
  unfold isLikelyCode.
  replace (Nat.eqb (List.length numStr) 4 && geNum (parseInt numStr) 1900
           && leNum (parseInt numStr) 2099) with false.
  2:{ unfold yearLike in Hy. unfold geNum, leNum.
      destruct (Nat.eqb (List.length numStr) 4); [|reflexivity].
      destruct (parseInt numStr); [|reflexivity]. simpl in *. congruence. }
  rewrite (indexOf_first numStr context i Hfirst).
  replace (0 <? Z.of_nat i)%Z with true by (symmetry; apply Z.ltb_lt; lia).
  rewrite test_currency, test_decimal.
  replace (substring context (Z.max 0 (Z.of_nat i - 5)) (Z.of_nat i))
    with (fiveBefore context i).
  2:{ unfold fiveBefore, slice, substring, clamp.
      replace (Z.max 0 (Z.of_nat i - 5) <? 0)%Z with false by (symmetry; apply Z.ltb_ge; lia).
      replace (Z.of_nat i <? 0)%Z with false by (symmetry; apply Z.ltb_ge; lia).
      rewrite Nat2Z.id.
      replace (Z.to_nat (Z.max 0 (Z.of_nat i - 5))) with (i - 5) by lia.
      replace (Nat.min (Nat.min (i - 5) (List.length context)) (Nat.min i (List.length context)))
        with (i - 5) by lia.
      replace (Nat.max (Nat.min (i - 5) (List.length context)) (Nat.min i (List.length context)))
        with i by lia.
      reflexivity. }
  replace (substring context (Z.of_nat i + Z.of_nat (List.length numStr))
             (Z.of_nat i + Z.of_nat (List.length numStr) + 5))
    with (fiveAfter context (i + List.length numStr)).
  2:{ unfold fiveAfter, slice, substring, clamp.
      set (n := List.length numStr) in *. set (L := List.length context) in *.
      replace (Z.of_nat i + Z.of_nat n <? 0)%Z with false by (symmetry; apply Z.ltb_ge; lia).
      replace (Z.of_nat i + Z.of_nat n + 5 <? 0)%Z with false by (symmetry; apply Z.ltb_ge; lia).
      replace (Z.to_nat (Z.of_nat i + Z.of_nat n)) with (i + n) by lia.
      replace (Z.to_nat (Z.of_nat i + Z.of_nat n + 5)) with (i + n + 5) by lia.
      replace (Nat.min (Nat.min (i + n) L) (Nat.min (i + n + 5) L)) with (i + n) by lia.
      replace (Nat.max (Nat.min (i + n) L) (Nat.min (i + n + 5) L))
        with (Nat.min (i + n + 5) L) by lia.
      replace (i + n + 5 - (i + n)) with 5 by lia.
      destruct (Nat.le_gt_cases (i + n + 5) L) as [Hc|Hc].
      - replace (Nat.min (i + n + 5) L - (i + n)) with 5 by lia. reflexivity.
      - replace (Nat.min (i + n + 5) L - (i + n)) with (L - (i + n)) by lia.
        rewrite !firstn_all2; auto; rewrite length_skipn; fold L; lia. }
  destruct (_ || _); reflexivity.
Qed.

(* ================================================================== *)
(** * The noise filter and the choice among the survivors               *)
(* ================================================================== *)

(** C3.  A four-digit candidate with a value from 1900 to 2099 passes
    [isLikelyCode] exactly when the combined text contains one of the
    keywords code, verify, confirm, otp, pin (in any case, anywhere);
    without a keyword it is rejected.  So "Reminder: event in 2025"
    yields none and "Your code 2024 confirms the order" yields 2024. *)
Theorem C3_year_filter :
  (forall numStr context v,
     List.length numStr = 4 ->
     parseInt numStr = Some v ->
     (1900 <= v <= 2099)%Z ->
     isLikelyCode numStr context = hasKeyword context)
  /\ extractVerificationCode (js "Reminder: event in 2025") [] = Returns None
  /\ extractVerificationCode (js "Your code 2024 confirms the order") []
     = Returns (Some (js "2024")).
Proof.
  split; [|split; vm_compute; reflexivity].
  intros numStr context v H4 Hv [Hlo Hhi]. apply isLikelyCode_year.
  unfold yearLike. rewrite H4, Hv. simpl.
  apply andb_true_iff. split; apply Z.leb_le; assumption.
Qed.

Lemma C3_year_filter_witness :
  isLikelyCode (js "2025") (combine (js "Reminder: event in 2025") [])
  = hasKeyword (combine (js "Reminder: event in 2025") []).
Proof.
  apply (proj1 C3_year_filter (js "2025") (combine (js "Reminder: event in 2025") [])
               2025%Z).
  - reflexivity.
  - reflexivity.
  - lia.
Defined.

Lemma startsWith_firstn : forall k (s : jsstring), startsWith (firstn k s) s = true.
Proof.
  unfold startsWith. induction k; intros [|c s]; simpl; try reflexivity.
  rewrite N.eqb_refl, IHk. reflexivity.
Qed.

(** C4.  The claim rejects every candidate that has a currency mark
    within the five characters before its own offset or a dot and two
    digits within the five characters after it, and the comment in
    [isLikelyCode] says the same ("Filter amounts (preceded by $ or
    followed by .00)"); the code does not.  [isLikelyCode] is given
    the digits and the text but not the offset, and looks the digits up
    with [indexOf]: in " a4599b costs $ 4599 today" the scan reports
    the run at offsets 16-20, behind a dollar sign, the test is made at
    offset 2, and 4599 is returned.  The guard [idx > 0] skips the
    test for digits the text starts with: with the subject
    "4599.00 USD due", 4599 is returned.  A four-digit value from 1900
    to 2099 is decided by the keyword rule before the amount test is
    reached: "confirm payment of $ 2024 now" gives 2024. *)
Theorem C4_amount_judged_at_first_occurrence :
  let shadowed := combine (js "a4599b costs $ 4599 today") [] in
  let leading := combine (js "invoice") (js "4599.00 USD due") in
  let yearly := combine (js "confirm payment of $ 2024 now") [] in
  (candidateAt shadowed 16 20
   /\ slice shadowed 16 20 = js "4599"
   /\ looksLikeAmountAt shadowed 16 20 = true
   /\ indexOf shadowed (js "4599") = 2%Z
   /\ isLikelyCode (js "4599") shadowed = true
   /\ extractVerificationCode (js "a4599b costs $ 4599 today") []
      = Returns (Some (js "4599")))
  /\ (candidateAt leading 0 4
      /\ slice leading 0 4 = js "4599"
      /\ looksLikeAmountAt leading 0 4 = true
      /\ indexOf leading (js "4599") = 0%Z
      /\ extractVerificationCode (js "invoice") (js "4599.00 USD due")
         = Returns (Some (js "4599")))
  /\ (candidateAt yearly 22 26
      /\ slice yearly 22 26 = js "2024"
      /\ looksLikeAmountAt yearly 22 26 = true
      /\ extractVerificationCode (js "confirm payment of $ 2024 now") []
         = Returns (Some (js "2024"))).
Proof.
  cbv zeta. split; [|split].
  - split.
    + exists 0, 15, {| pos := 21; cap := Some (16, 20) |}.
      split; [constructor|]. split; vm_compute; reflexivity.
    + repeat split; vm_compute; reflexivity.
  - split.
    + exists 0, 0, {| pos := 5; cap := Some (0, 4) |}.
      split; [constructor|]. split; vm_compute; reflexivity.
    + repeat split; vm_compute; reflexivity.
  - split.
    + exists 0, 21, {| pos := 27; cap := Some (22, 26) |}.
      split; [constructor|]. split; vm_compute; reflexivity.
    + repeat split; vm_compute; reflexivity.
Qed.

(** What [preferred] does: the first six-digit candidate, else the
    first four-digit one, else the first candidate. *)
Lemma preferred_rule candidates :
  preferred candidates
  = match find (fun c => Nat.eqb (List.length c) 6) candidates with
    | Some c => Some c
    | None => match find (fun c => Nat.eqb (List.length c) 4) candidates with
              | Some c => Some c
              | None => hd_error candidates
              end
    end.
Proof. reflexivity. Qed.

(** C1.  On the text "12345", newline, "12345678" no explicit callout
    matches and the survivors are 12345 and 12345678, in that order;
    the claim chooses the eight-digit survivor, but
    [extractVerificationCode] returns 12345: after the lengths 6 and 4
    the code takes the first survivor and never looks for one of
    length 8. *)
Theorem C1_no_eight_digit_preference :
  let text := js "12345" ++ [10%N] ++ js "12345678" in
  explicitLoop (combine text []) explicitPatterns = None
  /\ standaloneLoop (S (List.length (combine text []))) (combine text []) 0 []
     = Returns [js "12345"; js "12345678"]
  /\ extractVerificationCode text [] = Returns (Some (js "12345"))
  /\ extractVerificationCode (js "ref 12345678 and 204913 ok") []
     = Returns (Some (js "204913")).
Proof.
  repeat split; vm_compute; reflexivity.
Qed.

(* ================================================================== *)
(** * The scan for alphanumeric tokens                                  *)
(* ================================================================== *)

Lemma cset_upperAlnum c : cset_has fl_none upperAlnum c = upperOrDigit c.
Proof.
  unfold cset_has, upperAlnum, upperOrDigit, isUpper, isDigit. simpl.
  rewrite !orb_false_r. reflexivity.
Qed.

Lemma upperOrDigit_word c : upperOrDigit c = true -> isWordChar c = true.
Proof.
  unfold upperOrDigit, isWordChar. intros H.
  apply orb_true_iff in H. destruct H as [-> | ->]; simpl;
    rewrite ?orb_true_r; reflexivity.
Qed.

Lemma forallb_firstn_nth {A : Type} (f : A -> bool) : forall n (s : list A) k,
  forallb f (firstn n s) = true -> k < n -> k < List.length s ->
  exists c, nth_error s k = Some c /\ f c = true.
Proof.
  induction n; intros s k H Hk Hl; [lia|].
  destruct s as [|a s]; [simpl in Hl; lia|].
  simpl in H. apply andb_true_iff in H. destruct H as [Ha H].
  destruct k as [|k].
  - exists a. auto.
  - simpl. apply IHn; auto; simpl in Hl; lia.
Qed.

Lemma forallb_same {A : Type} (f g : A -> bool) :
  (forall a, f a = g a) -> forall l, forallb f l = forallb g l.
Proof.
  intros E. induction l; simpl; [reflexivity|]. rewrite E, IHl. reflexivity.
Qed.

Lemma slice_firstn (s : jsstring) i n : slice s i (i + n) = firstn n (skipn i s).
Proof. unfold slice. replace (i + n - i) with n by lia. reflexivity. Qed.

Section RunFacts.

Variable fl : flags.
Variable cs : cset.

Lemma run_forall : forall s hi,
  forallb (cset_has fl cs) (firstn (run fl cs hi s) s) = true.
Proof.
  induction s as [|c s IH]; intros hi; [reflexivity|].
  simpl. destruct hi as [[|h]|]; [reflexivity| |].
  - destruct (cset_has fl cs c) eqn:E; [|reflexivity].
    simpl. rewrite E, IH. reflexivity.
  - destruct (cset_has fl cs c) eqn:E; [|reflexivity].
    simpl. rewrite E, IH. reflexivity.
Qed.

Lemma run_bound : forall s h, run fl cs (Some h) s <= h.
Proof.
  induction s as [|c s IH]; intros h; simpl; [lia|].
  destruct h as [|h]; [lia|].
  destruct (cset_has fl cs c); [specialize (IH h)|]; lia.
Qed.

(** The run is the only length that is within the bound, covers class
    members only, and stops at the bound, at the end, or before a
    character outside the class. *)
Lemma run_unique : forall s h n,
  n <= h -> n <= List.length s ->
  forallb (cset_has fl cs) (firstn n s) = true ->
  (n = h \/ match nth_error s n with
            | Some c => cset_has fl cs c = false
            | None => True
            end) ->
  run fl cs (Some h) s = n.
Proof.
  induction s as [|c s IH]; intros h n Hh Hl Hall Hstop.
  - simpl in Hl. simpl. lia.
  - destruct h as [|h]; [simpl; lia|].
    destruct n as [|n].
    + destruct Hstop as [Hstop|Hstop]; [lia|]. simpl in Hstop. simpl.
      rewrite Hstop. reflexivity.
    + simpl in Hall. apply andb_true_iff in Hall. destruct Hall as [Hc Hall].
      simpl. rewrite Hc. f_equal. apply IH; auto; simpl in Hl; try lia.
      destruct Hstop as [Hstop|Hstop]; [left; lia | right; exact Hstop].
Qed.

End RunFacts.

Section TokenScan.

Variable inp : jsstring.

Lemma wordAt_skipn i k :
  wordAt inp (i + k)
  = match nth_error (skipn i inp) k with Some c => isWordChar c | None => false end.
Proof. unfold wordAt, charAt. rewrite nth_error_skipn. reflexivity. Qed.

(** Inside a stretch of capitals and digits every offset has a word
    character. *)
Lemma stretch_wordAt i n k :
  forallb upperOrDigit (firstn n (skipn i inp)) = true ->
  k < n -> i + n <= List.length inp ->
  wordAt inp (i + k) = true.
Proof.
  intros H Hk Hl. rewrite wordAt_skipn.
  destruct (forallb_firstn_nth upperOrDigit n (skipn i inp) k H Hk) as (c & -> & Hc).
  - rewrite length_skipn. lia.
  - apply upperOrDigit_word. exact Hc.
Qed.

Lemma stretch_wordBefore i n k :
  forallb upperOrDigit (firstn n (skipn i inp)) = true ->
  0 < k -> k <= n -> i + n <= List.length inp ->
  wordBefore inp (i + k) = true.
Proof.
  intros H H0 Hk Hl. destruct k as [|k]; [lia|].
  replace (i + S k) with (S (i + k)) by lia. simpl.
  apply (stretch_wordAt i n k); auto; lia.
Qed.

Lemma token_parts i n :
  tokenAt upperOrDigit inp i n = true ->
  6 <= n /\ n <= 8 /\ i + n <= List.length inp /\
  forallb upperOrDigit (firstn n (skipn i inp)) = true /\
  wordBefore inp i = false /\ wordAt inp (i + n) = false.
Proof.
  unfold tokenAt. intros H.
  repeat (apply andb_true_iff in H; destruct H as [H ?]).
  rewrite slice_firstn in *.
  repeat match goal with
         | X : negb _ = true |- _ => apply negb_true_iff in X
         | X : Nat.leb _ _ = true |- _ => apply Nat.leb_le in X
         end.
  auto 10.
Qed.

(** The length of a token is the run of capitals and digits at its
    offset. *)
Lemma token_run i n :
  tokenAt upperOrDigit inp i n = true ->
  run fl_none upperAlnum (Some 8) (skipn i inp) = n.
Proof.
  intros H. apply token_parts in H. destruct H as (H6 & H8 & Hl & Hall & Hb & He).
  apply run_unique; auto.
  - rewrite length_skipn. lia.
  - rewrite (forallb_same _ _ cset_upperAlnum). exact Hall.
  - right. rewrite wordAt_skipn in He.
    destruct (nth_error (skipn i inp) n) as [c|]; [|exact I].
    rewrite cset_upperAlnum. destruct (upperOrDigit c) eqn:E; [|reflexivity].
    apply upperOrDigit_word in E. congruence.
Qed.

End TokenScan.

Section TokenMatch.

Variable inp : jsstring.

Lemma token_of_parts i n :
  6 <= n -> n <= 8 -> i + n <= List.length inp ->
  forallb upperOrDigit (firstn n (skipn i inp)) = true ->
  wordBefore inp i = false -> wordAt inp (i + n) = false ->
  tokenAt upperOrDigit inp i n = true.
Proof.
  intros H6 H8 Hl Hall Hb He. unfold tokenAt.
  rewrite slice_firstn, Hall, Hb, He.
  rewrite (proj2 (Nat.leb_le 6 n) H6), (proj2 (Nat.leb_le n 8) H8),
          (proj2 (Nat.leb_le (i + n) _) Hl).
  reflexivity.
Qed.

(** A match of the scanning pattern at [i] is a token at [i]. *)
Lemma alphanum_match_inv i m :
  In m (rmatch fl_none inp alphanumPattern (start_at i)) ->
  exists n, m = tokenState i n /\ tokenAt upperOrDigit inp i n = true.
Proof.
  change alphanumPattern
    with (Cat Wordb (Cat (Grp (Rep upperAlnum 6 (Some 8))) Wordb)).
  cbn [rmatch start_at pos]. intros H.
  destruct (xorb (wordBefore inp i) (wordAt inp i)) eqn:B0; [|contradiction].
  cbn [flat_map] in H. rewrite app_nil_r in H.
  apply in_flat_map in H. destruct H as (mid & Hmid & Hm).
  apply in_map_iff in Hmid. destruct Hmid as (st & <- & Hst).
  apply in_map_iff in Hst. destruct Hst as (j & <- & Hj).
  apply in_rev, in_seq in Hj. cbn [pos adv start_at] in *.
  set (n := run fl_none upperAlnum (Some 8) (skipn i inp)) in *.
  assert (Hall : forallb upperOrDigit (firstn n (skipn i inp)) = true).
  { rewrite <- (forallb_same _ _ cset_upperAlnum). apply run_forall. }
  assert (H8 : n <= 8) by apply run_bound.
  assert (Hl : i + n <= List.length inp).
  { pose proof (run_le fl_none upperAlnum (Some 8) (skipn i inp)) as R.
    rewrite length_skipn in R. fold n in R. lia. }
  destruct (xorb (wordBefore inp (i + j)) (wordAt inp (i + j))) eqn:B1; [|contradiction].
  destruct Hm as [<-|[]].
  assert (Hjn : j = n).
  { destruct (Nat.eq_dec j n) as [|Hne]; [assumption|]. exfalso.
    rewrite (stretch_wordBefore inp i n j) in B1 by (auto; lia).
    rewrite (stretch_wordAt inp i n j) in B1 by (auto; lia).
    discriminate. }
  subst j. exists n. split; [reflexivity|].
  pose proof (stretch_wordAt inp i n 0 Hall ltac:(lia) Hl) as W0.
  rewrite Nat.add_0_r in W0. rewrite W0 in B0.
  rewrite (stretch_wordBefore inp i n n) in B1 by (auto; lia).
  apply token_of_parts; auto; try lia.
  - destruct (wordBefore inp i); [discriminate | reflexivity].
  - destruct (wordAt inp (i + n)); [discriminate | reflexivity].
Qed.

(** A token at [i] is matched by the scanning pattern at [i]. *)
Lemma token_match i n :
  tokenAt upperOrDigit inp i n = true ->
  In (tokenState i n) (rmatch fl_none inp alphanumPattern (start_at i)).
Proof.
  intros T. pose proof (token_run inp i n T) as R.
  apply token_parts in T. destruct T as (H6 & H8 & Hl & Hall & Hb & He).
  change alphanumPattern
    with (Cat Wordb (Cat (Grp (Rep upperAlnum 6 (Some 8))) Wordb)).
  cbn [rmatch start_at pos].
  pose proof (stretch_wordAt inp i n 0 Hall ltac:(lia) Hl) as W0.
  rewrite Nat.add_0_r in W0. rewrite Hb, W0. cbn [xorb flat_map].
  rewrite app_nil_r. apply in_flat_map.
  exists (tokenState i n). split.
  - apply in_map_iff. exists (adv {| pos := i; cap := None |} n). split; [reflexivity|].
    apply in_map_iff. exists n. split; [reflexivity|].
    apply -> in_rev. cbn [pos start_at]. rewrite R. apply in_seq. lia.
  - cbn [tokenState pos].
    rewrite (stretch_wordBefore inp i n n Hall) by lia. rewrite He.
    left. reflexivity.
Qed.

Lemma token_length_unique i n n' :
  tokenAt upperOrDigit inp i n = true ->
  tokenAt upperOrDigit inp i n' = true -> n = n'.
Proof.
  intros T T'. apply token_run in T. apply token_run in T'. congruence.
Qed.

(** Tokens do not overlap. *)
Lemma token_disjoint i0 n0 i n :
  tokenAt upperOrDigit inp i0 n0 = true ->
  tokenAt upperOrDigit inp i n = true ->
  i0 < i -> i0 + n0 <= i.
Proof.
  intros T0 T Hlt.
  apply token_parts in T0. destruct T0 as (_ & _ & Hl & Hall & _ & _).
  apply token_parts in T. destruct T as (_ & _ & _ & _ & Hb & _).
  destruct (Nat.le_gt_cases (i0 + n0) i) as [|Hin]; [assumption|]. exfalso.
  pose proof (stretch_wordBefore inp i0 n0 (i - i0) Hall) as W.
  replace (i0 + (i - i0)) with i in W by lia.
  rewrite W in Hb by lia. discriminate.
Qed.

End TokenMatch.

Lemma existsb_nth_seq {A : Type} (f : A -> bool) : forall s : list A,
  existsb (fun i => match nth_error s i with Some c => f c | None => false end)
          (seq 0 (S (List.length s)))
  = existsb f s.
Proof.
  induction s as [|c s IH]; [reflexivity|].
  change (seq 0 (S (List.length (c :: s)))) with (0 :: seq 1 (S (List.length s))).
  cbn [existsb nth_error]. rewrite existsb_seq_shift. cbn [nth_error].
  rewrite IH. reflexivity.
Qed.

(** A pattern that is one class tests for a member of the class. *)
Lemma test_Cls fl s cs : test fl s (Cls cs) = existsb (cset_has fl cs) s.
Proof.
  rewrite test_offsets. rewrite <- (existsb_nth_seq (cset_has fl cs) s).
  apply existsb_ext_in. intros i _. cbn [rmatch start_at pos]. unfold charAt.
  destruct (nth_error s i) as [c|]; [|reflexivity].
  destruct (cset_has fl cs c); reflexivity.
Qed.

Lemma cset_letter c : cset_has fl_i [CRange (ch "A") (ch "Z")] c = isLetter c.
Proof.
  unfold cset_has, isLetter. cbn [existsb item_has ignoreCase fl_i andb].
  change (ch "A") with 65%N. change (ch "Z") with 90%N.
  rewrite orb_false_r.
  unfold toUpper, toLower, isUpper, isLower.
  destruct (N.leb_spec 97 c), (N.leb_spec c 122), (N.leb_spec 65 c), (N.leb_spec c 90);
    cbn [andb orb];
    repeat match goal with
           | |- context [(?a <=? ?b)%N] => destruct (N.leb_spec a b)
           end; cbn [andb orb]; try reflexivity; exfalso; lia.
Qed.

Lemma cset_digit c : cset_has fl_none [CDigit] c = isDigit c.
Proof.
  unfold cset_has. simpl. rewrite !orb_false_r. reflexivity.
Qed.

Lemma mixed_test s :
  test fl_i s letterPattern && test fl_none s digitPattern = mixed s.
Proof.
  unfold letterPattern, digitPattern, mixed. rewrite !test_Cls.
  f_equal; apply existsb_ext_in; intros c _; [apply cset_letter | apply cset_digit].
Qed.

(** The loop over the tokens returns the first token that has a
    letter and a digit, and none when no token has both. *)
Lemma alphanumLoop_spec inp : forall fuel lastIndex,
  List.length inp - lastIndex < fuel ->
  (forall i n,
      lastIndex <= i ->
      tokenAt upperOrDigit inp i n = true ->
      mixed (slice inp i (i + n)) = true ->
      (forall i' n', lastIndex <= i' -> i' < i ->
                     tokenAt upperOrDigit inp i' n' = true ->
                     mixed (slice inp i' (i' + n')) = false) ->
      alphanumLoop fuel inp lastIndex = Returns (Some (slice inp i (i + n))))
  /\ ((forall i n, lastIndex <= i -> tokenAt upperOrDigit inp i n = true ->
                   mixed (slice inp i (i + n)) = false) ->
      alphanumLoop fuel inp lastIndex = Returns None).
Proof.
  induction fuel; intros lastIndex Hf; [lia|].
  cbn [alphanumLoop].
  destruct (exec fl_none inp alphanumPattern lastIndex) as [[i0 m]|] eqn:E.
  - pose proof E as E'. unfold exec in E'. apply exec_from_Some in E'.
    destruct E' as (A & B & Hhd & Hnone).
    assert (Hin : In m (rmatch fl_none inp alphanumPattern (start_at i0))).
    { destruct (rmatch fl_none inp alphanumPattern (start_at i0)); simpl in Hhd;
        [discriminate|]. inversion Hhd; subst; left; reflexivity. }
    destruct (alphanum_match_inv inp i0 m Hin) as (n0 & -> & T0).
    cbn [group1 tokenState cap pos]. rewrite mixed_test.
    assert (Hno : forall j n, lastIndex <= j -> j < i0 ->
                              tokenAt upperOrDigit inp j n = false).
    { intros j n J1 J2. destruct (tokenAt upperOrDigit inp j n) eqn:T; [|reflexivity].
      apply token_match in T. rewrite (Hnone j J1 J2) in T. contradiction. }
    pose proof (token_parts inp i0 n0 T0) as (H6 & _ & Hl & _).
    destruct (IHfuel (i0 + n0)) as [IH1 IH2]; [lia|].
    split.
    + intros i n Hi T Hm Hmin.
      destruct (lt_eq_lt_dec i i0) as [[Hlt|Heq]|Hgt].
      * rewrite (Hno i n Hi Hlt) in T. discriminate.
      * subst i. rewrite (token_length_unique inp i0 n n0 T T0) in *.
        rewrite Hm. reflexivity.
      * rewrite (Hmin i0 n0 A Hgt T0). apply IH1; auto.
        -- apply (token_disjoint inp i0 n0 i n); auto.
        -- intros i' n' I1 I2. apply Hmin; lia.
    + intros Hall. rewrite (Hall i0 n0 A T0). apply IH2.
      intros i n Hi. apply Hall. lia.
  - split; [|reflexivity].
    intros i n Hi T _ _. exfalso.
    pose proof (token_parts inp i n T) as (_ & _ & Hl & _).
    apply token_match in T. unfold exec in E.
    rewrite (exec_from_None fl_none inp alphanumPattern _ _ E i Hi) in T by lia.
    contradiction.
Qed.

Lemma token_length_range alnum combined i n :
  tokenAt alnum combined i n = true -> 6 <= n <= 8.
Proof.
  unfold tokenAt. intros T.
  repeat (apply andb_true_iff in T; destruct T as [T ?]).
  repeat match goal with
         | X : Nat.leb _ _ = true |- _ => apply Nat.leb_le in X
         end.
  lia.
Qed.

(** C5, as stated, fails when "alphanumeric" is read as letters of
    either case and digits: in "Your code abc123 or XYZ789 thanks" no
    earlier tier finds anything, a keyword is present, the first
    word-bounded six-character token with a letter and a digit is
    abc123 (offset 11), and [extractVerificationCode] returns XYZ789:
    the scanning pattern has no [i] flag and takes capitals and digits
    only. *)
Lemma C5_lower_case_counterexample :
  ~ (forall text subject,
       let combined := combine text subject in
       explicitLoop combined explicitPatterns = None ->
       standaloneLoop (S (List.length combined)) combined 0 [] = Returns [] ->
       hasKeyword combined = true ->
       forall i n,
         firstMixedToken letterOrDigit combined i n ->
         extractVerificationCode text subject
         = Returns (Some (slice combined i (i + n)))).
Proof.
  intros H.
  specialize (H (js "Your code abc123 or XYZ789 thanks") [] eq_refl eq_refl eq_refl 11 6).
  assert (F : firstMixedToken letterOrDigit
                (combine (js "Your code abc123 or XYZ789 thanks") []) 11 6).
  { split; [reflexivity|]. split; [reflexivity|].
    intros i' n' Hlt T.
    assert (Hn : n' = 6 \/ n' = 7 \/ n' = 8).
    { pose proof (token_length_range _ _ _ _ T). lia. }
    do 11 (destruct i' as [|i']; [destruct Hn as [->|[->| ->]]; vm_compute in T;
                                  try discriminate T; reflexivity|]).
    lia. }
  specialize (H F). vm_compute in H. discriminate H.
Qed.

(** C5, amended.  When the explicit callouts and the standalone
    numbers give nothing: without a keyword the result is none; with
    a keyword the result is the first token, 6 to 8 capital letters or
    digits between word boundaries, that has a letter and a digit, and
    none when no such token has both.  When an explicit callout or a
    standalone number gives a result, the tokens are not consulted.
    The text "Use code A1B2C3 to continue" yields A1B2C3 and "Your
    reference is A1B2C3" yields none. *)
Theorem C5_alphanumeric_tier :
  (forall text subject,
     explicitLoop (combine text subject) explicitPatterns = None ->
     standaloneLoop (S (List.length (combine text subject))) (combine text subject) 0 []
     = Returns [] ->
     (hasKeyword (combine text subject) = false ->
      extractVerificationCode text subject = Returns None)
     /\ (hasKeyword (combine text subject) = true ->
         (forall i n,
             firstMixedToken upperOrDigit (combine text subject) i n ->
             extractVerificationCode text subject
             = Returns (Some (slice (combine text subject) i (i + n))))
         /\ ((forall i n,
                 tokenAt upperOrDigit (combine text subject) i n = true ->
                 mixed (slice (combine text subject) i (i + n)) = false) ->
             extractVerificationCode text subject = Returns None)))
  /\ (forall text subject c cs,
        explicitLoop (combine text subject) explicitPatterns = None ->
        standaloneLoop (S (List.length (combine text subject))) (combine text subject) 0 []
        = Returns (c :: cs) ->
        extractVerificationCode text subject = Returns (preferred (c :: cs)))
  /\ (forall text subject v,
        explicitLoop (combine text subject) explicitPatterns = Some v ->
        extractVerificationCode text subject = Returns (Some v))
  /\ extractVerificationCode (js "Use code A1B2C3 to continue") []
     = Returns (Some (js "A1B2C3"))
  /\ extractVerificationCode (js "Your reference is A1B2C3") [] = Returns None.
Proof.
  split; [|split; [|split; [|split; vm_compute; reflexivity]]].
  - intros text subject HA HB.
    unfold extractVerificationCode, extractWith. rewrite HA, HB, test_codeContext.
    split; [intros ->; reflexivity|]. intros ->.
    destruct (alphanumLoop_spec (combine text subject)
                (S (List.length (combine text subject))) 0) as [L1 L2]; [lia|].
    split.
    + intros i n (T & M & Hmin).
      apply L1; [lia | exact T | exact M | intros i' n' _ Hlt; apply Hmin; exact Hlt].
    + intros Hall. apply L2. intros i n _. apply Hall.
  - intros text subject c cs HA HB.
    unfold extractVerificationCode, extractWith. rewrite HA, HB. reflexivity.
  - intros text subject v HA.
    unfold extractVerificationCode, extractWith. rewrite HA. reflexivity.
Qed.

Lemma C5_alphanumeric_tier_witness :
  extractVerificationCode (js "Your code abc123 or XYZ789 thanks") []
  = Returns (Some (js "XYZ789")).
Proof.
  destruct (proj1 C5_alphanumeric_tier (js "Your code abc123 or XYZ789 thanks") []
                  eq_refl eq_refl) as [_ H].
  destruct (H eq_refl) as [H1 _].
  apply (H1 21 6).
  split; [reflexivity|]. split; [reflexivity|].
  intros i' n' Hlt T.
  assert (Hn : n' = 6 \/ n' = 7 \/ n' = 8).
  { pose proof (token_length_range _ _ _ _ T). lia. }
  do 21 (destruct i' as [|i']; [destruct Hn as [->|[->| ->]]; vm_compute in T;
                                try discriminate T; reflexivity|]).
  lia.
Defined.

(* ================================================================== *)
(** * Grouping the single-character inputs by parent                    *)
(* ================================================================== *)

Lemma keyEq_eq a b : keyEq a b = true <-> a = b.
Proof.
  destruct a as [a|], b as [b|]; simpl; split; intros H;
    try discriminate; try reflexivity.
  - apply Nat.eqb_eq in H. congruence.
  - inversion H. apply Nat.eqb_refl.
Qed.

Lemma keyEq_neq a b : a <> b -> keyEq a b = false.
Proof.
  intros H. destruct (keyEq a b) eqn:E; [|reflexivity].
  apply keyEq_eq in E. contradiction.
Qed.

Lemma keyEq_refl a : keyEq a a = true.
Proof. apply keyEq_eq. reflexivity. Qed.

Lemma existsb_keyEq ks p :
  existsb (fun k => keyEq k p) ks = true <-> In p ks.
Proof.
  rewrite existsb_exists. split.
  - intros (k & Hk & E). apply keyEq_eq in E. subst. exact Hk.
  - intros H. exists p. split; [exact H | apply keyEq_refl].
Qed.

Lemma mapHas_groupsFor l ks p :
  mapHas (groupsFor l ks) p = existsb (fun k => keyEq k p) ks.
Proof.
  unfold mapHas, groupsFor. rewrite existsb_map_comp. reflexivity.
Qed.

(** Pushing into a map with distinct keys changes the one group of
    the key. *)
Lemma mapPush_groupsFor l p x : forall ks,
  NoDup ks ->
  mapPush (groupsFor l ks) p x
  = List.map (fun k => (k, filter (sameParent k) l ++ (if keyEq k p then [x] else []))) ks.
Proof.
  induction ks as [|k ks IH]; intros Hnd; [reflexivity|].
  inversion Hnd as [|? ? Hnotin Hnd']; subst.
  cbn [groupsFor List.map mapPush]. fold (groupsFor l ks).
  destruct (keyEq k p) eqn:E.
  - f_equal. apply keyEq_eq in E. subst p.
    unfold groupsFor. apply map_ext_in. intros k' Hk'.
    rewrite keyEq_neq, app_nil_r; [reflexivity|]. intros ->. contradiction.
  - rewrite app_nil_r. f_equal. apply IH. exact Hnd'.
Qed.

Lemma mapPush_absent l p x : forall ks,
  ~ In p ks ->
  mapPush (groupsFor l ks ++ [(p, [])]) p x = groupsFor l ks ++ [(p, [x])].
Proof.
  induction ks as [|k ks IH]; intros Hnotin.
  - simpl. rewrite keyEq_refl. reflexivity.
  - cbn [groupsFor List.map app mapPush]. fold (groupsFor l ks).
    rewrite keyEq_neq.
    + f_equal. apply IH. intros H. apply Hnotin. right; exact H.
    + intros ->. apply Hnotin. left; reflexivity.
Qed.

Lemma filter_snoc {A : Type} (f : A -> bool) l x :
  filter f (l ++ [x]) = filter f l ++ (if f x then [x] else []).
Proof. rewrite filter_app. reflexivity. Qed.

Lemma filter_none {A : Type} (f : A -> bool) : forall l,
  (forall y, In y l -> f y = false) -> filter f l = [].
Proof.
  induction l as [|a l IH]; intros H; [reflexivity|].
  simpl. rewrite (H a) by (left; reflexivity).
  apply IH. intros y Hy. apply H. right; exact Hy.
Qed.

(** One turn of the grouping loop on a single-character input. *)
Lemma groupStep_groupsFor l ks x :
  NoDup ks ->
  (forall y, In y l -> In (parentElement y) ks) ->
  isSingleChar x = true ->
  groupStep (groupsFor l ks) x
  = groupsFor (l ++ [x])
      (if existsb (fun k => keyEq k (parentElement x)) ks
       then ks else ks ++ [parentElement x]).
Proof.
  intros Hnd Hcov Hx. unfold groupStep. rewrite Hx, mapHas_groupsFor.
  destruct (existsb (fun k => keyEq k (parentElement x)) ks) eqn:E.
  - rewrite mapPush_groupsFor by exact Hnd.
    unfold groupsFor. apply map_ext. intros k.
    rewrite filter_snoc. reflexivity.
  - assert (Hnotin : ~ In (parentElement x) ks).
    { intros H. apply existsb_keyEq in H. congruence. }
    rewrite mapPush_absent by exact Hnotin.
    unfold groupsFor. rewrite map_app. cbn [List.map]. f_equal.
    + apply map_ext_in. intros k Hk. rewrite filter_snoc.
      change (sameParent k x) with (keyEq k (parentElement x)).
      rewrite keyEq_neq, app_nil_r; [reflexivity|].
      intros ->. contradiction.
    + f_equal. f_equal. rewrite filter_snoc.
      change (sameParent (parentElement x) x)
        with (keyEq (parentElement x) (parentElement x)).
      rewrite keyEq_refl, filter_none; [reflexivity|].
      intros y Hy. unfold sameParent. apply keyEq_neq.
      intros Heq. apply Hnotin. rewrite Heq. apply Hcov. exact Hy.
Qed.

(** The parents met so far are distinct and cover the inputs seen. *)
Lemma parentsOf_snoc l x :
  parentsOf (l ++ [x])
  = if existsb (fun k => keyEq k (parentElement x)) (parentsOf l)
    then parentsOf l else parentsOf l ++ [parentElement x].
Proof. unfold parentsOf. rewrite fold_left_app. reflexivity. Qed.

Lemma parentsOf_NoDup : forall l, NoDup (parentsOf l).
Proof.
  induction l as [|x l IH] using rev_ind; [constructor|].
  rewrite parentsOf_snoc.
  destruct (existsb _ (parentsOf l)) eqn:E; [exact IH|].
  apply NoDup_app; [exact IH | repeat constructor; intros [] |].
  intros a Ha [<-|[]]. apply existsb_keyEq in Ha. congruence.
Qed.

Lemma parentsOf_cover : forall l y, In y l -> In (parentElement y) (parentsOf l).
Proof.
  induction l as [|x l IH] using rev_ind; intros y Hy; [contradiction|].
  rewrite parentsOf_snoc. apply in_app_or in Hy.
  destruct (existsb _ (parentsOf l)) eqn:E.
  - destruct Hy as [Hy|[<-|[]]]; [apply IH; exact Hy|].
    apply existsb_keyEq. exact E.
  - apply in_or_app.
    destruct Hy as [Hy|[<-|[]]]; [left; apply IH; exact Hy | right; left; reflexivity].
Qed.

(** The grouping loop builds, for the parents in the order in which
    they are first met, the inputs under each. *)
Lemma fold_groupStep : forall l2 l1,
  (forall y, In y l2 -> isSingleChar y = true) ->
  fold_left groupStep l2 (groupsFor l1 (parentsOf l1))
  = groupsFor (l1 ++ l2) (parentsOf (l1 ++ l2)).
Proof.
  induction l2 as [|x l2 IH]; intros l1 Hs.
  - rewrite app_nil_r. reflexivity.
  - cbn [fold_left].
    rewrite groupStep_groupsFor.
    + rewrite <- parentsOf_snoc, IH.
      * rewrite <- app_assoc. reflexivity.
      * intros y Hy. apply Hs. right; exact Hy.
    + apply parentsOf_NoDup.
    + apply parentsOf_cover.
    + apply Hs. left; reflexivity.
Qed.

Lemma fold_groupStep_skip : forall l groups,
  fold_left groupStep l groups = fold_left groupStep (filter isSingleChar l) groups.
Proof.
  induction l as [|x l IH]; intros groups; [reflexivity|].
  cbn [fold_left filter]. destruct (isSingleChar x) eqn:E.
  - cbn [fold_left]. apply IH.
  - unfold groupStep at 2. rewrite E. apply IH.
Qed.

Lemma groups_of_document doc :
  fold_left groupStep (filter isVisibleInput (querySelectorAll doc shortFormInputs)) []
  = groupsFor (singleCharInputs doc) (parentsOf (singleCharInputs doc)).
Proof.
  rewrite fold_groupStep_skip.
  change (@nil (option nat * list element)) with (groupsFor [] (parentsOf [])).
  rewrite fold_groupStep; [reflexivity|].
  intros y Hy. apply filter_In in Hy. apply Hy.
Qed.

(** A parent of the list of parents is the parent of an input whose
    predecessors all have parents listed before it. *)
Lemma parentsOf_split : forall l ks1 k ks2,
  parentsOf l = ks1 ++ k :: ks2 ->
  exists pre x post,
    l = pre ++ x :: post /\ parentElement x = k /\
    forall y, In y pre -> In (parentElement y) ks1.
Proof.
  induction l as [|z l IH] using rev_ind; intros ks1 k ks2 H.
  - destruct ks1; discriminate.
  - rewrite parentsOf_snoc in H.
    destruct (existsb _ (parentsOf l)) eqn:E.
    + destruct (IH _ _ _ H) as (pre & x & post & -> & Hx & Hpre).
      exists pre, x, (post ++ [z]). rewrite <- app_assoc. auto.
    + destruct ks2 as [|q ks2] using rev_ind.
      * apply app_inj_tail in H. destruct H as [H1 H2]. subst.
        exists l, z, []. repeat split; auto. apply parentsOf_cover.
      * clear IHks2.
        replace (ks1 ++ k :: ks2 ++ [q]) with ((ks1 ++ k :: ks2) ++ [q]) in H
          by (rewrite <- app_assoc; reflexivity).
        apply app_inj_tail in H. destruct H as [H1 _].
        destruct (IH _ _ _ H1) as (pre & x & post & -> & Hx & Hpre).
        exists pre, x, (post ++ [z]). rewrite <- app_assoc. auto.
Qed.

Lemma find_split {A : Type} (f : A -> bool) : forall l x,
  find f l = Some x ->
  exists pre post, l = pre ++ x :: post /\ f x = true /\
                   forall y, In y pre -> f y = false.
Proof.
  induction l as [|a l IH]; intros x H; [discriminate|].
  simpl in H. destruct (f a) eqn:E.
  - inversion H; subst. exists [], l. repeat split; auto. intros y [].
  - destruct (IH x H) as (pre & post & -> & Hx & Hpre).
    exists (a :: pre), post. repeat split; auto.
    intros y [<-|Hy]; auto.
Qed.

Lemma find_none_all {A : Type} (f : A -> bool) : forall l,
  find f l = None -> forall y, In y l -> f y = false.
Proof.
  induction l as [|a l IH]; intros H y Hy; [contradiction|].
  simpl in H. destruct (f a) eqn:E; [discriminate|].
  destruct Hy as [<-|Hy]; auto.
Qed.

(* ================================================================== *)
(** * The field classifier                                              *)
(* ================================================================== *)

Lemma filter_filter_and {A : Type} (f g : A -> bool) : forall l,
  filter f (filter g l) = filter (fun x => g x && f x) l.
Proof.
  induction l as [|a l IH]; [reflexivity|].
  simpl. destruct (g a); simpl; [destruct (f a)|]; rewrite IH; reflexivity.
Qed.

(** The inputs under a parent, read off the document in its order. *)
Lemma groupOf_document doc p :
  groupOf doc p
  = filter (fun el => existsb (fun sel => matches sel el) shortFormInputs
                      && isVisibleInput el && isSingleChar el && sameParent p el)
           (elements doc).
Proof.
  unfold groupOf, singleCharInputs, querySelectorAll.
  rewrite !filter_filter_and. apply filter_ext. intros el.
  rewrite !andb_assoc. reflexivity.
Qed.

Lemma inRange_length l : inRange l = true <-> 4 <= List.length l <= 8.
Proof.
  unfold inRange. rewrite andb_true_iff, !Nat.leb_le. reflexivity.
Qed.

(** What [findSplitCodeInputs] selects. *)
Lemma findSplitCodeInputs_Some doc g :
  findSplitCodeInputs doc = Some g ->
  4 <= List.length g <= 8 /\
  exists pre x post,
    singleCharInputs doc = pre ++ x :: post /\
    g = groupOf doc (parentElement x) /\
    (forall y, In y pre -> parentElement y <> parentElement x) /\
    (forall y, In y pre -> inRange (groupOf doc (parentElement y)) = false).
Proof.
  unfold findSplitCodeInputs. rewrite groups_of_document.
  destruct (find _ _) as [[k xs]|] eqn:F; [|discriminate].
  intros H. inversion H; subst xs; clear H.
  apply find_split in F. destruct F as (g1 & g2 & Hsplit & Hr & Hbefore).
  cbn [snd] in Hr. split; [apply inRange_length; exact Hr|].
  unfold groupsFor in Hsplit.
  apply map_eq_app in Hsplit. destruct Hsplit as (ks1 & ks' & Hks & Hg1 & Hrest).
  apply map_eq_cons in Hrest. destruct Hrest as (k' & ks2 & -> & Hk & Hg2).
  inversion Hk; subst k'. clear Hk.
  destruct (parentsOf_split _ _ _ _ Hks) as (pre & x & post & Hl & Hx & Hpre).
  exists pre, x, post. rewrite Hx. repeat split; auto.
  - intros y Hy Heq. apply Hpre in Hy. rewrite Heq in Hy.
    pose proof (parentsOf_NoDup (singleCharInputs doc)) as Hnd.
    rewrite Hks in Hnd. apply NoDup_remove_2 in Hnd.
    apply Hnd. apply in_or_app. left; exact Hy.
  - intros y Hy. apply Hpre in Hy.
    apply (Hbefore (parentElement y, groupOf doc (parentElement y))).
    subst g1. apply in_map_iff. exists (parentElement y). split; [reflexivity | exact Hy].
Qed.

Lemma findSplitCodeInputs_None doc :
  findSplitCodeInputs doc = None ->
  forall x, In x (singleCharInputs doc) ->
            inRange (groupOf doc (parentElement x)) = false.
Proof.
  unfold findSplitCodeInputs. rewrite groups_of_document.
  destruct (find _ _) as [[k xs]|] eqn:F; [discriminate|]. intros _ x Hx.
  apply (find_none_all _ _ F (parentElement x, groupOf doc (parentElement x))).
  unfold groupsFor. apply in_map_iff. exists (parentElement x).
  split; [reflexivity | apply parentsOf_cover; exact Hx].
Qed.

Lemma shortForm_selectors el :
  existsb (fun sel => matches sel el) shortFormInputs = shortForm el.
Proof.
  unfold shortFormInputs, shortForm, matches. cbn [existsb].
  change (insensitiveValue "type") with true. cbv beta iota.
  destruct (String.eqb (localName el) "input"); [|reflexivity].
  destruct (getAttribute el "type") as [t|]; cbn [andb orb];
    [rewrite orb_false_r, !orb_assoc|]; reflexivity.
Qed.

(** C7.  A group returned by [findSplitCodeInputs] has 4 to 8 members;
    it is the whole set of visible, short-form, single-character
    inputs under one parent, in document order; every parent first
    met earlier in the document has a group outside 4-8; when nothing
    is returned no parent has a group within 4-8.  So a parent with
    exactly 3 or exactly 9 such inputs never gives the result.  When
    no marker selector answers, [findCodeField] returns the first
    input of that group and stores the group in [splitInputs], leaving
    the other two variables as they were.  On a page with three boxes
    under one parent and six under the next, the six are returned; on
    a page with four boxes written [type="TEXT"] under one parent and
    four boxes without a type under the next, the first four are. *)
Theorem C7_segmented_group :
  (forall doc g,
     findSplitCodeInputs doc = Some g ->
     4 <= List.length g <= 8 /\
     exists pre x post,
       singleCharInputs doc = pre ++ x :: post /\
       g = filter (fun el => shortForm el && isVisibleInput el && isSingleChar el
                             && sameParent (parentElement x) el)
                  (elements doc) /\
       (forall y, In y pre -> parentElement y <> parentElement x) /\
       (forall y, In y pre -> inRange (groupOf doc (parentElement y)) = false))
  /\ (forall doc p,
        List.length (groupOf doc p) = 3 \/ List.length (groupOf doc p) = 9 ->
        findSplitCodeInputs doc <> Some (groupOf doc p))
  /\ (forall doc,
        findSplitCodeInputs doc = None ->
        forall x, In x (singleCharInputs doc) ->
                  inRange (groupOf doc (parentElement x)) = false)
  /\ (forall doc st g,
        directMatch doc CODE_FIELD_SELECTORS = None ->
        findSplitCodeInputs doc = Some g ->
        fst (findCodeField doc st) = hd_error g
        /\ splitInputs (snd (findCodeField doc st)) = Some g
        /\ detectedField (snd (findCodeField doc st)) = detectedField st
        /\ hasNotifiedBackground (snd (findCodeField doc st)) = hasNotifiedBackground st)
  /\ findSplitCodeInputs segmentedPage = Some sixBoxes
  /\ findSplitCodeInputs capitalsPage = Some capitalBoxes.
Proof.
  split; [|split; [|split; [|split; [|split]]]].
  - intros doc g H. apply findSplitCodeInputs_Some in H.
    destruct H as (Hlen & pre & x & post & Hl & Hg & H1 & H2).
    split; [exact Hlen|]. exists pre, x, post.
    split; [exact Hl|]. split; [|split; [exact H1 | exact H2]].
    rewrite Hg, groupOf_document. apply filter_ext. intros el.
    rewrite shortForm_selectors. reflexivity.
  - intros doc p Hlen H. apply findSplitCodeInputs_Some in H.
    destruct H as (Hr & _). lia.
  - exact findSplitCodeInputs_None.
  - intros doc st g H1 H2. unfold findCodeField. rewrite H1, H2.
    cbn [fst snd set_splitInputs splitInputs detectedField hasNotifiedBackground].
    repeat split; reflexivity.
  - vm_compute. reflexivity.
  - vm_compute. reflexivity.
Qed.

Lemma C7_segmented_group_witness :
  4 <= List.length sixBoxes <= 8 /\
  exists pre x post,
    singleCharInputs segmentedPage = pre ++ x :: post /\
    sixBoxes = filter (fun el => shortForm el && isVisibleInput el && isSingleChar el
                                 && sameParent (parentElement x) el)
                      (elements segmentedPage) /\
    (forall y, In y pre -> parentElement y <> parentElement x) /\
    (forall y, In y pre -> inRange (groupOf segmentedPage (parentElement y)) = false).
Proof.
  apply (proj1 C7_segmented_group segmentedPage sixBoxes).
  vm_compute. reflexivity.
Defined.

(** What Strategy 1 answers is visible and is the first element of the
    document that matches one of the selectors. *)
Lemma directMatch_Some doc : forall selectors el,
  directMatch doc selectors = Some el ->
  isVisibleInput el = true /\
  exists sel, In sel selectors /\ querySelector doc sel = Some el.
Proof.
  induction selectors as [|sel rest IH]; intros el H; [discriminate|].
  simpl in H. destruct (querySelector doc sel) as [e|] eqn:Q.
  - destruct (isVisibleInput e) eqn:V.
    + inversion H; subst. split; [exact V|]. exists sel. split; [left; reflexivity | exact Q].
    + destruct (IH el H) as (V' & sel' & Hin & Q').
      split; [exact V'|]. exists sel'. split; [right; exact Hin | exact Q'].
  - destruct (IH el H) as (V' & sel' & Hin & Q').
    split; [exact V'|]. exists sel'. split; [right; exact Hin | exact Q'].
Qed.

(** C6.  On a page whose first input named "otp" is not displayed and
    whose second input named "otp" is visible, the claim returns the
    second input; [findCodeField] returns nothing: each selector is
    asked for its first match only, and when that element is not
    visible the loop goes on to the next selector, so the visible
    input matching the same selector is never looked at. *)
Theorem C6_later_match_of_same_selector_missed :
  matches (AttrContainsI "name" "otp") hiddenOtp = true
  /\ isVisibleInput hiddenOtp = false
  /\ matches (AttrContainsI "name" "otp") shownOtp = true
  /\ isVisibleInput shownOtp = true
  /\ In (AttrContainsI "name" "otp") CODE_FIELD_SELECTORS
  /\ directMatch shadowedPage CODE_FIELD_SELECTORS = None
  /\ findCodeField shadowedPage initialState = (None, initialState).
Proof.
  repeat split; try (vm_compute; reflexivity).
  right; left; reflexivity.
Qed.

Lemma hasSmallWidth_narrow el : hasSmallWidth el = true <-> narrow el.
Proof.
  unfold hasSmallWidth, narrow. rewrite negb_true_iff. split.
  - intros H. apply QArith_base.Qnot_le_lt. intros Hle.
    apply QArith_base.Qle_bool_iff in Hle. congruence.
  - intros H. destruct (QArith_base.Qle_bool (Qint 300) (rectWidth el)) eqn:E;
      [|reflexivity].
    apply QArith_base.Qle_bool_iff in E.
    exfalso. exact (QArith_base.Qlt_not_le _ _ H E).
Qed.

(** C8.  The claim never returns an input that shows none of the
    three signals, and the comment of Strategy 3 looks for "short"
    inputs; the code returns such an input.  It reads the property
    [maxLength], which is -1 for an input that declares no maximum
    length, and -1 passes the test [input.maxLength <= 8]: for such an
    input the three tests decide nothing, and every visible, empty
    short-form input is a candidate.  On a page that asks for the code
    in words and holds one input with no [maxlength] and no [size]
    attribute, 400 pixels wide, that input is returned. *)
Theorem C8_undeclared_max_length_passes :
  (forall el,
     contextCandidate (withMaxLength el (-1)%Z)
     = isVisibleInput el && match value el with [] => true | _ :: _ => false end)
  /\ getAttribute unmarked "maxlength" = None
  /\ getAttribute unmarked "size" = None
  /\ maxLength unmarked = (-1)%Z
  /\ size unmarked = 20%Z
  /\ ~ narrow unmarked
  /\ shortForm unmarked = true
  /\ pageHasCodeContext phrasePage = true
  /\ directMatch phrasePage CODE_FIELD_SELECTORS = None
  /\ findSplitCodeInputs phrasePage = None
  /\ findCodeField phrasePage initialState = (Some unmarked, initialState).
Proof.
  split.
  { intros el. unfold contextCandidate.
    change (isVisibleInput (withMaxLength el (-1)%Z)) with (isVisibleInput el).
    change (value (withMaxLength el (-1)%Z)) with (value el).
    change (maxLength (withMaxLength el (-1)%Z)) with (-1)%Z.
    change ((-1 <=? 8)%Z) with true. cbn [orb]. rewrite andb_true_r. reflexivity. }
  repeat split; try (vm_compute; reflexivity).
  unfold narrow. vm_compute. intros H. discriminate H.
Qed.



(* ================================================================== *)
(** * The shape of an extracted code                                    *)
(* ================================================================== *)

Lemma forallb_firstn_le {A : Type} (f : A -> bool) : forall n j (s : list A),
  forallb f (firstn n s) = true -> j <= n -> forallb f (firstn j s) = true.
Proof.
  induction n; intros j s H Hj.
  - assert (j = 0) by lia. subst. reflexivity.
  - destruct j as [|j]; [reflexivity|]. destruct s as [|a s]; [reflexivity|].
    simpl in *. apply andb_true_iff in H. destruct H as [-> H]. simpl.
    apply (IHn j s H). lia.
Qed.

Lemma slice_length (s : jsstring) a b :
  b <= List.length s -> List.length (slice s a b) = b - a.
Proof.
  intros H. unfold slice. rewrite length_firstn, length_skipn. lia.
Qed.

Section GroupContent.

Variable fl : flags.
Variable inp : jsstring.
Variables (cs : cset) (lo hi : nat).

(** Where every group of a pattern is [(cs{lo,hi})], a match either
    leaves the capture as it was or sets it to [lo] to [hi] members
    of the class. *)
Lemma rmatch_cap_content r : forall st st',
  grpIs cs lo hi r ->
  pos st <= List.length inp ->
  In st' (rmatch fl inp r st) ->
  cap st' = cap st \/
  exists a b, cap st' = Some (a, b) /\ lo <= b - a /\ b - a <= hi /\
              a <= b /\ b <= List.length inp /\
              forallb (cset_has fl cs) (slice inp a b) = true.
Proof.
  induction r; intros st st' G Hle H; simpl in *.
  - leaf H; auto.
  - leaf H; auto.
  - leaf H; auto.
  - destruct G as [G1 G2]. apply in_flat_map in H. destruct H as (mid & H1 & H2).
    pose proof (rmatch_bound fl inp _ _ _ Hle H1) as Hmid.
    destruct (IHr2 _ _ G2 Hmid H2) as [E|R]; [|right; exact R].
    rewrite E. apply (IHr1 _ _ G1 Hle H1).
  - destruct G as [G1 G2]. apply in_app_or in H. destruct H as [H|H]; eauto.
  - apply in_app_or in H. destruct H as [H|[<-|[]]]; [|auto].
    apply filter_In in H. destruct H as [H _]. eauto.
  - apply in_map_iff in H. destruct H as (j & <- & _). auto.
  - subst r. apply in_map_iff in H. destruct H as (m & <- & Hm).
    cbn [rmatch] in Hm. apply in_map_iff in Hm. destruct Hm as (j & <- & Hj).
    apply in_rev, in_seq in Hj. right.
    exists (pos st), (pos st + j). cbn [pos cap adv].
    pose proof (run_bound fl cs (skipn (pos st) inp) hi) as B.
    pose proof (run_le fl cs (Some hi) (skipn (pos st) inp)) as L.
    rewrite length_skipn in L.
    repeat split; try lia.
    rewrite slice_firstn.
    apply (forallb_firstn_le _ (run fl cs (Some hi) (skipn (pos st) inp))).
    + apply run_forall.
    + lia.
  - leaf H; auto.
  - leaf H; auto.
  - leaf H; auto.
Qed.

Lemma exec_cap_content r lastIndex i m a b :
  grpIs cs lo hi r ->
  exec fl inp r lastIndex = Some (i, m) ->
  cap m = Some (a, b) ->
  lo <= b - a /\ b - a <= hi /\ a <= b /\ b <= List.length inp /\
  forallb (cset_has fl cs) (slice inp a b) = true.
Proof.
  intros G E C. unfold exec in E. apply exec_from_Some in E.
  destruct E as (A & B & Hhd & _).
  assert (Hin : In m (rmatch fl inp r (start_at i))).
  { destruct (rmatch fl inp r (start_at i)); simpl in Hhd; [discriminate|].
    inversion Hhd; subst; left; reflexivity. }
  destruct (rmatch_cap_content r (start_at i) m G) as [E|(a' & b' & E & R)];
    [simpl; lia | exact Hin | rewrite C in E; discriminate |].
  rewrite C in E. inversion E; subst. exact R.
Qed.

End GroupContent.

Ltac range_cases :=
  repeat match goal with
         | |- context [(?a <=? ?b)%N] => destruct (N.leb_spec a b)
         end; cbn [andb orb]; try reflexivity; exfalso; lia.

Lemma cset_i_upperAlnum c : cset_has fl_i upperAlnum c = letterOrDigit c.
Proof.
  unfold cset_has, upperAlnum, letterOrDigit, isLetter.
  cbn [existsb item_has ignoreCase fl_i andb].
  change (ch "A") with 65%N. change (ch "Z") with 90%N.
  change (ch "0") with 48%N. change (ch "9") with 57%N.
  rewrite orb_false_r.
  unfold toUpper, toLower, isUpper, isLower, isDigit.
  destruct (N.leb_spec 97 c), (N.leb_spec c 122), (N.leb_spec 65 c), (N.leb_spec c 90),
           (N.leb_spec 48 c), (N.leb_spec c 57);
    cbn [andb orb]; range_cases.
Qed.

Lemma cset_i_digit09 c : cset_has fl_i digit09 c = isDigit c.
Proof.
  unfold cset_has, digit09.
  cbn [existsb item_has ignoreCase fl_i andb].
  change (ch "0") with 48%N. change (ch "9") with 57%N.
  rewrite orb_false_r.
  unfold toUpper, toLower, isUpper, isLower, isDigit.
  destruct (N.leb_spec 97 c), (N.leb_spec c 122), (N.leb_spec 65 c), (N.leb_spec c 90),
           (N.leb_spec 48 c), (N.leb_spec c 57);
    cbn [andb orb]; range_cases.
Qed.

Lemma cset_m_digit c : cset_has fl_m [CDigit] c = isDigit c.
Proof.
  unfold cset_has. simpl. rewrite !orb_false_r. reflexivity.
Qed.

Lemma isDigit_letterOrDigit c : isDigit c = true -> letterOrDigit c = true.
Proof. unfold letterOrDigit. intros ->. apply orb_true_r. Qed.

Lemma upperOrDigit_letterOrDigit c : upperOrDigit c = true -> letterOrDigit c = true.
Proof.
  unfold upperOrDigit, letterOrDigit, isLetter. intros H.
  apply orb_true_iff in H. destruct H as [-> | ->]; simpl;
    rewrite ?orb_true_r; reflexivity.
Qed.

Lemma forallb_impl {A : Type} (f g : A -> bool) :
  (forall a, f a = true -> g a = true) ->
  forall l, forallb f l = true -> forallb g l = true.
Proof.
  intros I. induction l; simpl; [reflexivity|]. intros H.
  apply andb_true_iff in H. destruct H as [Ha Hl].
  rewrite (I _ Ha), (IHl Hl). reflexivity.
Qed.

(** A result of the explicit callouts is group 1 of a match of one of
    the patterns. *)
Lemma explicitLoop_Some combined : forall patterns v,
  explicitLoop combined patterns = Some v ->
  exists p i m a b,
    In p patterns /\ exec fl_i combined p 0 = Some (i, m) /\
    cap m = Some (a, b) /\ v = slice combined a b.
Proof.
  induction patterns as [|p rest IH]; intros v H; [discriminate|].
  simpl in H.
  assert (Hrest : explicitLoop combined rest = Some v ->
                  exists p0 i m a b,
                    In p0 (p :: rest) /\ exec fl_i combined p0 0 = Some (i, m) /\
                    cap m = Some (a, b) /\ v = slice combined a b).
  { intros Hr. destruct (IH v Hr) as (p0 & i & m & a & b & Hin & R).
    exists p0, i, m, a, b. split; [right; exact Hin | exact R]. }
  destruct (exec fl_i combined p 0) as [[i m]|] eqn:E; [|auto].
  unfold group1 in H. destruct (cap m) as [[a b]|] eqn:C; [|auto].
  destruct (slice combined a b) as [|c s] eqn:S; [auto|].
  inversion H; subst v.
  exists p, i, m, a, b. rewrite S. repeat split; auto. left; reflexivity.
Qed.

Lemma explicitPatterns_groups p :
  In p explicitPatterns ->
  grpIs upperAlnum 4 8 p \/ grpIs digit09 4 8 p.
Proof.
  intros [<-|[<-|[<-|[]]]]; [left | left | right]; simpl; repeat split; reflexivity.
Qed.

Lemma tierA_shape combined v :
  explicitLoop combined explicitPatterns = Some v ->
  exists a b, v = slice combined a b /\ b <= List.length combined /\
              4 <= b - a <= 8 /\ forallb letterOrDigit v = true.
Proof.
  intros H. apply explicitLoop_Some in H.
  destruct H as (p & i & m & a & b & Hin & E & C & ->).
  exists a, b. split; [reflexivity|].
  destruct (explicitPatterns_groups p Hin) as [G|G].
  - destruct (exec_cap_content fl_i combined upperAlnum 4 8 p 0 i m a b G E C)
      as (H4 & H8 & _ & Hb & Hall).
    repeat split; auto.
    rewrite (forallb_same _ _ cset_i_upperAlnum) in Hall. exact Hall.
  - destruct (exec_cap_content fl_i combined digit09 4 8 p 0 i m a b G E C)
      as (H4 & H8 & _ & Hb & Hall).
    repeat split; auto.
    rewrite (forallb_same _ _ cset_i_digit09) in Hall.
    exact (forallb_impl _ _ isDigit_letterOrDigit _ Hall).
Qed.

(** Every candidate kept by the scan for standalone numbers is a run
    of 4 to 8 digits of the text that passed [isLikelyCode]. *)
Lemma tierB_shape combined : forall fuel lastIndex candidates l,
  standaloneLoop fuel combined lastIndex candidates = Returns l ->
  forall Q : jsstring -> Prop,
    (forall a b,
        b <= List.length combined -> 4 <= b - a <= 8 ->
        forallb isDigit (slice combined a b) = true ->
        isLikelyCode (slice combined a b) combined = true ->
        Q (slice combined a b)) ->
    Forall Q candidates -> Forall Q l.
Proof.
  induction fuel; intros lastIndex candidates l H Q HQ Hc; simpl in H; [discriminate|].
  destruct (exec fl_m combined standalonePattern lastIndex) as [[i m]|] eqn:E.
  - unfold group1 in H. destruct (cap m) as [[a b]|] eqn:C; [|discriminate].
    apply (IHfuel _ _ _ H Q HQ).
    destruct (isLikelyCode (slice combined a b) combined) eqn:L; [|exact Hc].
    apply Forall_app. split; [exact Hc|]. constructor; [|constructor].
    assert (G : grpIs [CDigit] 4 8 standalonePattern) by (simpl; repeat split; reflexivity).
    destruct (exec_cap_content fl_m combined [CDigit] 4 8 standalonePattern
                lastIndex i m a b G E C) as (H4 & H8 & _ & Hb & Hall).
    rewrite (forallb_same _ _ cset_m_digit) in Hall.
    apply HQ; auto.
  - inversion H; subst. exact Hc.
Qed.

(** A result of the scan for tokens is a token of capitals and digits
    with a letter and a digit. *)
Lemma tierC_shape combined : forall fuel lastIndex v,
  alphanumLoop fuel combined lastIndex = Returns (Some v) ->
  exists i n, tokenAt upperOrDigit combined i n = true /\
              v = slice combined i (i + n) /\ mixed v = true.
Proof.
  induction fuel; intros lastIndex v H; simpl in H; [discriminate|].
  destruct (exec fl_none combined alphanumPattern lastIndex) as [[i0 m]|] eqn:E;
    [|discriminate].
  pose proof E as E'. unfold exec in E'. apply exec_from_Some in E'.
  destruct E' as (_ & _ & Hhd & _).
  assert (Hin : In m (rmatch fl_none combined alphanumPattern (start_at i0))).
  { destruct (rmatch fl_none combined alphanumPattern (start_at i0)); simpl in Hhd;
      [discriminate|]. inversion Hhd; subst; left; reflexivity. }
  destruct (alphanum_match_inv combined i0 m Hin) as (n0 & -> & T0).
  cbn [group1 tokenState cap pos] in H. rewrite mixed_test in H.
  destruct (mixed (slice combined i0 (i0 + n0))) eqn:M.
  - inversion H; subst v. exists i0, n0. auto.
  - apply (IHfuel _ _ H).
Qed.

Lemma preferred_In candidates c :
  preferred candidates = Some c -> In c candidates.
Proof.
  unfold preferred. intros H.
  destruct (findLength 6 candidates) as [c6|] eqn:F6.
  - inversion H; subst. apply find_some in F6. apply F6.
  - destruct (findLength 4 candidates) as [c4|] eqn:F4.
    + inversion H; subst. apply find_some in F4. apply F4.
    + destruct candidates; [discriminate|]. inversion H; subst. left; reflexivity.
Qed.

(** X1.  A code that [extractVerificationCode] returns is a contiguous
    piece of the combined text (subject, space, body). *)
Theorem X1_code_occurs_in_text : forall text subject c,
  extractVerificationCode text subject = Returns (Some c) ->
  exists a b, b <= List.length (combine text subject)
              /\ c = slice (combine text subject) a b
              /\ occursAt c (combine text subject) a.
Proof.
  intros text subject c H.
  assert (Hocc : forall a b, b <= List.length (combine text subject) -> a <= b ->
                             occursAt (slice (combine text subject) a b)
                                      (combine text subject) a).
  { intros a b Hb Hab. split; [lia|]. apply startsWith_firstn. }
  unfold extractVerificationCode, extractWith in H.
  destruct (explicitLoop _ _) as [v|] eqn:A.
  - inversion H; subst v. apply tierA_shape in A.
    destruct A as (a & b & -> & Hb & Hr & _). exists a, b. split; [exact Hb|]. split; [reflexivity|].
    apply Hocc; lia.
  - destruct (standaloneLoop _ _ 0 []) as [l| |] eqn:B; try discriminate.
    destruct l as [|c0 l].
    + destruct (test _ _ _); [|discriminate].
      apply tierC_shape in H. destruct H as (i & n & T & -> & _).
      apply token_parts in T. destruct T as (_ & _ & Hl & _).
      exists i, (i + n). split; [exact Hl|]. split; [reflexivity|]. apply Hocc; lia.
    + inversion H as [Hp]. apply preferred_In in Hp.
      assert (F : Forall (fun v => exists a b,
                              b <= List.length (combine text subject)
                              /\ v = slice (combine text subject) a b
                              /\ occursAt v (combine text subject) a) (c0 :: l)).
      { apply (tierB_shape _ _ _ _ _ B); [|constructor].
        intros a b Hb Hr _ _. exists a, b. split; [exact Hb|]. split; [reflexivity|].
        apply Hocc; lia. }
      rewrite Forall_forall in F. apply F. exact Hp.
Qed.

Lemma X1_code_occurs_in_text_witness :
  exists a b, b <= List.length (combine (js "Your code 2024 confirms the order") [])
              /\ js "2024" = slice (combine (js "Your code 2024 confirms the order") []) a b
              /\ occursAt (js "2024") (combine (js "Your code 2024 confirms the order") []) a.
Proof.
  apply (X1_code_occurs_in_text (js "Your code 2024 confirms the order") [] (js "2024")).
  vm_compute. reflexivity.
Defined.

(** X2.  A code that [extractVerificationCode] returns has 4 to 8
    characters, each an ASCII letter or digit. *)
Theorem X2_code_is_short_alphanumeric : forall text subject c,
  extractVerificationCode text subject = Returns (Some c) ->
  4 <= List.length c <= 8 /\ forallb letterOrDigit c = true.
Proof.
  intros text subject c H.
  unfold extractVerificationCode, extractWith in H.
  destruct (explicitLoop _ _) as [v|] eqn:A.
  - inversion H; subst v. apply tierA_shape in A.
    destruct A as (a & b & -> & Hb & Hr & Hall).
    rewrite slice_length by exact Hb. auto.
  - destruct (standaloneLoop _ _ 0 []) as [l| |] eqn:B; try discriminate.
    destruct l as [|c0 l].
    + destruct (test _ _ _); [|discriminate].
      apply tierC_shape in H. destruct H as (i & n & T & -> & _).
      apply token_parts in T. destruct T as (H6 & H8 & Hl & Hall & _).
      rewrite slice_length by exact Hl. rewrite slice_firstn.
      split; [lia|]. exact (forallb_impl _ _ upperOrDigit_letterOrDigit _ Hall).
    + inversion H as [Hp]. apply preferred_In in Hp.
      assert (F : Forall (fun v => 4 <= List.length v <= 8
                                   /\ forallb letterOrDigit v = true) (c0 :: l)).
      { apply (tierB_shape _ _ _ _ _ B); [|constructor].
        intros a b Hb Hr Hd _. rewrite slice_length by exact Hb.
        split; [exact Hr|]. exact (forallb_impl _ _ isDigit_letterOrDigit _ Hd). }
      rewrite Forall_forall in F. apply F. exact Hp.
Qed.

Lemma X2_code_is_short_alphanumeric_witness :
  4 <= List.length (js "A1B2C3") <= 8 /\ forallb letterOrDigit (js "A1B2C3") = true.
Proof.
  apply (X2_code_is_short_alphanumeric (js "Use code A1B2C3 to continue") []).
  vm_compute. reflexivity.
Defined.

(** X3.  When no explicit callout matches, a returned code is either
    a run of 4 to 8 digits that passed [isLikelyCode], or a token of
    6 to 8 capital letters and digits with at least one of each. *)
Theorem X3_fallback_code_shapes : forall text subject c,
  explicitLoop (combine text subject) explicitPatterns = None ->
  extractVerificationCode text subject = Returns (Some c) ->
  (4 <= List.length c <= 8 /\ forallb isDigit c = true
   /\ isLikelyCode c (combine text subject) = true)
  \/ (6 <= List.length c <= 8 /\ forallb upperOrDigit c = true /\ mixed c = true
      /\ hasKeyword (combine text subject) = true).
Proof.
  intros text subject c A H.
  unfold extractVerificationCode, extractWith in H. rewrite A in H.
  destruct (standaloneLoop _ _ 0 []) as [l| |] eqn:B; try discriminate.
  destruct l as [|c0 l].
  - right. rewrite test_codeContext in H.
    destruct (hasKeyword (combine text subject)); [|discriminate].
    apply tierC_shape in H. destruct H as (i & n & T & -> & M).
    apply token_parts in T. destruct T as (H6 & H8 & Hl & Hall & _).
    rewrite slice_length by exact Hl. rewrite slice_firstn in *.
    repeat split; auto; lia.
  - left. inversion H as [Hp]. apply preferred_In in Hp.
    assert (F : Forall (fun v => 4 <= List.length v <= 8 /\ forallb isDigit v = true
                                 /\ isLikelyCode v (combine text subject) = true)
                       (c0 :: l)).
    { apply (tierB_shape _ _ _ _ _ B); [|constructor].
      intros a b Hb Hr Hd HL. rewrite slice_length by exact Hb. auto. }
    rewrite Forall_forall in F. apply F. exact Hp.
Qed.

Lemma X3_fallback_code_shapes_witness :
  (4 <= List.length (js "2024") <= 8 /\ forallb isDigit (js "2024") = true
   /\ isLikelyCode (js "2024") (combine (js "Your code 2024 confirms the order") []) = true)
  \/ (6 <= List.length (js "2024") <= 8 /\ forallb upperOrDigit (js "2024") = true
      /\ mixed (js "2024") = true
      /\ hasKeyword (combine (js "Your code 2024 confirms the order") []) = true).
Proof.
  apply (X3_fallback_code_shapes (js "Your code 2024 confirms the order") []).
  - vm_compute. reflexivity.
  - vm_compute. reflexivity.
Defined.

(** X4.  When no explicit callout matches and the scan keeps at least
    one candidate, the result is one of the candidates: the first of
    length 6 if any has length 6, wherever it stands; otherwise the
    first of length 4 if any has length 4; otherwise the first
    candidate. *)
Theorem X4_six_then_four_then_first : forall text subject l,
  explicitLoop (combine text subject) explicitPatterns = None ->
  standaloneLoop (S (List.length (combine text subject))) (combine text subject) 0 []
  = Returns l ->
  l <> [] ->
  exists c,
    extractVerificationCode text subject = Returns (Some c) /\ In c l
    /\ ((exists y, In y l /\ List.length y = 6) ->
        List.length c = 6
        /\ exists pre post, l = pre ++ c :: post
                            /\ forall y, In y pre -> List.length y <> 6)
    /\ ((forall y, In y l -> List.length y <> 6) ->
        (exists y, In y l /\ List.length y = 4) ->
        List.length c = 4
        /\ exists pre post, l = pre ++ c :: post
                            /\ forall y, In y pre -> List.length y <> 4)
    /\ ((forall y, In y l -> List.length y <> 6 /\ List.length y <> 4) ->
        hd_error l = Some c).
Proof.
  intros text subject l A B Hne.
  assert (E : extractVerificationCode text subject = Returns (preferred l)).
  { unfold extractVerificationCode, extractWith. rewrite A, B.
    destruct l; [congruence | reflexivity]. }
  assert (Hfirst : forall n c, findLength n l = Some c ->
                     List.length c = n
                     /\ exists pre post, l = pre ++ c :: post
                                         /\ forall y, In y pre -> List.length y <> n).
  { intros n c F. apply find_split in F. destruct F as (pre & post & Hl & Hc & Hpre).
    apply Nat.eqb_eq in Hc. split; [exact Hc|]. exists pre, post. split; [exact Hl|].
    intros y Hy Hlen. apply Hpre in Hy. apply Nat.eqb_neq in Hy. contradiction. }
  assert (Hnone : forall n, findLength n l = None ->
                            forall y, In y l -> List.length y <> n).
  { intros n F y Hy. apply (find_none_all _ _ F) in Hy. apply Nat.eqb_neq. exact Hy. }
  unfold preferred in E.
  destruct (findLength 6 l) as [c6|] eqn:F6.
  - exists c6. split; [exact E|].
    destruct (Hfirst 6 c6 F6) as (H6 & pre & post & Hl & Hpre).
    split; [rewrite Hl; apply in_or_app; right; left; reflexivity|].
    split; [intros _; split; [exact H6 | exists pre, post; auto]|].
    split.
    + intros Hno _. exfalso. apply (Hno c6); [|exact H6].
      rewrite Hl. apply in_or_app. right; left; reflexivity.
    + intros Hno. exfalso.
      assert (Hin : In c6 l) by (rewrite Hl; apply in_or_app; right; left; reflexivity).
      destruct (Hno c6 Hin) as [Hn6 _]. exact (Hn6 H6).
  - pose proof (Hnone 6 F6) as N6.
    destruct (findLength 4 l) as [c4|] eqn:F4.
    + exists c4. split; [exact E|].
      destruct (Hfirst 4 c4 F4) as (H4 & pre & post & Hl & Hpre).
      assert (Hin : In c4 l) by (rewrite Hl; apply in_or_app; right; left; reflexivity).
      split; [exact Hin|]. split; [|split].
      * intros (y & Hy & Hlen). exfalso. exact (N6 y Hy Hlen).
      * intros _ _. split; [exact H4 | exists pre, post; auto].
      * intros Hno. exfalso. destruct (Hno c4 Hin) as [_ Hn4]. exact (Hn4 H4).
    + pose proof (Hnone 4 F4) as N4.
      destruct l as [|c0 l]; [congruence|].
      exists c0. split; [exact E|]. split; [left; reflexivity|]. split; [|split].
      * intros (y & Hy & Hlen). exfalso. exact (N6 y Hy Hlen).
      * intros _ (y & Hy & Hlen). exfalso. exact (N4 y Hy Hlen).
      * intros _. reflexivity.
Qed.

Lemma X4_six_then_four_then_first_witness :
  exists c,
    extractVerificationCode (js "ref 12345678 and 204913 ok") [] = Returns (Some c)
    /\ In c [js "12345678"; js "204913"]
    /\ ((exists y, In y [js "12345678"; js "204913"] /\ List.length y = 6) ->
        List.length c = 6
        /\ exists pre post, [js "12345678"; js "204913"] = pre ++ c :: post
                            /\ forall y, In y pre -> List.length y <> 6)
    /\ ((forall y, In y [js "12345678"; js "204913"] -> List.length y <> 6) ->
        (exists y, In y [js "12345678"; js "204913"] /\ List.length y = 4) ->
        List.length c = 4
        /\ exists pre post, [js "12345678"; js "204913"] = pre ++ c :: post
                            /\ forall y, In y pre -> List.length y <> 4)
    /\ ((forall y, In y [js "12345678"; js "204913"] ->
                   List.length y <> 6 /\ List.length y <> 4) ->
        hd_error [js "12345678"; js "204913"] = Some c).
Proof.
  apply (X4_six_then_four_then_first (js "ref 12345678 and 204913 ok") []
           [js "12345678"; js "204913"]).
  - vm_compute. reflexivity.
  - vm_compute. reflexivity.
  - discriminate.
Defined.

Lemma indexOf_at_start numStr context :
  startsWith numStr context = true -> indexOf context numStr = 0%Z.
Proof.
  intros H. unfold indexOf. destruct context; cbn [indexOf_from]; rewrite H; reflexivity.
Qed.

(** X5.  The amount test is skipped for digits that stand at the very
    start of the text: a candidate that is not a four-digit value from
    1900 to 2099 and that the text starts with is accepted, whatever
    precedes or follows its occurrences. *)
Theorem X5_candidate_at_offset_zero_accepted : forall numStr context,
  yearLike numStr = false ->
  startsWith numStr context = true ->
  isLikelyCode numStr context = true.
Proof.
  intros numStr context Hy Hs. unfold isLikelyCode.
  replace (Nat.eqb (List.length numStr) 4 && geNum (parseInt numStr) 1900
           && leNum (parseInt numStr) 2099) with false.
  2:{ unfold yearLike in Hy. unfold geNum, leNum.
      destruct (Nat.eqb (List.length numStr) 4); [|reflexivity].
      destruct (parseInt numStr); [|reflexivity]. simpl in *. congruence. }
  rewrite (indexOf_at_start numStr context Hs). reflexivity.
Qed.

Lemma X5_candidate_at_offset_zero_accepted_witness :
  isLikelyCode (js "1234") (combine [] (js "1234.50 due")) = true.
Proof.
  apply X5_candidate_at_offset_zero_accepted; reflexivity.
Defined.

(** A match of the pattern for standalone numbers starts its digits
    at the start offset, on a line start, or one character later,
    after a white-space character or a [>]. *)
Lemma standalone_match_inv combined i m :
  In m (rmatch fl_m combined standalonePattern (start_at i)) ->
  exists o e, cap m = Some (o, e)
              /\ ((o = i /\ at_bol fl_m combined i = true) \/ o = S i).
Proof.
  change standalonePattern
    with (Cat (Alt Bol (Alt (Cls ws) (Alt (Chr 62%N) (Chr 10%N))))
              (Cat (Grp (Rep [CDigit] 4 (Some 8)))
                   (Alt (Cls ws) (Alt Eol (Alt (Chr 60%N) (Alt (Chr 10%N) (Chr 46%N))))))).
  remember (Alt (Cls ws) (Alt Eol (Alt (Chr 60%N) (Alt (Chr 10%N) (Chr 46%N)))))
    as tail eqn:Htail.
  remember (Alt Bol (Alt (Cls ws) (Alt (Chr 62%N) (Chr 10%N)))) as head eqn:Hhead.
  intros H. cbn [rmatch] in H.
  apply in_flat_map in H. destruct H as (mid & Hmid & H).
  apply in_flat_map in H. destruct H as (g & Hg & Ht).
  apply in_map_iff in Hg. destruct Hg as (d & <- & Hd).
  apply rmatch_cap_keep in Ht; [|subst tail; reflexivity]. cbn [cap] in Ht.
  exists (pos mid), (pos d). split; [exact Ht|].
  subst head. cbn [rmatch start_at pos] in Hmid.
  apply in_app_or in Hmid. destruct Hmid as [Hb|Hmid].
  - left. destruct (at_bol fl_m combined i) eqn:B; [|contradiction].
    destruct Hb as [<-|[]]. auto.
  - right.
    apply in_app_or in Hmid. destruct Hmid as [Hmid|Hmid]; [leaf Hmid; cbn [pos adv start_at]; lia|].
    apply in_app_or in Hmid. destruct Hmid as [Hmid|Hmid]; leaf Hmid; cbn [pos adv start_at]; lia.
Qed.

(** X6.  The pattern for standalone numbers consumes the delimiter
    after a number: when the scan resumes at [lastIndex > 0] and the
    character before [lastIndex] is not a line terminator, the next
    run it reports starts after [lastIndex], so a number that begins
    exactly at [lastIndex] (one separated from the previous number by
    a single space) is not reported. *)
Theorem X6_shared_delimiter_hides_next_number :
  forall combined lastIndex c i m o e,
    0 < lastIndex ->
    nth_error combined (lastIndex - 1) = Some c ->
    isLineTerminator c = false ->
    exec fl_m combined standalonePattern lastIndex = Some (i, m) ->
    cap m = Some (o, e) ->
    lastIndex < o.
Proof.
  intros combined lastIndex c i m o e Hpos Hc Hlt E C.
  apply exec_Some in E. destruct E as (Hle & Hin & _ & _).
  apply standalone_match_inv in Hin. destruct Hin as (o' & e' & C' & Ho).
  rewrite C in C'. inversion C'; subst o' e'. clear C'.
  destruct Ho as [[Ho Hb]|Ho]; [|lia]. subst o.
  destruct (Nat.eq_dec i lastIndex) as [Heq|]; [|lia]. subst i. exfalso.
  destruct lastIndex as [|j]; [lia|].
  cbn [at_bol] in Hb. replace (S j - 1) with j in Hc by lia.
  unfold charAt in Hb. rewrite Hc, Hlt in Hb. discriminate Hb.
Qed.

Lemma X6_shared_delimiter_hides_next_number_witness :
  exec fl_m (combine (js "1111 222222 333333") []) standalonePattern 6
  = Some (12, {| pos := 19; cap := Some (13, 19) |})
  /\ 6 < 13.
Proof.
  split; [vm_compute; reflexivity|].
  apply (X6_shared_delimiter_hides_next_number
           (combine (js "1111 222222 333333") []) 6 32%N 12
           {| pos := 19; cap := Some (13, 19) |} 13 19).
  - lia.
  - reflexivity.
  - reflexivity.
  - vm_compute. reflexivity.
  - reflexivity.
Defined.

(* ================================================================== *)
(** * More on the classifier                                            *)
(* ================================================================== *)

Lemma matches_input sel el : matches sel el = true -> localName el = "input"%string.
Proof.
  unfold matches. intros H. apply andb_true_iff in H. destruct H as [H _].
  apply String.eqb_eq. exact H.
Qed.

Lemma querySelectorAll_In doc sels el :
  In el (querySelectorAll doc sels) ->
  In el (elements doc) /\ localName el = "input"%string.
Proof.
  unfold querySelectorAll. intros H. apply filter_In in H. destruct H as [Hin He].
  split; [exact Hin|]. apply existsb_exists in He. destruct He as (sel & _ & Hm).
  exact (matches_input sel el Hm).
Qed.

Lemma isVisibleInput_usable el :
  isVisibleInput el = true ->
  disabled el = false /\ readOnly el = false /\ type el <> js "hidden".
Proof.
  unfold isVisibleInput, eqb_str. intros H.
  destruct (list_eq_dec N.eq_dec (type el) (js "hidden")) as [|Hne];
    [discriminate|].
  destruct (disabled el); [discriminate|].
  destruct (readOnly el); [discriminate|]. auto.
Qed.

(** What [findCodeField] does, by strategy. *)
Lemma findCodeField_cases doc st :
  (exists el, directMatch doc CODE_FIELD_SELECTORS = Some el
              /\ findCodeField doc st = (Some el, st))
  \/ (directMatch doc CODE_FIELD_SELECTORS = None
      /\ exists g x rest, findSplitCodeInputs doc = Some g /\ g = x :: rest
                          /\ 4 <= List.length g <= 8
                          /\ findCodeField doc st = (Some x, set_splitInputs st g))
  \/ (directMatch doc CODE_FIELD_SELECTORS = None
      /\ findSplitCodeInputs doc = None
      /\ findCodeField doc st
         = (if pageHasCodeContext doc
            then find contextCandidate (querySelectorAll doc shortFormInputs)
            else None, st)).
Proof.
  unfold findCodeField.
  destruct (directMatch doc CODE_FIELD_SELECTORS) as [el|] eqn:D.
  - left. exists el. auto.
  - right. destruct (findSplitCodeInputs doc) as [g|] eqn:S.
    + left. split; [reflexivity|].
      pose proof (findSplitCodeInputs_Some doc g S) as (Hlen & _).
      destruct g as [|x rest]; [simpl in Hlen; lia|].
      exists (x :: rest), x, rest. auto.
    + right. split; [reflexivity|]. split; [reflexivity|].
      destruct (pageHasCodeContext doc); reflexivity.
Qed.

(** X7.  Whatever strategy finds it, the element [findCodeField]
    returns is an [input] of the document that passes
    [isVisibleInput]: it is not disabled, not read-only and not of
    type hidden. *)
Theorem X7_detected_field_is_usable : forall doc st el,
  fst (findCodeField doc st) = Some el ->
  In el (elements doc) /\ localName el = "input"%string
  /\ isVisibleInput el = true
  /\ disabled el = false /\ readOnly el = false /\ type el <> js "hidden".
Proof.
  intros doc st el H.
  assert (G : In el (elements doc) /\ localName el = "input"%string
              /\ isVisibleInput el = true).
  { destruct (findCodeField_cases doc st)
      as [(e & D & E)|[(D & g & x & rest & S & Hg & Hlen & E)|(D & S & E)]];
      rewrite E in H; cbn [fst] in H.
    - inversion H; subst e. apply directMatch_Some in D.
      destruct D as (V & sel & _ & Q). unfold querySelector in Q.
      apply find_some in Q. destruct Q as [Hin Hm].
      repeat split; auto. exact (matches_input sel el Hm).
    - inversion H; subst x.
      pose proof (findSplitCodeInputs_Some doc g S) as (_ & pre & y & post & _ & Eg & _).
      assert (Hin : In el g) by (rewrite Hg; left; reflexivity).
      rewrite Eg in Hin. unfold groupOf, singleCharInputs in Hin.
      apply filter_In in Hin. destruct Hin as [Hin _].
      apply filter_In in Hin. destruct Hin as [Hin _].
      apply filter_In in Hin. destruct Hin as [Hin V].
      apply querySelectorAll_In in Hin. destruct Hin as [Hin Hn]. auto.
    - destruct (pageHasCodeContext doc); [|discriminate].
      apply find_some in H. destruct H as [Hin Hc].
      apply querySelectorAll_In in Hin. destruct Hin as [Hin Hn].
      unfold contextCandidate in Hc.
      apply andb_true_iff in Hc. destruct Hc as [Hc _].
      apply andb_true_iff in Hc. destruct Hc as [V _]. auto. }
  destruct G as (Hin & Hn & V). repeat split; auto;
    apply (isVisibleInput_usable el V).
Qed.

Lemma X7_detected_field_is_usable_witness :
  In (digitBox 4 100) (elements segmentedPage)
  /\ localName (digitBox 4 100) = "input"%string
  /\ isVisibleInput (digitBox 4 100) = true
  /\ disabled (digitBox 4 100) = false /\ readOnly (digitBox 4 100) = false
  /\ type (digitBox 4 100) <> js "hidden".
Proof.
  apply (X7_detected_field_is_usable segmentedPage initialState).
  vm_compute. reflexivity.
Defined.

(** X8.  Strategy 1 is a priority scan over the selectors, each
    judged by its first match in the document: it answers nothing
    exactly when no selector has a visible first match, and it answers
    the first match of a selector when that match is visible and no
    earlier selector has a visible first match. *)
Theorem X8_selector_priority :
  (forall doc selectors,
     directMatch doc selectors = None <->
     (forall sel e, In sel selectors -> querySelector doc sel = Some e ->
                    isVisibleInput e = false))
  /\ (forall doc pre sel post el,
        (forall s e, In s pre -> querySelector doc s = Some e ->
                     isVisibleInput e = false) ->
        querySelector doc sel = Some el ->
        isVisibleInput el = true ->
        directMatch doc (pre ++ sel :: post) = Some el).
Proof.
  split.
  - intros doc. induction selectors as [|s rest IH]; simpl.
    + split; [intros _ sel e [] | reflexivity].
    + destruct (querySelector doc s) as [e0|] eqn:Q.
      * destruct (isVisibleInput e0) eqn:V.
        -- split; [discriminate|]. intros H.
           rewrite (H s e0 (or_introl eq_refl) Q) in V. discriminate.
        -- rewrite IH. split.
           ++ intros H sel e [<-|Hin] Qe; [congruence | eauto].
           ++ intros H sel e Hin. apply H. right; exact Hin.
      * rewrite IH. split.
        -- intros H sel e [<-|Hin] Qe; [congruence | eauto].
        -- intros H sel e Hin. apply H. right; exact Hin.
  - intros doc. induction pre as [|s pre IH]; intros sel post el Hpre Q V; simpl.
    + rewrite Q, V. reflexivity.
    + destruct (querySelector doc s) as [e0|] eqn:Q0.
      * rewrite (Hpre s e0 (or_introl eq_refl) Q0).
        apply IH; auto. intros s' e' Hin. apply Hpre. right; exact Hin.
      * apply IH; auto. intros s' e' Hin. apply Hpre. right; exact Hin.
Qed.

Lemma X8_selector_priority_witness :
  directMatch segmentedPage ([] ++ AttrAbsent "type" :: []) = Some (digitBox 1 50).
Proof.
  apply (proj2 X8_selector_priority segmentedPage [] (AttrAbsent "type") [] (digitBox 1 50)).
  - intros s e [].
  - vm_compute. reflexivity.
  - vm_compute. reflexivity.
Defined.

(* ================================================================== *)
(** * Filling and the detection loop                                    *)
(* ================================================================== *)

Lemma skipn_nth_cons {A : Type} (d : A) : forall i (l : list A),
  i < List.length l -> skipn i l = nth i l d :: skipn (S i) l.
Proof.
  induction i; intros [|a l] H; simpl in *; try lia; [reflexivity|].
  apply IHi. lia.
Qed.

(** The loop over the boxes pairs box [k] with character [i + k]. *)
Lemma forEachFill_combine : forall inputs i chars,
  forEachFill i inputs chars
  = flat_map (fun p => fillSingleInput (fst p) (snd p))
             (List.combine inputs (skipn i chars)).
Proof.
  induction inputs as [|input rest IH]; intros i chars; [reflexivity|].
  cbn [forEachFill]. rewrite IH.
  destruct (Nat.ltb i (List.length chars)) eqn:L.
  - apply Nat.ltb_lt in L. rewrite (skipn_nth_cons ([] : jsstring) i chars L). reflexivity.
  - apply Nat.ltb_ge in L.
    rewrite (skipn_all2 chars (n := S i)) by lia.
    rewrite (skipn_all2 chars (n := i)) by exact L.
    destruct rest; reflexivity.
Qed.

Lemma assignments_app a b : assignments (a ++ b) = assignments a ++ assignments b.
Proof.
  induction a as [|x a IH]; [reflexivity|]. destruct x; simpl; rewrite IH; reflexivity.
Qed.

Lemma assignments_fill : forall (inputs : list element) (chars : list jsstring),
  assignments (flat_map (fun p => fillSingleInput (fst p) (snd p))
                        (List.combine inputs chars))
  = List.combine (List.map node inputs) chars.
Proof.
  induction inputs as [|input rest IH]; intros [|c chars]; try reflexivity.
  cbn [List.combine flat_map List.map]. rewrite assignments_app, IH. reflexivity.
Qed.

Lemma concat_splitChars : forall code, List.concat (splitChars code) = code.
Proof.
  induction code as [|c code IH]; [reflexivity|]. simpl. f_equal. exact IH.
Qed.

Lemma snd_combine_firstn {A B : Type} : forall (l : list A) (l' : list B),
  List.map snd (List.combine l l') = firstn (List.length l) l'.
Proof.
  induction l as [|a l IH]; intros [|b l']; try reflexivity.
  simpl. f_equal. apply IH.
Qed.

Lemma firstn_splitChars : forall n code,
  firstn n (splitChars code) = splitChars (firstn n code).
Proof.
  unfold splitChars. intros n code. apply firstn_map.
Qed.

(** X9.  [fillSplitInputs] gives box [k] the [k]-th character of the
    code, in order, each assignment between a focus and the events
    input, change and keyup; boxes beyond the length of the code get
    no action at all and characters beyond the number of boxes are
    dropped: the characters assigned spell the first (number of
    boxes) characters of the code, which is the whole code when it is
    no longer than the group. *)
Theorem X9_one_character_per_box : forall code st inputs,
  splitInputs st = Some inputs ->
  exists acts,
    fillSplitInputs code st = Returns acts
    /\ acts = flat_map (fun p => fillSingleInput (fst p) (snd p))
                       (List.combine inputs (splitChars code))
    /\ assignments acts = List.combine (List.map node inputs) (splitChars code)
    /\ List.length (assignments acts) = Nat.min (List.length inputs) (List.length code)
    /\ List.concat (List.map snd (assignments acts)) = firstn (List.length inputs) code
    /\ (List.length code <= List.length inputs ->
        List.concat (List.map snd (assignments acts)) = code).
Proof.
  intros code st inputs H. unfold fillSplitInputs. rewrite H.
  eexists. split; [reflexivity|].
  rewrite forEachFill_combine. cbn [skipn].
  split; [reflexivity|]. rewrite assignments_fill.
  split; [reflexivity|].
  assert (C : List.concat (List.map snd (List.combine (List.map node inputs) (splitChars code)))
              = firstn (List.length inputs) code).
  { rewrite snd_combine_firstn, length_map, firstn_splitChars. apply concat_splitChars. }
  split; [|split].
  - rewrite length_combine, length_map. unfold splitChars. rewrite length_map. reflexivity.
  - exact C.
  - intros Hle. rewrite C. apply firstn_all2. exact Hle.
Qed.

Lemma X9_one_character_per_box_witness :
  exists acts,
    fillSplitInputs (js "204913") (set_splitInputs initialState sixBoxes) = Returns acts
    /\ acts = flat_map (fun p => fillSingleInput (fst p) (snd p))
                       (List.combine sixBoxes (splitChars (js "204913")))
    /\ assignments acts = List.combine (List.map node sixBoxes) (splitChars (js "204913"))
    /\ List.length (assignments acts)
       = Nat.min (List.length sixBoxes) (List.length (js "204913"))
    /\ List.concat (List.map snd (assignments acts))
       = firstn (List.length sixBoxes) (js "204913")
    /\ (List.length (js "204913") <= List.length sixBoxes ->
        List.concat (List.map snd (assignments acts)) = js "204913").
Proof.
  apply (X9_one_character_per_box (js "204913")
           (set_splitInputs initialState sixBoxes) sixBoxes).
  reflexivity.
Defined.

(** What [runDetection] does to the variables. *)
Lemma runDetection_cases doc st :
  hasNotifiedBackground st = false ->
  (fst (findCodeField doc st) = None /\ runDetection doc st = (st, []))
  \/ (exists el,
         fst (findCodeField doc st) = Some el
         /\ runDetection doc st
            = ({| detectedField := Some el;
                  hasNotifiedBackground := true;
                  splitInputs := splitInputs (snd (findCodeField doc st)) |},
               [ ShowToast (js "Checking email for verification code...") "info";
                 SendMessage "CODE_FIELD_DETECTED" ])).
Proof.
  intros Hn. unfold runDetection.
  destruct (findCodeField_cases doc st)
    as [(e & D & E)|[(D & g & x & rest & S & Hg & Hlen & E)|(D & S & E)]];
    rewrite E; cbn [fst snd].
  - right. exists e. rewrite Hn. auto.
  - right. exists x. cbn [set_splitInputs hasNotifiedBackground]. rewrite Hn. auto.
  - destruct (if pageHasCodeContext doc
              then find contextCandidate (querySelectorAll doc shortFormInputs)
              else None) as [el|].
    + right. exists el. rewrite Hn. auto.
    + left. auto.
Qed.

(** [findCodeField] either leaves the variables alone or records a
    group of 4 to 8 inputs and returns its first one. *)
Lemma findCodeField_state doc st field st1 :
  findCodeField doc st = (field, st1) ->
  st1 = st
  \/ exists g x rest, g = x :: rest /\ 4 <= List.length g <= 8
                      /\ field = Some x /\ st1 = set_splitInputs st g.
Proof.
  intros H.
  destruct (findCodeField_cases doc st)
    as [(e & D & E)|[(D & g & x & rest & S & Hg & Hlen & E)|(D & S & E)]];
    rewrite E in H; inversion H; subst.
  - left; reflexivity.
  - right. exists (x :: rest), x, rest. auto.
  - left; reflexivity.
Qed.

Lemma runDetection_eq doc st field st1 :
  findCodeField doc st = (field, st1) ->
  runDetection doc st
  = match field with
    | Some el =>
        if hasNotifiedBackground st1 then (st1, [])
        else ({| detectedField := Some el;
                 hasNotifiedBackground := true;
                 splitInputs := splitInputs st1 |},
              [ ShowToast (js "Checking email for verification code...") "info";
                SendMessage "CODE_FIELD_DETECTED" ])
    | None => (st1, [])
    end.
Proof.
  intros H. unfold runDetection. rewrite H. reflexivity.
Qed.

Lemma consistent_initial : consistent initialState.
Proof.
  split; cbn [hasNotifiedBackground detectedField splitInputs initialState];
    [auto | discriminate].
Qed.

Lemma consistent_detected el st1 :
  (forall g, splitInputs st1 = Some g ->
             hd_error g = Some el /\ 4 <= List.length g <= 8) ->
  consistent {| detectedField := Some el;
                hasNotifiedBackground := true;
                splitInputs := splitInputs st1 |}.
Proof.
  intros H. split; cbn [hasNotifiedBackground detectedField splitInputs].
  - discriminate.
  - intros _. exists el. split; [reflexivity | exact H].
Qed.

Lemma consistent_runDetection d st :
  consistent st -> hasNotifiedBackground st = false ->
  consistent (fst (runDetection d st)).
Proof.
  intros I Hn. destruct (findCodeField d st) as [field st1] eqn:E.
  rewrite (runDetection_eq d st field st1 E).
  destruct (proj1 I Hn) as [Hd Hs].
  destruct (findCodeField_state d st field st1 E)
    as [->|(g & x & rest & Hg & Hlen & -> & ->)].
  - destruct field as [el|]; [|exact I]. rewrite Hn. cbn [fst].
    apply consistent_detected. intros g Hg. congruence.
  - cbn [set_splitInputs hasNotifiedBackground]. rewrite Hn. cbn [fst].
    apply consistent_detected. cbn [splitInputs].
    intros g' Hg'. inversion Hg'; subst g'. subst g. auto.
Qed.

Lemma onBodyMutation_vars d sc :
  vars (fst (onBodyMutation d sc))
  = if hasNotifiedBackground (vars sc) then vars sc
    else fst (runDetection d (vars sc)).
Proof.
  unfold onBodyMutation. destruct (hasNotifiedBackground (vars sc)); [reflexivity|].
  destruct (runDetection d (vars sc)). reflexivity.
Qed.

Lemma consistent_step ev sc :
  consistent (vars sc) -> consistent (vars (fst (step ev sc))).
Proof.
  intros I. destruct ev as [d|h]; cbn [step fst].
  - rewrite onBodyMutation_vars.
    destruct (hasNotifiedBackground (vars sc)) eqn:Hn; [exact I|].
    apply consistent_runDetection; assumption.
  - unfold onDocumentMutation. destruct (eqb_str h (lastUrl sc)); [exact I|].
    cbn [vars]. split; cbn [hasNotifiedBackground detectedField splitInputs];
      [auto | discriminate].
Qed.

Lemma runEvents_cons ev evs sc :
  fst (runEvents (ev :: evs) sc) = fst (runEvents evs (fst (step ev sc))).
Proof.
  cbn [runEvents]. destruct (step ev sc) as [sc1 a1]. cbn [fst].
  destruct (runEvents evs sc1). reflexivity.
Qed.

Lemma consistent_runEvents : forall evs sc,
  consistent (vars sc) -> consistent (vars (fst (runEvents evs sc))).
Proof.
  induction evs as [|ev evs IH]; intros sc I; [exact I|].
  rewrite runEvents_cons. apply IH. apply consistent_step. exact I.
Qed.

Lemma load_vars doc href :
  vars (fst (load doc href)) = fst (runDetection doc initialState).
Proof.
  unfold load. destruct (runDetection doc initialState). reflexivity.
Qed.

(** X10.  In every state the content script reaches (loading, then
    any sequence of body mutations and address checks): while the
    background has not been notified no field and no group is kept;
    once it has been notified a detected field is kept, and a group,
    if kept, has 4 to 8 inputs and the detected field is its first. *)
Theorem X10_script_state_invariant : forall doc href evs,
  consistent (vars (fst (runEvents evs (fst (load doc href))))).
Proof.
  intros doc href evs. apply consistent_runEvents. rewrite load_vars.
  apply consistent_runDetection; [apply consistent_initial | reflexivity].
Qed.

(** X11.  While the address does not change the background is told at
    most once: a sequence of body mutations and of address checks that
    see the same address sends at most one CODE_FIELD_DETECTED, and
    none at all when the script has already notified, in which case it
    changes nothing. *)
Theorem X11_one_detection_per_address : forall evs sc,
  (forall href, In (DocumentMutated href) evs -> eqb_str href (lastUrl sc) = true) ->
  detections (snd (runEvents evs sc)) <= 1
  /\ (hasNotifiedBackground (vars sc) = true -> runEvents evs sc = (sc, [])).
Proof.
  assert (Hnot : forall evs sc,
             (forall href, In (DocumentMutated href) evs ->
                           eqb_str href (lastUrl sc) = true) ->
             hasNotifiedBackground (vars sc) = true -> runEvents evs sc = (sc, [])).
  { induction evs as [|ev evs IH]; intros sc Hu Hn; [reflexivity|].
    cbn [runEvents]. destruct ev as [d|h]; cbn [step].
    - unfold onBodyMutation. rewrite Hn.
      rewrite IH; auto. intros h Hin. apply Hu. right; exact Hin.
    - unfold onDocumentMutation. rewrite (Hu h (or_introl eq_refl)).
      rewrite IH; auto. intros h' Hin. apply Hu. right; exact Hin. }
  intros evs sc Hu. split; [|apply Hnot; exact Hu].
  revert sc Hu. induction evs as [|ev evs IH]; intros sc Hu; [simpl; lia|].
  assert (Hu' : forall h, In (DocumentMutated h) evs -> eqb_str h (lastUrl sc) = true).
  { intros h Hin. apply Hu. right; exact Hin. }
  cbn [runEvents]. destruct ev as [d|h]; cbn [step].
  - unfold onBodyMutation.
    destruct (hasNotifiedBackground (vars sc)) eqn:Hn.
    + rewrite (Hnot evs sc Hu' Hn). simpl. lia.
    + destruct (runDetection_cases d (vars sc) Hn) as [[_ E]|(el & _ & E)]; rewrite E.
      * assert (Hsc : {| vars := vars sc; lastUrl := lastUrl sc |} = sc)
          by (destruct sc; reflexivity).
        rewrite Hsc. specialize (IH sc Hu').
        destruct (runEvents evs sc) as [sc2 a2]. exact IH.
      * rewrite Hnot; [simpl; lia | exact Hu' | reflexivity].
  - unfold onDocumentMutation. rewrite (Hu h (or_introl eq_refl)).
    specialize (IH sc Hu'). destruct (runEvents evs sc) as [sc2 a2]. exact IH.
Qed.

Lemma X11_one_detection_per_address_witness :
  detections (snd (runEvents [BodyMutated segmentedPage; DocumentMutated (js "/login");
                              BodyMutated segmentedPage]
                             {| vars := initialState; lastUrl := js "/login" |})) <= 1
  /\ (hasNotifiedBackground initialState = true ->
      runEvents [BodyMutated segmentedPage; DocumentMutated (js "/login");
                 BodyMutated segmentedPage]
                {| vars := initialState; lastUrl := js "/login" |}
      = ({| vars := initialState; lastUrl := js "/login" |}, [])).
Proof.
  apply (X11_one_detection_per_address
           [BodyMutated segmentedPage; DocumentMutated (js "/login");
            BodyMutated segmentedPage]
           {| vars := initialState; lastUrl := js "/login" |}).
  intros href [H|[H|[H|[]]]]; try discriminate H.
  inversion H. reflexivity.
Defined.

(** X12.  Detection followed by filling writes to what was detected:
    after loading on a page, [fillCode] gives a segmented group one
    character per input when Strategy 2 found it, gives the whole code
    to the single field found by Strategy 1 or 3, and does nothing
    when no field was found. *)
Theorem X12_fill_after_detection : forall doc href code,
  let st := vars (fst (load doc href)) in
  (forall g, directMatch doc CODE_FIELD_SELECTORS = None ->
             findSplitCodeInputs doc = Some g ->
             fillCode code st
             = Returns (flat_map (fun p => fillSingleInput (fst p) (snd p))
                                 (List.combine g (splitChars code))))
  /\ (forall el, fst (findCodeField doc initialState) = Some el ->
                 (directMatch doc CODE_FIELD_SELECTORS <> None
                  \/ findSplitCodeInputs doc = None) ->
                 fillCode code st = Returns (fillSingleInput el code))
  /\ (fst (findCodeField doc initialState) = None -> fillCode code st = Returns []).
Proof.
  intros doc href code. cbn zeta. rewrite load_vars.
  pose proof (findCodeField_cases doc initialState) as C.
  destruct (findCodeField doc initialState) as [field st1] eqn:E.
  rewrite (runDetection_eq doc initialState field st1 E). cbn [fst].
  destruct C as [(e & D & E1)|[(D & g & x & rest & S & Hg & Hlen & E1)|(D & S & E1)]];
    inversion E1; subst field st1; clear E1.
  - cbn [hasNotifiedBackground initialState fst].
    split; [intros g0; congruence|]. split; [|discriminate].
    intros el He _. inversion He; subst. reflexivity.
  - cbn [hasNotifiedBackground set_splitInputs initialState fst].
    split; [|split]; [| |discriminate].
    + intros g' _ Hg'. rewrite S in Hg'. inversion Hg'; subst g'.
      unfold fillCode, fillSplitInputs. subst g.
      cbn [splitInputs set_splitInputs].
      rewrite forEachFill_combine. reflexivity.
    + intros el _ [Hd|Hs]; congruence.
  - destruct (if pageHasCodeContext doc
              then find contextCandidate (querySelectorAll doc shortFormInputs)
              else None) as [el|];
      cbn [hasNotifiedBackground initialState fst].
    + split; [intros g0; congruence|]. split; [|discriminate].
      intros e' He _. inversion He; subst. reflexivity.
    + split; [intros g0; congruence|]. split; [discriminate | reflexivity].
Qed.

Lemma X12_fill_after_detection_witness :
  fillCode (js "204913") (vars (fst (load segmentedPage (js "/login"))))
  = Returns (flat_map (fun p => fillSingleInput (fst p) (snd p))
                      (List.combine sixBoxes (splitChars (js "204913")))).
Proof.
  apply (proj1 (X12_fill_after_detection segmentedPage (js "/login") (js "204913"))
               sixBoxes).
  - vm_compute. reflexivity.
  - vm_compute. reflexivity.
Defined.

(* ================================================================== *)
(** * The polling loop                                                  *)
(* ================================================================== *)

Ltac pcbn :=
  cbn [Polling.registered Polling.isPolling Polling.pollIntervalId Polling.elapsed
       Polling.tabId Polling.handle Polling.idle fst snd].

Lemma polling_stop_coherent w :
  (forall id, Polling.pollIntervalId w = Some id ->
              forall t, In t (Polling.registered w) -> Polling.handle t = id) ->
  (Polling.pollIntervalId w = None -> Polling.registered w = []) ->
  Polling.coherent (Polling.stopPolling w).
Proof.
  intros Hs Hn. unfold Polling.stopPolling, Polling.coherent. pcbn.
  split; [reflexivity|].
  destruct (Polling.pollIntervalId w) as [id|]; [|auto].
  unfold Polling.clearInterval. apply filter_none. intros t Hin.
  rewrite (Hs id eq_refl t Hin), Pos.eqb_refl. reflexivity.
Qed.

Lemma polling_stop_of_coherent w :
  Polling.coherent w -> Polling.coherent (Polling.stopPolling w).
Proof.
  intros C. unfold Polling.coherent in C. apply polling_stop_coherent.
  - intros id E t Hin. rewrite E in C. destruct C as (_ & t0 & R & H & _).
    rewrite R in Hin. destruct Hin as [<-|[]]. exact H.
  - intros E. rewrite E in C. apply C.
Qed.

Lemma polling_step_coherent ev w :
  Polling.coherent w -> Polling.coherent (fst (Polling.step ev w)).
Proof.
  intros C. destruct ev as [tab id|id|tab found]; cbn [Polling.step fst].
  - unfold Polling.startPolling. destruct (Polling.isPolling w) eqn:P; [exact C|].
    unfold Polling.coherent in *. pcbn.
    destruct (Polling.pollIntervalId w); [destruct C; congruence|].
    destruct C as [_ R]. rewrite R. unfold Polling.maxDuration, Polling.interval.
    split; [reflexivity|]. eexists. split; [reflexivity|]. pcbn.
    split; [reflexivity|]. split; [lia|]. exists 0%Z. reflexivity.
  - unfold Polling.onTick. pose proof C as C0. unfold Polling.coherent in C.
    destruct (Polling.pollIntervalId w) as [id0|] eqn:I.
    + destruct C as (Hp & t & R & Hh & Hr & k & Hk). rewrite R.
      cbn [find map]. unfold Polling.bump.
      destruct (Pos.eqb (Polling.handle t) id) eqn:E; [|exact C0].
      cbn zeta.
      destruct (Polling.maxDuration <? Polling.elapsed t + Polling.interval)%Z eqn:L;
        cbn [fst].
      * apply polling_stop_coherent; pcbn.
        -- intros i [= <-] u [<-|[]]. exact Hh.
        -- discriminate.
      * apply Z.ltb_ge in L. unfold Polling.coherent. pcbn.
        unfold Polling.maxDuration, Polling.interval in *.
        split; [exact Hp|]. eexists. split; [reflexivity|]. pcbn.
        split; [exact Hh|]. split; [lia|]. exists (k + 1)%Z. lia.
    + destruct C as [_ R]. rewrite R. cbn [find fst]. exact C0.
  - unfold Polling.onFetched. destruct (Polling.hasCode found); cbn [fst]; [|exact C].
    apply polling_stop_of_coherent. exact C.
Qed.

Lemma runWorker_cons ev evs w :
  Polling.runWorker (ev :: evs) w
  = (fst (Polling.runWorker evs (fst (Polling.step ev w))),
     snd (Polling.step ev w) ++ snd (Polling.runWorker evs (fst (Polling.step ev w)))).
Proof.
  cbn [Polling.runWorker]. destruct (Polling.step ev w) as [w1 o1]. cbn [fst snd].
  destruct (Polling.runWorker evs w1). reflexivity.
Qed.

Lemma polling_run_coherent : forall evs w,
  Polling.coherent w -> Polling.coherent (fst (Polling.runWorker evs w)).
Proof.
  induction evs as [|ev evs IH]; intros w C; [exact C|].
  rewrite runWorker_cons. cbn [fst]. apply IH. apply polling_step_coherent. exact C.
Qed.

Lemma polling_idle_coherent : Polling.coherent Polling.idle.
Proof. unfold Polling.coherent. pcbn. auto. Qed.

Lemma polling_stop_idle w :
  Polling.coherent w -> Polling.stopPolling w = Polling.idle.
Proof.
  intros C. apply polling_stop_of_coherent in C.
  unfold Polling.coherent in C. unfold Polling.stopPolling in *.
  cbn [Polling.pollIntervalId Polling.isPolling Polling.registered] in C.
  destruct C as [_ R]. rewrite R. reflexivity.
Qed.

(** X13.  In every state the worker reaches from rest, by any
    sequence of polling requests, firing intervals and resolved
    fetches, the flag [isPolling], the variable [pollIntervalId] and
    the intervals registered with the runtime agree: while the flag is
    set exactly one interval is registered, the one [pollIntervalId]
    holds, and otherwise none is, so [stopPolling] leaves no interval
    behind and [startPolling] never runs two at once; the counter of
    the running interval is a multiple of 3000 between 0 and 60000. *)
Theorem X13_polling_state_coherent : forall evs,
  Polling.coherent (fst (Polling.runWorker evs Polling.idle)).
Proof.
  intros evs. apply polling_run_coherent. apply polling_idle_coherent.
Qed.

Lemma polling_stop_registered w :
  Polling.registered w = [] -> Polling.registered (Polling.stopPolling w) = [].
Proof.
  intros R. unfold Polling.stopPolling. pcbn. rewrite R.
  destruct (Polling.pollIntervalId w); reflexivity.
Qed.

Lemma polling_stopped_silent : forall evs w,
  forallb (fun ev => negb (Polling.isStart ev)) evs = true ->
  Polling.registered w = [] ->
  filter Polling.isFetch (snd (Polling.runWorker evs w)) = []
  /\ filter Polling.isTimeout (snd (Polling.runWorker evs w)) = [].
Proof.
  induction evs as [|ev evs IH]; intros w Hs R; [auto|].
  cbn [forallb] in Hs. apply andb_true_iff in Hs. destruct Hs as [Hev Hs].
  rewrite runWorker_cons. cbn [snd]. rewrite !filter_app.
  destruct ev as [tab id|id|tab found]; [discriminate| |]; cbn [Polling.step].
  - unfold Polling.onTick. rewrite R. cbn [find fst snd filter app].
    apply IH; assumption.
  - unfold Polling.onFetched.
    destruct (Polling.hasCode found);
      cbn [fst snd filter app Polling.isFetch Polling.isTimeout].
    + change (typeIs (Polling.autofillMessage found) "POLL_TIMEOUT") with false.
      cbn [app]. apply IH; [exact Hs|]. apply polling_stop_registered. exact R.
    + apply IH; assumption.
Qed.

Lemma silent_not_in (f : Polling.output -> bool) l o :
  filter f l = [] -> In o l -> f o = true -> False.
Proof.
  intros F Hin Ho. assert (X : In o (filter f l)) by (apply filter_In; auto).
  rewrite F in X. exact X.
Qed.

(** A running interval with counter [e] lets at most [(60000 - e) / 3000]
    more fetches start, and one time-out. *)
Lemma polling_budget : forall evs w t,
  forallb (fun ev => negb (Polling.isStart ev)) evs = true ->
  Polling.coherent w ->
  Polling.registered w = [t] ->
  (Polling.elapsed t
   + 3000 * Z.of_nat (List.length (filter Polling.isFetch (snd (Polling.runWorker evs w))))
   <= 60000)%Z
  /\ List.length (filter Polling.isTimeout (snd (Polling.runWorker evs w))) <= 1
  /\ forall o, In o (snd (Polling.runWorker evs w)) ->
               Polling.isFetch o = true \/ Polling.isTimeout o = true ->
               o = Polling.FetchLatestCode (Polling.tabId t)
               \/ o = Polling.SendToTab (Polling.tabId t) Polling.timeoutMessage.
Proof.
  induction evs as [|ev evs IH]; intros w t Hs C R.
  - unfold Polling.coherent in C.
    destruct (Polling.pollIntervalId w); [|destruct C; congruence].
    destruct C as (_ & t0 & R0 & _ & Hr & _). assert (t0 = t) by congruence. subst t0.
    unfold Polling.maxDuration in Hr.
    cbn [Polling.runWorker snd filter List.length].
    split; [lia|]. split; [lia|]. intros o [].
  - cbn [forallb] in Hs. apply andb_true_iff in Hs. destruct Hs as [Hev Hs].
    pose proof (polling_step_coherent ev w C) as C1.
    rewrite runWorker_cons. cbn [snd]. rewrite !filter_app, !length_app.
    unfold Polling.coherent in C.
    destruct (Polling.pollIntervalId w) as [id0|] eqn:I; [|destruct C; congruence].
    destruct C as (Hp & t0 & R0 & Hh & Hr & k & Hk).
    assert (t0 = t) by congruence. subst t0.
    unfold Polling.maxDuration, Polling.interval in *.
    destruct ev as [tab id|id|tab found]; [discriminate| |]; cbn [Polling.step] in *.
    + unfold Polling.onTick in *. rewrite R in *. cbn [find map] in *.
      unfold Polling.bump in *.
      destruct (Pos.eqb (Polling.handle t) id) eqn:E.
      * cbn zeta in *. unfold Polling.maxDuration, Polling.interval in *.
        destruct (60000 <? Polling.elapsed t + 3000)%Z eqn:L; cbn [fst snd] in *.
        -- match goal with
           | |- context [Polling.runWorker evs ?w1] =>
               destruct (polling_stopped_silent evs w1 Hs) as [F T]
           end.
           { unfold Polling.stopPolling. pcbn. rewrite I.
             unfold Polling.clearInterval. cbn [filter Polling.handle].
             rewrite Hh, Pos.eqb_refl. reflexivity. }
           rewrite F, T.
           cbn [filter Polling.isFetch Polling.isTimeout List.length].
           change (typeIs Polling.timeoutMessage "POLL_TIMEOUT") with true.
           cbn [List.length].
           split; [lia|]. split; [lia|].
           intros o Hin Hk'. apply in_app_or in Hin. destruct Hin as [[<-|[]]|Hin]; [auto|].
           exfalso. destruct Hk' as [Hk'|Hk'];
             [exact (silent_not_in _ _ _ F Hin Hk') | exact (silent_not_in _ _ _ T Hin Hk')].
        -- apply Z.ltb_ge in L.
           destruct (IH _ {| Polling.handle := Polling.handle t;
                             Polling.tabId := Polling.tabId t;
                             Polling.elapsed := Polling.elapsed t + 3000 |} Hs C1 eq_refl)
             as (B1 & B2 & B3).
           cbn [Polling.elapsed Polling.tabId] in *.
           cbn [filter Polling.isFetch Polling.isTimeout List.length].
           split; [lia|]. split; [lia|].
           intros o Hin Hk'. apply in_app_or in Hin. destruct Hin as [[<-|[]]|Hin]; [auto|].
           apply B3; assumption.
      * cbn [fst snd] in *. destruct (IH w t Hs C1 R) as (B1 & B2 & B3).
        cbn [filter List.length app].
        split; [lia|]. split; [lia|]. exact B3.
    + unfold Polling.onFetched in *. destruct (Polling.hasCode found); cbn [fst snd] in *.
      * destruct (polling_stopped_silent evs (Polling.stopPolling w) Hs) as [F T].
        { unfold Polling.stopPolling. pcbn. rewrite I, R.
          unfold Polling.clearInterval. cbn [filter].
          rewrite Hh, Pos.eqb_refl. reflexivity. }
        rewrite F, T.
        cbn [filter Polling.isFetch Polling.isTimeout List.length].
        change (typeIs (Polling.autofillMessage found) "POLL_TIMEOUT") with false.
        cbn [List.length].
        split; [lia|]. split; [lia|].
        intros o Hin Hk'. apply in_app_or in Hin. destruct Hin as [[<-|[]]|Hin].
        -- destruct Hk' as [Hk'|Hk']; discriminate Hk'.
        -- exfalso. destruct Hk' as [Hk'|Hk'];
             [exact (silent_not_in _ _ _ F Hin Hk') | exact (silent_not_in _ _ _ T Hin Hk')].
      * destruct (IH w t Hs C1 R) as (B1 & B2 & B3).
        cbn [filter List.length app].
        split; [lia|]. split; [lia|]. exact B3.
Qed.

Lemma polling_tick_running tab id e :
  Polling.onTick id (Polling.running tab id e)
  = if (60000 <? e + 3000)%Z
    then (Polling.idle, [Polling.SendToTab tab Polling.timeoutMessage])
    else (Polling.running tab id (e + 3000), [Polling.FetchLatestCode tab]).
Proof.
  unfold Polling.onTick, Polling.running, Polling.bump. pcbn. cbn [find map]. pcbn.
  rewrite Pos.eqb_refl. cbn zeta. pcbn.
  unfold Polling.maxDuration, Polling.interval.
  destruct (60000 <? e + 3000)%Z; [|reflexivity].
  unfold Polling.stopPolling, Polling.clearInterval. pcbn. cbn [filter]. pcbn.
  rewrite Pos.eqb_refl. reflexivity.
Qed.

Lemma polling_ticks_running tab id : forall n e,
  (e + 3000 * Z.of_nat n <= 60000)%Z ->
  Polling.runWorker (repeat (Polling.Tick id) n) (Polling.running tab id e)
  = (Polling.running tab id (e + 3000 * Z.of_nat n),
     repeat (Polling.FetchLatestCode tab) n).
Proof.
  induction n as [|n IH]; intros e H.
  - cbn [repeat Polling.runWorker]. replace (e + 3000 * Z.of_nat 0)%Z with e by lia.
    reflexivity.
  - cbn [repeat]. rewrite runWorker_cons. cbn [Polling.step].
    rewrite polling_tick_running.
    destruct (60000 <? e + 3000)%Z eqn:L; [apply Z.ltb_lt in L; lia|].
    cbn [fst snd]. rewrite IH by lia.
    cbn [fst snd app]. f_equal. f_equal. lia.
Qed.

(** X14.  A polling session, from [startPolling] at rest through any
    firings of intervals and resolved fetches, starts at most 20
    fetches and sends at most one POLL_TIMEOUT, all for the tab that
    asked; and when no fetch finds a code, 21 firings give exactly 20
    fetches followed by the time-out (at 63 seconds), after which the
    worker is at rest. *)
Theorem X14_polling_session_bounds : forall tab id,
  (forall evs,
     forallb (fun ev => negb (Polling.isStart ev)) evs = true ->
     let out := snd (Polling.runWorker evs (Polling.startPolling tab id Polling.idle)) in
     List.length (filter Polling.isFetch out) <= 20
     /\ List.length (filter Polling.isTimeout out) <= 1
     /\ forall o, In o out ->
                  Polling.isFetch o = true \/ Polling.isTimeout o = true ->
                  o = Polling.FetchLatestCode tab
                  \/ o = Polling.SendToTab tab Polling.timeoutMessage)
  /\ Polling.runWorker (repeat (Polling.Tick id) 21)
                       (Polling.startPolling tab id Polling.idle)
     = (Polling.idle,
        repeat (Polling.FetchLatestCode tab) 20 ++ [Polling.SendToTab tab Polling.timeoutMessage]).
Proof.
  intros tab id. split.
  - intros evs Hs. cbn zeta.
    destruct (polling_budget evs (Polling.startPolling tab id Polling.idle)
                {| Polling.handle := id; Polling.tabId := tab; Polling.elapsed := 0 |} Hs)
      as (B1 & B2 & B3).
    + apply (polling_step_coherent (Polling.Start tab id) Polling.idle).
      apply polling_idle_coherent.
    + reflexivity.
    + cbn [Polling.elapsed Polling.tabId] in *. split; [lia|]. split; [lia|]. exact B3.
  - change (Polling.startPolling tab id Polling.idle) with (Polling.running tab id 0).
    change (repeat (Polling.Tick id) 21)
      with (repeat (Polling.Tick id) 20 ++ [Polling.Tick id]).
    assert (A : forall l1 l2 w,
               Polling.runWorker (l1 ++ l2) w
               = (fst (Polling.runWorker l2 (fst (Polling.runWorker l1 w))),
                  snd (Polling.runWorker l1 w)
                  ++ snd (Polling.runWorker l2 (fst (Polling.runWorker l1 w))))).
    { induction l1 as [|a l1 IH]; intros l2 w.
      - cbn [app Polling.runWorker fst snd]. destruct (Polling.runWorker l2 w); reflexivity.
      - cbn [app]. rewrite !runWorker_cons, IH. cbn [fst snd]. rewrite app_assoc.
        reflexivity. }
    rewrite A, (polling_ticks_running tab id 20 0) by lia. cbn [fst snd].
    rewrite runWorker_cons. cbn [Polling.step Polling.runWorker fst snd].
    rewrite polling_tick_running. reflexivity.
Qed.

Lemma X14_polling_session_bounds_witness :
  let out := snd (Polling.runWorker
                    [Polling.Tick 1; Polling.Fetched 7 noCodeYet; Polling.Tick 1;
                     Polling.Fetched 7 codeArrived; Polling.Tick 1]
                    (Polling.startPolling 7 1 Polling.idle)) in
  List.length (filter Polling.isFetch out) <= 20
  /\ List.length (filter Polling.isTimeout out) <= 1
  /\ forall o, In o out ->
               Polling.isFetch o = true \/ Polling.isTimeout o = true ->
               o = Polling.FetchLatestCode 7 \/ o = Polling.SendToTab 7 Polling.timeoutMessage.
Proof.
  apply (proj1 (X14_polling_session_bounds 7 1)
               [Polling.Tick 1; Polling.Fetched 7 noCodeYet; Polling.Tick 1;
                Polling.Fetched 7 codeArrived; Polling.Tick 1]).
  reflexivity.
Defined.

(** X15.  A fetch that resolves with a code stops the polling that
    is running at that moment, whichever tab it was started for, and
    sends its code to the tab of the callback that started the fetch:
    the worker is at rest afterwards in every state it can have
    reached. *)
Theorem X15_resolved_fetch_ends_any_session : forall evs tab r,
  Polling.hasCode r = true ->
  Polling.onFetched tab r (fst (Polling.runWorker evs Polling.idle))
  = (Polling.idle, [Polling.SendToTab tab (Polling.autofillMessage r)]).
Proof.
  intros evs tab r H. unfold Polling.onFetched. rewrite H.
  rewrite polling_stop_idle; [reflexivity|].
  apply polling_run_coherent. apply polling_idle_coherent.
Qed.

Lemma X15_resolved_fetch_ends_any_session_witness :
  fst (Polling.runWorker [Polling.Start 7 1; Polling.Tick 1;
                          Polling.Fetched 7 codeArrived; Polling.Start 8 2]
                         Polling.idle)
  = Polling.running 8 2 0
  /\ Polling.onFetched 7 codeArrived
       (fst (Polling.runWorker [Polling.Start 7 1; Polling.Tick 1;
                                Polling.Fetched 7 codeArrived; Polling.Start 8 2]
                               Polling.idle))
     = (Polling.idle, [Polling.SendToTab 7 (Polling.autofillMessage codeArrived)]).
Proof.
  split; [reflexivity|].
  apply (X15_resolved_fetch_ends_any_session
           [Polling.Start 7 1; Polling.Tick 1;
            Polling.Fetched 7 codeArrived; Polling.Start 8 2] 7 codeArrived).
  reflexivity.
Defined.

(* ================================================================== *)
(** * The worker's messages and the content script                      *)
(* ================================================================== *)

Lemma toasts_app a b : toasts (a ++ b) = toasts a + toasts b.
Proof.
  induction a as [|x a IH]; [reflexivity|].
  destruct x; cbn [app toasts]; rewrite IH; reflexivity.
Qed.

Lemma forEachFill_toasts chars : forall inputs i,
  toasts (forEachFill i inputs chars) = 0.
Proof.
  induction inputs as [|input rest IH]; intros i; [reflexivity|].
  cbn [forEachFill]. rewrite toasts_app, IH.
  destruct (Nat.ltb i (List.length chars)); reflexivity.
Qed.

Lemma fillCode_returns code st :
  exists acts, fillCode code st = Returns acts /\ toasts acts = 0.
Proof.
  unfold fillCode, fillSplitInputs.
  destruct (splitInputs st) as [[|input rest]|].
  - destruct (detectedField st); eexists; split; reflexivity.
  - eexists. split; [reflexivity|]. apply forEachFill_toasts.
  - destruct (detectedField st); eexists; split; reflexivity.
Qed.

Lemma typeIs_exclusive m :
  typeIs m "AUTOFILL_CODE" = true -> typeIs m "POLL_TIMEOUT" = false.
Proof.
  unfold typeIs. destruct (rtype m) as [u|]; [|discriminate].
  intros H. apply String.eqb_eq in H. subst u. reflexivity.
Qed.

(** X16.  The message listener never throws, whatever the message and
    whatever the state of the script, although [fillSplitInputs] alone
    throws when [splitInputs] is null; it shows at most one toast for
    a message, and it assigns a value to a field only for a message
    of type AUTOFILL_CODE that carries a non-empty code. *)
Theorem X16_listener_total : forall m st,
  exists acts,
    onMessage m st = Returns acts
    /\ toasts acts <= 1
    /\ (assignments acts <> [] ->
        typeIs m "AUTOFILL_CODE" = true /\ exists c s, rcode m = Some (c :: s)).
Proof.
  intros m st. unfold onMessage.
  assert (Q : forall b : bool,
            exists acts,
              andThen (Returns []) (if b then [ShowToast (js "No verification code found in recent emails") "error"] else [])
              = Returns acts
              /\ toasts acts <= 1
              /\ (assignments acts <> [] ->
                  typeIs m "AUTOFILL_CODE" = true /\ exists c s, rcode m = Some (c :: s))).
  { intros b. eexists. split; [reflexivity|]. cbn [app].
    destruct b; cbn [toasts assignments]; (split; [lia|]); intros H; congruence. }
  destruct (rcode m) as [[|c s]|] eqn:R; [apply Q| |apply Q].
  destruct (typeIs m "AUTOFILL_CODE") eqn:T; [|apply Q].
  rewrite (typeIs_exclusive m T).
  destruct (fillCode_returns (c :: s) st) as (acts & F & N). rewrite F.
  cbn [andThen]. eexists. split; [reflexivity|].
  rewrite !toasts_app, N. cbn [toasts]. split; [lia|].
  intros _. split; [reflexivity|]. exists c, s. reflexivity.
Qed.

(** X17.  When the worker is asked by an authenticated, enabled user
    and its immediate fetch has a code, [handleCodeFieldDetected]
    starts no polling, sends the code to the tab as one AUTOFILL_CODE
    message and also returns it as the response; the listener of the
    content script on that message and the callback of its
    [sendMessage] on that response do the same thing: [fillCode] with
    that code, then the same success toast.  The field is thus filled
    once for each of the two. *)
Theorem X17_immediate_code_reaches_page_twice : forall enabled r tab id w st,
  enabled <> Some false ->
  Polling.hasCode r = true ->
  exists c acts,
    Polling.code r = Some c /\ c <> []
    /\ fillCode c st = Returns acts
    /\ snd (Polling.handleCodeFieldDetected true enabled r tab id w)
       = (w, [Polling.SendToTab tab (Polling.autofillMessage r)])
    /\ onMessage (Polling.autofillMessage r) st
       = Returns (acts ++ [ShowToast (filledText c (Polling.source r)) "success"])
    /\ onResponse None
                  (Some (fst (Polling.handleCodeFieldDetected true enabled r tab id w))) st
       = Returns (acts ++ [ShowToast (filledText c (Polling.source r)) "success"]).
Proof.
  intros enabled r tab id w st He Hc.
  unfold Polling.handleCodeFieldDetected. rewrite Hc.
  assert (G : (negb true || match enabled with Some false => true | _ => false end)
              = false).
  { destruct enabled as [[|]|]; [reflexivity | congruence | reflexivity]. }
  rewrite G. cbn [fst snd].
  unfold Polling.hasCode in Hc. apply andb_true_iff in Hc. destruct Hc as [_ Hc].
  destruct (Polling.code r) as [[|c s]|] eqn:E; [discriminate| |discriminate].
  destruct (fillCode_returns (c :: s) st) as (acts & F & _).
  exists (c :: s), acts.
  split; [reflexivity|]. split; [discriminate|]. split; [exact F|].
  split; [reflexivity|]. split.
  - unfold onMessage, Polling.autofillMessage.
    cbn [rcode rsource rtype typeIs]. rewrite E.
    change (String.eqb "AUTOFILL_CODE" "AUTOFILL_CODE") with true.
    change (String.eqb "AUTOFILL_CODE" "POLL_TIMEOUT") with false.
    rewrite F. cbn [andThen]. rewrite app_nil_r. reflexivity.
  - unfold onResponse. cbn [rcode rsource rpolling]. rewrite F. reflexivity.
Qed.

Lemma X17_immediate_code_reaches_page_twice_witness :
  exists c acts,
    Polling.code codeArrived = Some c /\ c <> []
    /\ fillCode c initialState = Returns acts
    /\ snd (Polling.handleCodeFieldDetected true None codeArrived 7 1 Polling.idle)
       = (Polling.idle, [Polling.SendToTab 7 (Polling.autofillMessage codeArrived)])
    /\ onMessage (Polling.autofillMessage codeArrived) initialState
       = Returns (acts ++ [ShowToast (filledText c (Polling.source codeArrived)) "success"])
    /\ onResponse None
                  (Some (fst (Polling.handleCodeFieldDetected true None codeArrived 7 1
                                                               Polling.idle)))
                  initialState
       = Returns (acts ++ [ShowToast (filledText c (Polling.source codeArrived)) "success"]).
Proof.
  apply (X17_immediate_code_reaches_page_twice None codeArrived 7 1 Polling.idle
                                               initialState).
  - discriminate.
  - reflexivity.
Defined.

(* ================================================================== *)
(** * The body text of a message                                        *)
(* ================================================================== *)

Lemma payload_ind_parts (P : Body.payload -> Prop) :
  (forall mt d, P (Body.Payload mt d None)) ->
  (forall mt d l, Forall P l -> P (Body.Payload mt d (Some l))) ->
  forall p, P p.
Proof.
  intros H0 H1. fix IH 1. intros [mt d [l|]]; [|apply H0].
  apply H1. induction l as [|q l IHl]; constructor; [apply IH | exact IHl].
Qed.

Lemma findThen_Some (A : Type) f (call : Body.payload -> A) : forall l r,
  Body.findThen f call l = Some r ->
  exists pre q post, l = pre ++ q :: post /\ f q = true /\ r = call q
                     /\ forall x, In x pre -> f x = false.
Proof.
  induction l as [|a l IH]; intros r H; [discriminate|].
  cbn [Body.findThen] in H. destruct (f a) eqn:F.
  - injection H as <-. exists [], a, l. repeat split; auto. intros x [].
  - destruct (IH r H) as (pre & q & post & -> & Fq & -> & Hpre).
    exists (a :: pre), q, post. repeat split; auto.
    intros x [<-|Hx]; auto.
Qed.

Lemma findThen_first (A : Type) f (call : Body.payload -> A) : forall pre q post,
  f q = true -> (forall x, In x pre -> f x = false) ->
  Body.findThen f call (pre ++ q :: post) = Some (call q).
Proof.
  induction pre as [|a pre IH]; intros q post Fq Hpre; cbn [app Body.findThen].
  - rewrite Fq. reflexivity.
  - rewrite (Hpre a) by (left; reflexivity). apply IH; [exact Fq|].
    intros x Hx. apply Hpre. right. exact Hx.
Qed.

Lemma findThen_None (A : Type) f (call : Body.payload -> A) : forall l,
  (forall x, In x l -> f x = false) -> Body.findThen f call l = None.
Proof.
  induction l as [|a l IH]; intros H; [reflexivity|].
  cbn [Body.findThen]. rewrite (H a) by (left; reflexivity).
  apply IH. intros x Hx. apply H. right. exact Hx.
Qed.

Lemma firstText_Some call : forall l t,
  Body.firstText call l = Returns (Some t) ->
  t <> [] /\ exists q, In q l /\ call q = Returns t.
Proof.
  induction l as [|a l IH]; intros t H; [discriminate|].
  cbn [Body.firstText] in H. destruct (call a) as [[|c u]| |] eqn:E; try discriminate.
  - destruct (IH t H) as (Ht & q & Hq & Hc). split; [exact Ht|].
    exists q. split; [right; exact Hq | exact Hc].
  - injection H as <-. split; [discriminate|]. exists a. split; [left; reflexivity | exact E].
Qed.

Lemma firstText_first call : forall pre q post c t,
  (forall x, In x pre -> call x = Returns []) ->
  call q = Returns (c :: t) ->
  Body.firstText call (pre ++ q :: post) = Returns (Some (c :: t)).
Proof.
  induction pre as [|a pre IH]; intros q post c t Hpre Hq; cbn [app Body.firstText].
  - rewrite Hq. reflexivity.
  - rewrite (Hpre a) by (left; reflexivity). apply IH; [|exact Hq].
    intros x Hx. apply Hpre. right. exact Hx.
Qed.

Lemma if_returns (A : Type) (b : bool) (x y t : A) :
  (if b then Returns x else Returns y) = Returns t -> t = if b then x else y.
Proof. destruct b; intros H; injection H as <-; reflexivity. Qed.

Lemma nodes_part mt d l q x :
  In q l -> In x (Body.nodes q) -> In x (Body.nodes (Body.Payload mt d (Some l))).
Proof.
  intros Hq Hx. cbn [Body.nodes]. right. apply in_flat_map. exists q. auto.
Qed.

(** X18.  A non-empty text that [extractBodyText] returns is the
    decoded [body.data] of one single node of the payload tree, passed
    through [stripHtml] exactly when that node has the type text/html:
    texts of several parts are never joined, and nothing else is ever
    returned. *)
Theorem X18_body_text_comes_from_one_part : forall atob stripHtml p t,
  Body.extractBodyText atob stripHtml p = Returns t ->
  t <> [] ->
  exists q d u,
    In q (Body.nodes p)
    /\ Body.data q = Some d /\ d <> []
    /\ atob (List.map Body.urlSafe d) = Some u
    /\ t = if Body.hasType (js "text/html") q then stripHtml u else u.
Proof.
  intros atob stripHtml p. induction p as [mt d|mt d l IH] using payload_ind_parts;
    intros t H Ht.
  - cbn [Body.extractBodyText] in H. destruct d as [[|c s]|].
    + injection H as <-. congruence.
    + unfold Body.decodeBase64Url in H.
      destruct (atob (List.map Body.urlSafe (c :: s))) as [u|] eqn:A;
        cbv beta iota in H; [|discriminate].
      exists (Body.Payload mt (Some (c :: s)) None), (c :: s), u.
      split; [left; reflexivity|]. split; [reflexivity|]. split; [discriminate|].
      split; [exact A|].
      exact (if_returns _ _ _ _ _ H).
    + injection H as <-. congruence.
  - assert (Sub : forall q, In q l ->
                    Body.extractBodyText atob stripHtml q = Returns t ->
                    exists q0 d0 u,
                      In q0 (Body.nodes (Body.Payload mt d (Some l)))
                      /\ Body.data q0 = Some d0 /\ d0 <> []
                      /\ atob (List.map Body.urlSafe d0) = Some u
                      /\ t = if Body.hasType (js "text/html") q0 then stripHtml u else u).
    { intros q Hq Hr. rewrite Forall_forall in IH.
      destruct (IH q Hq t Hr Ht) as (q0 & d0 & u & Hin & R).
      exists q0, d0, u. split; [|exact R]. apply (nodes_part mt d l q q0 Hq Hin). }
    assert (Parts :
              match Body.findThen (Body.hasType (js "text/plain"))
                                  (Body.extractBodyText atob stripHtml) l with
              | Some r => r
              | None =>
                  match Body.findThen (Body.hasType (js "text/html"))
                                      (Body.extractBodyText atob stripHtml) l with
                  | Some r => r
                  | None =>
                      match Body.firstText (Body.extractBodyText atob stripHtml) l with
                      | Returns (Some t) => Returns t
                      | Returns None => Returns []
                      | Throws => Throws
                      | OutOfFuel => OutOfFuel
                      end
                  end
              end = Returns t ->
              exists q0 d0 u,
                In q0 (Body.nodes (Body.Payload mt d (Some l)))
                /\ Body.data q0 = Some d0 /\ d0 <> []
                /\ atob (List.map Body.urlSafe d0) = Some u
                /\ t = if Body.hasType (js "text/html") q0 then stripHtml u else u).
    { intros H1.
      destruct (Body.findThen (Body.hasType (js "text/plain")) _ l) as [r|] eqn:F1.
      { apply findThen_Some in F1. destruct F1 as (pre & q & post & -> & _ & -> & _).
        apply (Sub q); [apply in_elt | exact H1]. }
      destruct (Body.findThen (Body.hasType (js "text/html")) _ l) as [r|] eqn:F2.
      { apply findThen_Some in F2. destruct F2 as (pre & q & post & -> & _ & -> & _).
        apply (Sub q); [apply in_elt | exact H1]. }
      destruct (Body.firstText _ l) as [[t1|]| |] eqn:F3; try discriminate.
      - injection H1 as ->. apply firstText_Some in F3.
        destruct F3 as (_ & q & Hq & Hc). apply (Sub q Hq Hc).
      - injection H1 as <-. congruence. }
    cbn [Body.extractBodyText] in H. destruct d as [[|c s]|].
    + apply Parts. exact H.
    + unfold Body.decodeBase64Url in H.
      destruct (atob (List.map Body.urlSafe (c :: s))) as [u|] eqn:A;
        cbv beta iota in H; [|discriminate].
      exists (Body.Payload mt (Some (c :: s)) (Some l)), (c :: s), u.
      split; [left; reflexivity|]. split; [reflexivity|]. split; [discriminate|].
      split; [exact A|].
      exact (if_returns _ _ _ _ _ H).
    + apply Parts. exact H.
Qed.

Lemma X18_body_text_comes_from_one_part_witness :
  exists q d u,
    In q (Body.nodes (Body.Payload None None (Some [Body.htmlPart])))
    /\ Body.data q = Some d /\ d <> []
    /\ (fun s => Some s) (List.map Body.urlSafe d) = Some u
    /\ js "Y29kZQ" = if Body.hasType (js "text/html") q then (fun s => s) u else u.
Proof.
  apply (X18_body_text_comes_from_one_part (fun s => Some s) (fun s => s)
           (Body.Payload None None (Some [Body.htmlPart])) (js "Y29kZQ")).
  - reflexivity.
  - discriminate.
Defined.

(** X19.  A payload without body data answers from its direct parts
    by type before content: the first part of type text/plain answers
    for the whole payload wherever it stands and whatever it gives,
    the empty text included; without one, the first part of type
    text/html does; without either, the first part, in order, that
    gives a non-empty text does, provided those before it gave the
    empty text. *)
Theorem X19_part_preference : forall atob stripHtml mt d pre q post,
  d = None \/ d = Some [] ->
  let whole := Body.Payload mt d (Some (pre ++ q :: post)) in
  let plain := Body.hasType (js "text/plain") in
  let html := Body.hasType (js "text/html") in
  ((forall x, In x pre -> plain x = false) -> plain q = true ->
   Body.extractBodyText atob stripHtml whole = Body.extractBodyText atob stripHtml q)
  /\ ((forall x, In x (pre ++ q :: post) -> plain x = false) ->
      (forall x, In x pre -> html x = false) -> html q = true ->
      Body.extractBodyText atob stripHtml whole = Body.extractBodyText atob stripHtml q)
  /\ ((forall x, In x (pre ++ q :: post) -> plain x = false /\ html x = false) ->
      (forall x, In x pre -> Body.extractBodyText atob stripHtml x = Returns []) ->
      forall t, Body.extractBodyText atob stripHtml q = Returns t -> t <> [] ->
                Body.extractBodyText atob stripHtml whole = Returns t).
Proof.
  intros atob stripHtml mt d pre q post Hd whole plain html.
  assert (E : Body.extractBodyText atob stripHtml whole
              = match Body.findThen plain (Body.extractBodyText atob stripHtml)
                                    (pre ++ q :: post) with
                | Some r => r
                | None =>
                    match Body.findThen html (Body.extractBodyText atob stripHtml)
                                        (pre ++ q :: post) with
                    | Some r => r
                    | None =>
                        match Body.firstText (Body.extractBodyText atob stripHtml)
                                             (pre ++ q :: post) with
                        | Returns (Some t) => Returns t
                        | Returns None => Returns []
                        | Throws => Throws
                        | OutOfFuel => OutOfFuel
                        end
                    end
                end).
  { unfold whole. destruct Hd as [-> | ->]; reflexivity. }
  split; [|split].
  - intros Hpre Hq. rewrite E, (findThen_first _ plain _ pre q post Hq Hpre). reflexivity.
  - intros Hno Hpre Hq.
    rewrite E, (findThen_None _ plain _ _ Hno), (findThen_first _ html _ pre q post Hq Hpre).
    reflexivity.
  - intros Hno Hpre t Hq Ht.
    rewrite E, (findThen_None _ plain), (findThen_None _ html);
      [|intros x Hx; apply Hno; exact Hx | intros x Hx; apply Hno; exact Hx].
    destruct t as [|c t]; [congruence|].
    rewrite (firstText_first _ pre q post c t Hpre Hq). reflexivity.
Qed.

Lemma X19_part_preference_witness :
  Body.extractBodyText (fun s => Some s) (fun s => s) Body.alternative = Returns []
  /\ Body.extractBodyText (fun s => Some s) (fun s => s) Body.htmlPart
     = Returns (js "Y29kZQ").
Proof.
  split; [|reflexivity].
  change (Body.extractBodyText (fun s => Some s) (fun s => s) Body.alternative
          = Body.extractBodyText (fun s => Some s) (fun s => s) Body.emptyPlain).
  apply (proj1 (X19_part_preference (fun s => Some s) (fun s => s)
                  (Some (js "multipart/alternative")) None
                  [Body.htmlPart] Body.emptyPlain [] (or_introl eq_refl))).
  - intros x [<-|[]]. reflexivity.
  - reflexivity.
Defined.
